(** * koa-hbs: the view renderer of [src/index.js]

    A shallow embedding of the Handlebars adapter for Koa and the properties
    of its template resolution, caching, layout and block pipeline.

    Conventions of the model.
    - A JavaScript object used as a dictionary ([cache], [pathCache],
      [blocks], [locals], ...) is a finite map over its own keys; the order of
      the keys and the members inherited from [Object.prototype] are not
      represented.  A lookup [o[name]] is therefore the lookup of the code
      for every name but the twelve members of [Object.prototype]
      ([constructor], [toString], [__proto__], ...): template names and block
      names are taken outside of these ([plain_name]).  The assignment
      [c[k] = v] of [merge], where the inherited setter [__proto__] decides
      on the own keys of the result, is modelled ([js_assign]).
    - A compiled template is a program that ends ([Prog]); an error raised
      inside the engine while a template runs is not represented.
    - [templateOptions.data.koa] holds the context as it is when the
      templates are called, before [body] is assigned.
    - A string is a sequence of code units below 256.
    - The asynchronous functions are run to completion one after the other:
      an [await] is a sequencing point, a rejected promise is a thrown
      error.  Interleavings of concurrent renders are not represented.
    - Node's [fs], [path] and [glob] and the Handlebars engine are external:
      they are parameters ([Platform], [Engine], [FileSystem]).  Every call
      to them is recorded in the log of the [World].
    - The arrays held by [blocks] are JavaScript objects with an identity;
      they live in a small heap so that the local alias kept by [content]
      is faithful. *)

From Stdlib Require Import Ascii String.
From stdpp Require Import gmap strings list.

Local Open Scope string_scope.

(** ** JavaScript values and objects *)

Inductive JValue : Type :=
| JUndefined
| JNull
| JBool (b : bool)
| JStr (s : string).

#[global] Instance JValue_eq_dec : EqDecision JValue.
Proof. solve_decision. Defined.

#[global] Instance JValue_inhabited : Inhabited JValue := populate JUndefined.

Abbreviation Obj := (gmap string JValue).

(** [o[k]]: a missing key reads as [undefined]. *)
Definition js_get (o : Obj) (k : string) : JValue := default JUndefined (o !! k).

(** [ToString], as used by [layout + this.extname]. *)
Definition js_toString (v : JValue) : string :=
  match v with
  | JUndefined => "undefined"
  | JNull => "null"
  | JBool true => "true"
  | JBool false => "false"
  | JStr s => s
  end.

(** Truthiness of a string ([if (s)], [!s], [s || d]). *)
Definition truthy (s : string) : bool := negb (bool_decide (s = "")).

(** [s || d] on strings. *)
Definition or_default (s d : string) : string := if truthy s then s else d.

(** [s.slice(0, e)] for an integer [e]: a negative end counts from the end
    of the string, and both ends are clamped to the string. *)
Definition slice0 (s : string) (e : Z) : string :=
  let len := Z.of_nat (String.length s) in
  let stop := if (e <? 0)%Z then Z.max (len + e) 0 else Z.min e len in
  String.substring 0 (Z.to_nat stop) s.

(** [a.join(sep)] *)
Fixpoint join (sep : string) (a : list string) : string :=
  match a with
  | [] => ""
  | [x] => x
  | x :: rest => x +:+ sep +:+ join sep rest
  end.

Definition newline : string := String (ascii_of_nat 10) "".

(** ** [merge], lines 10-19 *)

(** Whether a value is [null]. *)
Class IsNull (V : Type) : Type := is_null : V → bool.

#[global] Instance JValue_is_null : IsNull JValue :=
  λ v, bool_decide (v = JNull).

(** The object [c] that [merge] builds from [{}]: its own keys, and whether
    it still inherits from [Object.prototype]. *)
Record Building (V : Type) : Type := {
  own_keys : gmap string V;
  inherits : bool;
}.
Arguments own_keys {V} _.
Arguments inherits {V} _.

(** [c[k] = v].  As long as [c] inherits from [Object.prototype], the name
    [__proto__] is an accessor: the assignment goes to its setter, which
    gives [c] no own key and replaces the prototype of [c] when [v] is an
    object or [null].  After [null], [c] inherits nothing and [__proto__] is
    a key like any other; an object that becomes the prototype still leads
    to [Object.prototype]. *)
Definition js_assign {V : Type} `{!IsNull V} (c : Building V) (k : string)
    (v : V) : Building V :=
  if bool_decide (k = "__proto__") && inherits c
  then {| own_keys := own_keys c; inherits := negb (is_null v) |}
  else {| own_keys := <[k := v]> (own_keys c); inherits := inherits c |}.

Definition merge {V : Type} `{!IsNull V} (obj1 obj2 : gmap string V)
  : gmap string V :=
  let c : Building V := {| own_keys := ∅; inherits := true |} in
  let c := foldl (λ c kv, js_assign c kv.1 kv.2) c (map_to_list obj2) in
  own_keys
    (foldl (λ c kv, match own_keys c !! kv.1 with
                    | Some _ => c
                    | None => js_assign c kv.1 kv.2
                    end) c (map_to_list obj1)).

(** ** [rLayoutPattern], line 8

    [/{{!<\s+([A-Za-z0-9\._\-\/]+)\s*}}/], without flags and without anchor.
    White space, name characters and the closing brace are pairwise disjoint,
    so the three greedy quantifiers never backtrack: a match at a position
    takes the longest run of each. *)

Definition is_space (c : ascii) : bool :=
  let n := nat_of_ascii c in
  ((9 <=? n)%nat && (n <=? 13)%nat) || (n =? 32)%nat || (n =? 160)%nat.

Definition is_layout_char (c : ascii) : bool :=
  let n := nat_of_ascii c in
  ((65 <=? n)%nat && (n <=? 90)%nat) || ((97 <=? n)%nat && (n <=? 122)%nat)
  || ((48 <=? n)%nat && (n <=? 57)%nat)
  || (n =? 46)%nat || (n =? 95)%nat || (n =? 45)%nat || (n =? 47)%nat.

(** The longest prefix of [s] whose characters satisfy [p], and the rest. *)
Fixpoint span (p : ascii → bool) (s : string) : string * string :=
  match s with
  | String c r =>
      if p c then let '(a, b) := span p r in (String c a, b) else ("", s)
  | EmptyString => ("", "")
  end.

(** A match that starts at the first character of [s]: the captured name. *)
Definition rLayoutPattern_at (s : string) : option string :=
  match s with
  | String "{"%char (String "{"%char (String "!"%char (String "<"%char r))) =>
      let '(ws, r) := span is_space r in
      if truthy ws then
        let '(name, r) := span is_layout_char r in
        if truthy name then
          let '(_, r) := span is_space r in
          match r with
          | String "}"%char (String "}"%char _) => Some name
          | _ => None
          end
        else None
      else None
  | _ => None
  end.

(** [rLayoutPattern.exec(s)[1]]: the capture of the leftmost match. *)
Fixpoint rLayoutPattern_exec (s : string) : option string :=
  match rLayoutPattern_at s with
  | Some name => Some name
  | None =>
      match s with
      | String _ r => rLayoutPattern_exec r
      | EmptyString => None
      end
  end.

(** [rLayoutPattern.test(s)] *)
Definition rLayoutPattern_test (s : string) : bool :=
  match rLayoutPattern_exec s with Some _ => true | None => false end.

(** ** Errors, lines 25-41 *)

Inductive Error : Type :=
| MissingTemplateError (message : string) (extra : JValue)
| BadOptionsError (message : string) (extra : JValue)
| FsError (path : string)
| TypeError (message : string).

Inductive Result (A : Type) : Type :=
| Ok (a : A)
| Throw (e : Error).
Arguments Ok {A} a.
Arguments Throw {A} e.

(** ** The Koa context and the engine *)

(** [ctx]: the request state and the response body. *)
Record Ctx : Type := {
  ctx_state : option Obj;
  ctx_body : option string;
}.

(** A value of [templateOptions.data]; [DKoa ctx] is the Koa context, with
    the state and the body that it has when a template reads it. *)
Inductive DataVal : Type :=
| DKoa (ctx : Ctx)
| DVal (v : JValue).

#[global] Instance DataVal_is_null : IsNull DataVal :=
  λ v, match v with DVal JNull => true | _ => false end.

(** [templateOptions]: only [data] is touched by the renderer. *)
Record TemplateOptions : Type := {
  to_data : option (gmap string DataVal);
  to_rest : Obj;
}.

(** What a compiled template does when it is called: it produces text and
    calls the two helpers registered by [configure].  [CallBlock] is a call
    of the block helper with [options.fn] (a block statement), [CallInline]
    one without (a plain mustache), [CallContent] a call of the content
    helper.  The helper's return value goes to the continuation. *)
Inductive Prog : Type :=
| Done (out : string)
| CallBlock (name : string) (fn : Prog) (k : string → Prog)
| CallInline (name : string) (k : string → Prog)
| CallContent (name : string) (fn : Prog) (k : Prog).

(** A compiled template: a function of the partials registered on the
    engine, of the data and of the options. *)
Definition Template : Type :=
  gmap string string → Obj → TemplateOptions → Prog.

(** [handlebars.compile].  The one fact used about the engine is that the
    source [{{{body}}}] compiles to the template that writes the string
    under the key [body]. *)
Class Engine : Type := {
  compile : string → Template;
  compile_body :
    ∀ partials (locals : Obj) options s,
      locals !! "body" = Some (JStr s) →
      compile "{{{body}}}" partials locals options = Done s;
}.

(** Node's [path.join] (of two arguments) and [path.isAbsolute]. *)
Class Platform : Type := {
  path_join : string → string → string;
  path_isAbsolute : string → bool;
}.

(** The file system at the time of a render: [fs.statSync] (does it
    return?), [fs.promises.readFile] and [glob(pattern, {cwd})]; [None] is a
    rejection. *)
Record FileSystem : Type := {
  statSync : string → bool;
  readFile : string → option string;
  glob : string → string → option (list string);
}.

(** ** The instance, lines 49-94 *)

(** An option that is a path or an array of paths. *)
Inductive PathSpec : Type :=
| PString (s : string)
| PArray (a : list string).

(** An entry of [cache]: [{ template, layoutTemplate }]. *)
Module Entry.
Record t : Type := {
  template : Template;
  layoutTemplate : option Template;
}.
End Entry.

Module Hbs.

(** The fields of the [Hbs] object; [partials] is the table of partials of
    its Handlebars instance. *)
#[projections(primitive)]
Record t : Type := {
  viewPath : list string;
  templateOptions : TemplateOptions;
  extname : string;
  partialsPath : PathSpec;
  contentHelperName : string;
  blockHelperName : string;
  defaultLayout : string;
  layoutsPath : string;
  locals : Obj;
  disableCache : bool;
  partialsRegistered : bool;
  cache : gmap string Entry.t;
  blocks : gmap string nat;
  pathCache : option (gmap string string);
  layoutTemplate : option Template;
  partials : gmap string string;
}.

Definition set_templateOptions (v : TemplateOptions) (h : t) : t :=
  {| viewPath := viewPath h; templateOptions := v; extname := extname h;
     partialsPath := partialsPath h; contentHelperName := contentHelperName h;
     blockHelperName := blockHelperName h; defaultLayout := defaultLayout h;
     layoutsPath := layoutsPath h; locals := locals h;
     disableCache := disableCache h;
     partialsRegistered := partialsRegistered h; cache := cache h;
     blocks := blocks h; pathCache := pathCache h;
     layoutTemplate := layoutTemplate h; partials := partials h |}.

Definition set_partialsPath (v : PathSpec) (h : t) : t :=
  {| viewPath := viewPath h; templateOptions := templateOptions h;
     extname := extname h;
     partialsPath := v; contentHelperName := contentHelperName h;
     blockHelperName := blockHelperName h; defaultLayout := defaultLayout h;
     layoutsPath := layoutsPath h; locals := locals h;
     disableCache := disableCache h;
     partialsRegistered := partialsRegistered h; cache := cache h;
     blocks := blocks h; pathCache := pathCache h;
     layoutTemplate := layoutTemplate h; partials := partials h |}.

Definition set_partialsRegistered (v : bool) (h : t) : t :=
  {| viewPath := viewPath h; templateOptions := templateOptions h;
     extname := extname h;
     partialsPath := partialsPath h; contentHelperName := contentHelperName h;
     blockHelperName := blockHelperName h; defaultLayout := defaultLayout h;
     layoutsPath := layoutsPath h; locals := locals h;
     disableCache := disableCache h;
     partialsRegistered := v; cache := cache h;
     blocks := blocks h; pathCache := pathCache h;
     layoutTemplate := layoutTemplate h; partials := partials h |}.

Definition set_cache (v : gmap string Entry.t) (h : t) : t :=
  {| viewPath := viewPath h; templateOptions := templateOptions h;
     extname := extname h;
     partialsPath := partialsPath h; contentHelperName := contentHelperName h;
     blockHelperName := blockHelperName h; defaultLayout := defaultLayout h;
     layoutsPath := layoutsPath h; locals := locals h;
     disableCache := disableCache h;
     partialsRegistered := partialsRegistered h; cache := v;
     blocks := blocks h; pathCache := pathCache h;
     layoutTemplate := layoutTemplate h; partials := partials h |}.

Definition set_blocks (v : gmap string nat) (h : t) : t :=
  {| viewPath := viewPath h; templateOptions := templateOptions h;
     extname := extname h;
     partialsPath := partialsPath h; contentHelperName := contentHelperName h;
     blockHelperName := blockHelperName h; defaultLayout := defaultLayout h;
     layoutsPath := layoutsPath h; locals := locals h;
     disableCache := disableCache h;
     partialsRegistered := partialsRegistered h; cache := cache h;
     blocks := v; pathCache := pathCache h;
     layoutTemplate := layoutTemplate h; partials := partials h |}.

Definition set_pathCache (v : option (gmap string string)) (h : t) : t :=
  {| viewPath := viewPath h; templateOptions := templateOptions h;
     extname := extname h;
     partialsPath := partialsPath h; contentHelperName := contentHelperName h;
     blockHelperName := blockHelperName h; defaultLayout := defaultLayout h;
     layoutsPath := layoutsPath h; locals := locals h;
     disableCache := disableCache h;
     partialsRegistered := partialsRegistered h; cache := cache h;
     blocks := blocks h; pathCache := v;
     layoutTemplate := layoutTemplate h; partials := partials h |}.

Definition set_layoutTemplate (v : option Template) (h : t) : t :=
  {| viewPath := viewPath h; templateOptions := templateOptions h;
     extname := extname h;
     partialsPath := partialsPath h; contentHelperName := contentHelperName h;
     blockHelperName := blockHelperName h; defaultLayout := defaultLayout h;
     layoutsPath := layoutsPath h; locals := locals h;
     disableCache := disableCache h;
     partialsRegistered := partialsRegistered h; cache := cache h;
     blocks := blocks h; pathCache := pathCache h;
     layoutTemplate := v; partials := partials h |}.

Definition set_partials (v : gmap string string) (h : t) : t :=
  {| viewPath := viewPath h; templateOptions := templateOptions h;
     extname := extname h;
     partialsPath := partialsPath h; contentHelperName := contentHelperName h;
     blockHelperName := blockHelperName h; defaultLayout := defaultLayout h;
     layoutsPath := layoutsPath h; locals := locals h;
     disableCache := disableCache h;
     partialsRegistered := partialsRegistered h; cache := cache h;
     blocks := blocks h; pathCache := pathCache h;
     layoutTemplate := layoutTemplate h; partials := v |}.

End Hbs.

(** The options of [configure]; [None] is an option that is not given. *)
Record Options : Type := {
  opt_viewPath : option PathSpec;
  opt_templateOptions : option TemplateOptions;
  opt_extname : option string;
  opt_partialsPath : option PathSpec;
  opt_contentHelperName : option string;
  opt_blockHelperName : option string;
  opt_defaultLayout : option string;
  opt_layoutsPath : option string;
  opt_locals : option Obj;
  opt_disableCache : option bool;
}.

(** [options || {}] *)
Definition no_options : Options :=
  {| opt_viewPath := None; opt_templateOptions := None; opt_extname := None;
     opt_partialsPath := None; opt_contentHelperName := None;
     opt_blockHelperName := None; opt_defaultLayout := None;
     opt_layoutsPath := None; opt_locals := None; opt_disableCache := None |}.

(** Truthiness of a path option: an array is an object, hence truthy. *)
Definition truthy_path (p : option PathSpec) : option PathSpec :=
  match p with
  | Some (PString s) => if truthy s then p else None
  | Some (PArray _) => p
  | None => None
  end.

(** [o || d] for an optional string. *)
Definition opt_or (o : option string) (d : string) : string :=
  or_default (default "" o) d.

(** [configure], lines 56-94.  [h] is the instance before the call: the
    fields [pathCache], [layoutTemplate] and the engine's partials are not
    assigned by [configure] and keep their values.  The two helpers it
    registers are [blockHelper] and [contentHelper] below. *)
Definition configure (options : option Options) (h : Hbs.t) : Result Hbs.t :=
  let options := default no_options options in
  match truthy_path (opt_viewPath options) with
  | None =>
      Throw (BadOptionsError "The option `viewPath` must be specified."
                             JUndefined)
  | Some vp =>
      Ok {| Hbs.viewPath := match vp with PArray a => a | PString s => [s] end;
            Hbs.templateOptions :=
              default {| to_data := None; to_rest := ∅ |}
                      (opt_templateOptions options);
            Hbs.extname := opt_or (opt_extname options) ".hbs";
            Hbs.partialsPath :=
              default (PArray []) (truthy_path (opt_partialsPath options));
            Hbs.contentHelperName :=
              opt_or (opt_contentHelperName options) "contentFor";
            Hbs.blockHelperName := opt_or (opt_blockHelperName options) "block";
            Hbs.defaultLayout := opt_or (opt_defaultLayout options) "";
            Hbs.layoutsPath := opt_or (opt_layoutsPath options) "";
            Hbs.locals := default ∅ (opt_locals options);
            Hbs.disableCache := default false (opt_disableCache options);
            Hbs.partialsRegistered := false;
            Hbs.cache := ∅;
            Hbs.blocks := ∅;
            Hbs.pathCache := Hbs.pathCache h;
            Hbs.layoutTemplate := Hbs.layoutTemplate h;
            Hbs.partials := Hbs.partials h |}
  end.

(** [new Hbs()], lines 49-54: nothing is set before [configure]; the fields
    that [configure] assigns are given blank values here. *)
Definition new_Hbs : Hbs.t :=
  {| Hbs.viewPath := []; Hbs.templateOptions := {| to_data := None; to_rest := ∅ |};
     Hbs.extname := ""; Hbs.partialsPath := PArray []; Hbs.contentHelperName := "";
     Hbs.blockHelperName := ""; Hbs.defaultLayout := ""; Hbs.layoutsPath := "";
     Hbs.locals := ∅; Hbs.disableCache := false; Hbs.partialsRegistered := false;
     Hbs.cache := ∅; Hbs.blocks := ∅; Hbs.pathCache := None; Hbs.layoutTemplate := None;
     Hbs.partials := ∅ |}.

(** ** The world and its monad *)

Inductive Logged : Type :=
| LString (s : string)
| LError (e : Error).

(** The calls that leave the instance: to the file system, to the engine,
    to the console, and the calls of the engine back into the helpers. *)
Inductive Event : Type :=
| EStat (path : string)
| EReadFile (path : string)
| EGlob (pattern cwd : string)
| ECompile (src : string)
| ERegisterPartial (name partial : string)
| EConsoleError (what : Logged)
| ETemplate (data : Obj)
| ELayout (data : Obj)
| EBlock (name : string)
| EContent (name fragment : string).

#[projections(primitive)]
Record World : Type := {
  w_hbs : Hbs.t;
  w_arrays : gmap nat (list string);
  w_next : nat;
  w_log : list Event;
}.

Definition M (A : Type) : Type := World → Result A * World.

Definition ret {A} (a : A) : M A := λ w, (Ok a, w).

Definition throw {A} (e : Error) : M A := λ w, (Throw e, w).

Definition bind {A B} (m : M A) (k : A → M B) : M B :=
  λ w, match m w with
       | (Ok a, w') => k a w'
       | (Throw e, w') => (Throw e, w')
       end.

(** [try { m } catch (e) { handler e }] *)
Definition try_catch {A} (m : M A) (handler : Error → M A) : M A :=
  λ w, match m w with
       | (Ok a, w') => (Ok a, w')
       | (Throw e, w') => handler e w'
       end.

Notation "'let*' x ':=' m 'in' k" := (bind m (λ x, k))
  (at level 10, x name, m at level 100, k at level 200).

Definition get_hbs : M Hbs.t := λ w, (Ok (w_hbs w), w).

Definition update_hbs (f : Hbs.t → Hbs.t) : M unit :=
  λ w, (Ok tt, {| w_hbs := f (w_hbs w); w_arrays := w_arrays w;
                   w_next := w_next w; w_log := w_log w |}).

Definition emit (e : Event) : M unit :=
  λ w, (Ok tt, {| w_hbs := w_hbs w; w_arrays := w_arrays w;
                   w_next := w_next w; w_log := (w_log w ++ [e])%list |}).

(** [[]]: a new array. *)
Definition new_array : M nat :=
  λ w, (Ok (w_next w),
        {| w_hbs := w_hbs w; w_arrays := <[w_next w := []]> (w_arrays w);
           w_next := S (w_next w); w_log := w_log w |}).

(** The elements of the array [a]. *)
Definition read_array (a : nat) : M (list string) :=
  λ w, (Ok (default [] (w_arrays w !! a)), w).

(** [a.push(x)] *)
Definition push (a : nat) (x : string) : M unit :=
  λ w, (Ok tt,
        {| w_hbs := w_hbs w;
           w_arrays :=
             <[a := (default [] (w_arrays w !! a) ++ [x])%list]> (w_arrays w);
           w_next := w_next w; w_log := w_log w |}).

(** [console.error] *)
Definition console_error (what : Logged) : M unit := emit (EConsoleError what).

(** [Promise.all(ps)]: every promise of the list has been started; the
    result is the list of the values, or the first rejection. *)
Fixpoint promise_all {A} (ps : list (M A)) : M (list A) :=
  match ps with
  | [] => ret []
  | p :: ps =>
      λ w, match p w with
           | (Ok a, w1) =>
               match promise_all ps w1 with
               | (Ok l, w2) => (Ok (a :: l), w2)
               | (Throw e, w2) => (Throw e, w2)
               end
           | (Throw e, w1) => (Throw e, (promise_all ps w1).2)
           end
  end.

(** [for (...) body x], for a body that does not throw out of the loop
    unless it throws. *)
Fixpoint for_each {A} (body : A → M unit) (l : list A) : M unit :=
  match l with
  | [] => ret tt
  | x :: l => let* _ := body x in for_each body l
  end.

(** ** The renderer *)

Section Renderer.
Context `{!Platform} `{!Engine}.

(** [read], lines 21-23 *)
Definition read (fs : FileSystem) (filename : string) : M string :=
  let* _ := emit (EReadFile filename) in
  match readFile fs filename with
  | Some s => ret s
  | None => throw (FsError filename)
  end.

(** [glob(pattern, { cwd })] *)
Definition js_glob (fs : FileSystem) (pattern cwd : string)
  : M (list string) :=
  let* _ := emit (EGlob pattern cwd) in
  match glob fs pattern cwd with
  | Some l => ret l
  | None => throw (FsError cwd)
  end.

(** [this.handlebars.compile(src)] *)
Definition handlebars_compile (src : string) : M Template :=
  let* _ := emit (ECompile src) in
  ret (compile src).

(** [content], lines 259-262, for a plain name (one that [this.blocks]
    does not inherit); [fn] is [options.fn(context)]. *)
Definition content (name : string) (fn : M string) : M unit :=
  let* h := get_hbs in
  let* block :=
    match Hbs.blocks h !! name with
    | Some a => ret a
    | None =>
        let* a := new_array in
        let* _ := update_hbs (λ h, Hbs.set_blocks (<[name := a]> (Hbs.blocks h)) h) in
        ret a
    end in
  let* fragment := fn in
  let* _ := emit (EContent name fragment) in
  push block fragment.

(** [block], lines 264-268, for a plain name *)
Definition block (name : string) : M string :=
  let* _ := emit (EBlock name) in
  let* h := get_hbs in
  let* a :=
    match Hbs.blocks h !! name with
    | Some a => read_array a
    | None => ret []
    end in
  let val := join newline a in
  let* fresh := new_array in
  let* _ := update_hbs (λ h, Hbs.set_blocks (<[name := fresh]> (Hbs.blocks h)) h) in
  ret val.

(** The block helper, lines 83-87; [options_fn] is [options.fn(this)] when
    [options.fn] is a function. *)
Definition blockHelper (name : string) (options_fn : option (M string))
  : M string :=
  let* val := block name in
  match options_fn with
  | Some fn => if bool_decide (val = "") then fn else ret val
  | None => ret val
  end.

(** The content helper, lines 89-91 *)
Definition contentHelper (name : string) (options_fn : M string) : M unit :=
  content name options_fn.

(** Calling a compiled template that returns. *)
Fixpoint run (p : Prog) : M string :=
  match p with
  | Done out => ret out
  | CallBlock name fn k =>
      let* v := blockHelper name (Some (run fn)) in run (k v)
  | CallInline name k =>
      let* v := blockHelper name None in run (k v)
  | CallContent name fn k =>
      let* _ := contentHelper name (run fn) in run k
  end.

(** The loop of [getTemplatePath], lines 244-254 *)
Fixpoint getTemplatePath_loop (fs : FileSystem) (tpl : string)
    (roots : list string) : M (option string) :=
  match roots with
  | [] => ret None
  | root :: roots =>
      let* h := get_hbs in
      let tplPath := path_join root (tpl +:+ Hbs.extname h) in
      let* _ := emit (EStat tplPath) in
      if statSync fs tplPath then
        let* _ :=
          if Hbs.disableCache h then ret tt
          else update_hbs (λ h,
                 Hbs.set_pathCache
                   (Some (<[tpl := tplPath]> (default ∅ (Hbs.pathCache h)))) h) in
        ret (Some tplPath)
      else getTemplatePath_loop fs tpl roots
  end.

(** [getTemplatePath], lines 240-257, for a plain name (one that [cache]
    does not inherit); [None] is [undefined]. *)
Definition getTemplatePath (fs : FileSystem) (tpl : string)
  : M (option string) :=
  let* h := get_hbs in
  let cache := default ∅ (Hbs.pathCache h) in
  let* _ := update_hbs (Hbs.set_pathCache (Some cache)) in
  match cache !! tpl with
  | Some p =>
      if truthy p then ret (Some p)
      else getTemplatePath_loop fs tpl (Hbs.viewPath h)
  | None => getTemplatePath_loop fs tpl (Hbs.viewPath h)
  end.

(** [getLayoutPath], lines 162-165 *)
Definition getLayoutPath (layout : JValue) : M string :=
  let* h := get_hbs in
  if truthy (Hbs.layoutsPath h) then
    ret (path_join (Hbs.layoutsPath h) (js_toString layout +:+ Hbs.extname h))
  else
    match Hbs.viewPath h with
    | root :: _ => ret (path_join root (js_toString layout +:+ Hbs.extname h))
    | [] => throw (TypeError "path.join: the path is undefined")
    end.

(** [loadLayoutFile], lines 190-193 *)
Definition loadLayoutFile (fs : FileSystem) (layout : JValue) : M string :=
  let* file := getLayoutPath layout in
  read fs file.

(** [cacheLayout], lines 174-188; [None] is [undefined], the only argument
    the source calls it with. *)
Definition cacheLayout (fs : FileSystem) (layout : option string)
  : M (option Template) :=
  let* h := get_hbs in
  let layout := default "" layout in
  if negb (truthy layout) && negb (truthy (Hbs.defaultLayout h)) then
    let* t := handlebars_compile "{{{body}}}" in
    ret (Some t)
  else
    let layout := if truthy layout then layout else Hbs.defaultLayout h in
    try_catch
      (let* rawLayout := loadLayoutFile fs (JStr layout) in
       let* t := handlebars_compile rawLayout in
       ret (Some t))
      (λ err,
         let* _ := console_error (LError err) in
         ret None).

(** [getLayoutTemplate], lines 167-172 *)
Definition getLayoutTemplate (fs : FileSystem) : M (option Template) :=
  let* h := get_hbs in
  let* _ :=
    if Hbs.disableCache h || negb (bool_decide (is_Some (Hbs.layoutTemplate h))) then
      let* t := cacheLayout fs None in
      update_hbs (Hbs.set_layoutTemplate t)
    else ret tt in
  let* h := get_hbs in
  ret (Hbs.layoutTemplate h).

(** [registerPartial], lines 199-201, for a name and a source *)
Definition registerPartial (name partial : string) : M unit :=
  let* _ := emit (ERegisterPartial name partial) in
  update_hbs (λ h, Hbs.set_partials (<[name := partial]> (Hbs.partials h)) h).

(** The two lists built by the loops of lines 221-226 *)
Definition partial_files (roots : list string)
    (resultList : list (list string)) : list string :=
  flat_map (λ '(root, result), map (λ file, path_join root file) result)
           (zip roots resultList).

Definition partial_names (ext : string) (resultList : list (list string))
  : list string :=
  flat_map (λ result,
              map (λ file, slice0 file (-1 * Z.of_nat (String.length ext)))
                  result)
           resultList.

(** [registerPartials], lines 206-238 *)
Definition registerPartials (fs : FileSystem) : M unit :=
  let* h := get_hbs in
  let* _ :=
    match Hbs.partialsPath h with
    | PArray _ => ret tt
    | PString s => update_hbs (Hbs.set_partialsPath (PArray [s]))
    end in
  let* h := get_hbs in
  let roots := match Hbs.partialsPath h with PArray a => a | PString s => [s] end in
  try_catch
    (let* resultList :=
       promise_all
         (map (λ root, js_glob fs ("**/*" +:+ Hbs.extname h) root) roots) in
     if bool_decide (length resultList = 0) then ret tt
     else
       let files := partial_files roots resultList in
       let names := partial_names (Hbs.extname h) resultList in
       let* sources := promise_all (map (read fs) files) in
       let* _ :=
         for_each (λ '(name, partial), registerPartial name partial)
                  (zip names sources) in
       update_hbs (Hbs.set_partialsRegistered true))
    (λ e,
       let* _ :=
         console_error (LString "Error caught while registering partials") in
       console_error (LError e)).

(** [render], lines 112-159: the function made by [createRenderer], called
    with [this] the Koa context and a plain name.  The result is the context
    after the assignment of [this.body]. *)
Definition render (fs : FileSystem) (this : Ctx) (tpl : string)
    (locals : option Obj) : M Ctx :=
  let* tplPath := getTemplatePath fs tpl in
  let* hbs := get_hbs in
  let tplPath :=
    if path_isAbsolute tpl then Some (tpl +:+ Hbs.extname hbs) else tplPath in
  match tplPath with
  | None =>
      throw (MissingTemplateError "The template specified does not exist."
                                  JUndefined)
  | Some tplPath =>
    if negb (truthy tplPath) then
      throw (MissingTemplateError "The template specified does not exist."
                                  (JStr tplPath))
    else
      let locals := merge (default ∅ (ctx_state this)) (default ∅ locals) in
      let locals := merge (Hbs.locals hbs) locals in
      let* _ :=
        if Hbs.disableCache hbs
           || negb (Hbs.partialsRegistered hbs)
              && match Hbs.partialsPath hbs with
                 | PString s => truthy s
                 | PArray _ => true
                 end
        then registerPartials fs else ret tt in
      let* hbs := get_hbs in
      let* _ :=
        if Hbs.disableCache hbs || negb (bool_decide (is_Some (Hbs.cache hbs !! tpl)))
        then
          let* rawTemplate := read fs tplPath in
          let* template := handlebars_compile rawTemplate in
          let* _ :=
            update_hbs (λ h,
              Hbs.set_cache (<[tpl := {| Entry.template := template;
                                     Entry.layoutTemplate := None |}]>
                           (Hbs.cache h)) h) in
          if negb (bool_decide (js_get locals "layout" = JUndefined))
             || rLayoutPattern_test rawTemplate
          then
            let layout := js_get locals "layout" in
            let layout :=
              if bool_decide (layout = JUndefined)
              then from_option JStr JUndefined (rLayoutPattern_exec rawTemplate)
              else layout in
            let* layoutTemplate :=
              if negb (bool_decide (layout = JBool false)) then
                let* rawLayout := loadLayoutFile fs layout in
                handlebars_compile rawLayout
              else handlebars_compile "{{{body}}}" in
            update_hbs (λ h,
              Hbs.set_cache (<[tpl := {| Entry.template := template;
                                     Entry.layoutTemplate :=
                                       Some layoutTemplate |}]>
                           (Hbs.cache h)) h)
          else ret tt
        else ret tt in
      let* hbs := get_hbs in
      match Hbs.cache hbs !! tpl with
      | None => throw (TypeError "hbs.cache[tpl] is undefined")
      | Some entry =>
          let template := Entry.template entry in
          let* layoutTemplate :=
            match Entry.layoutTemplate entry with
            | Some t => ret (Some t)
            | None => getLayoutTemplate fs
            end in
          let* _ :=
            update_hbs (λ h,
              Hbs.set_templateOptions
                {| to_data :=
                     Some (merge (default ∅ (to_data (Hbs.templateOptions h)))
                                 {[ "koa" := DKoa this ]});
                   to_rest := to_rest (Hbs.templateOptions h) |} h) in
          let* hbs := get_hbs in
          let* _ := emit (ETemplate locals) in
          let* body :=
            run (template (Hbs.partials hbs) locals (Hbs.templateOptions hbs)) in
          let locals := <["body" := JStr body]> locals in
          match layoutTemplate with
          | None => throw (TypeError "layoutTemplate is not a function")
          | Some layoutTemplate =>
              let* _ := emit (ELayout locals) in
              let* out :=
                run (layoutTemplate (Hbs.partials hbs) locals
                                    (Hbs.templateOptions hbs)) in
              ret {| ctx_state := ctx_state this; ctx_body := Some out |}
          end
      end
  end.

End Renderer.

(** ** The middleware, lines 99-107 *)

(** [this.configure(options)] on the instance of the world.  [configure]
    throws before its first assignment, so a refused call leaves the
    instance as it was. *)
Definition hbs_configure (options : option Options) : M unit :=
  λ w, match configure options (w_hbs w) with
       | Ok h =>
           (Ok tt, {| w_hbs := h; w_arrays := w_arrays w;
                      w_next := w_next w; w_log := w_log w |})
       | Throw e => (Throw e, w)
       end.

(** [ctx.render], as the rest of the chain sees it: the renderer of
    [createRenderer] with [this] bound to the context, for the file system
    at the time of the call. *)
Definition Render : Type := FileSystem → string → option Obj → M Ctx.

Section Middleware.
Context `{!Platform} `{!Engine}.

(** [middleware]: the instance is configured, and the function returned
    sets [ctx.render] and awaits [next], the rest of the chain. *)
Definition middleware {A} (options : option Options)
  : M (Ctx → (Render → M A) → M A) :=
  let* _ := hbs_configure options in
  let render : Ctx → Render := λ ctx fs, render fs ctx in
  ret (λ ctx next, next (render ctx)).

End Middleware.

(** ** A sample installation

    A POSIX [path] for paths that are already normal, a small [/views]
    directory, and the engine restricted to the sources of that directory:
    each source is listed with what Handlebars makes of it. *)

#[local] Instance sample_platform : Platform := {|
  path_join a b := a +:+ "/" +:+ b;
  path_isAbsolute p :=
    match p with String "/"%char _ => true | _ => false end;
|}.

(** What a triple mustache writes for a value: nothing for [undefined] and
    [null]. *)
Definition display (v : JValue) : string :=
  match v with
  | JUndefined | JNull => ""
  | _ => js_toString v
  end.

Definition src_main : string := "<html>{{{body}}}</html>".
Definition src_home : string := "{{!< main}}<p>hi</p>".
Definition src_late : string := "<p>hi</p>" +:+ newline +:+ "{{!< main}}".
Definition src_plain : string := "<p>plain</p>".
Definition src_side : string :=
  "{{#contentFor 'sidebar'}}stale{{/contentFor}}<p>a</p>".
Definition src_frame : string :=
  "<aside>{{#block 'sidebar'}}default{{/block}}</aside>{{{body}}}".
Definition src_page : string := "{{!< frame}}<p>b</p>".

Definition sample_compile (src : string) : Template :=
  λ _ data _,
    if bool_decide (src = "{{{body}}}") then
      Done (display (js_get data "body"))
    else if bool_decide (src = src_main) then
      Done ("<html>" +:+ display (js_get data "body") +:+ "</html>")
    else if bool_decide (src = src_home) then Done "<p>hi</p>"
    else if bool_decide (src = src_late) then Done ("<p>hi</p>" +:+ newline)
    else if bool_decide (src = src_side) then
      CallContent "sidebar" (Done "stale") (Done "<p>a</p>")
    else if bool_decide (src = src_frame) then
      CallBlock "sidebar" (Done "default")
        (λ v, Done ("<aside>" +:+ v +:+ "</aside>"
                    +:+ display (js_get data "body")))
    else if bool_decide (src = src_page) then Done "<p>b</p>"
    else Done src.

#[local] Instance sample_engine : Engine := {|
  compile := sample_compile;
  compile_body := λ _ data _ s Hbody,
    f_equal (λ o, Done (display (default JUndefined o))) Hbody;
|}.

Definition sample_files : list (string * string) :=
  [ ("/views/main.hbs", src_main);
    ("/views/home.hbs", src_home);
    ("/views/late.hbs", src_late);
    ("/views/plain.hbs", src_plain);
    ("/views/side.hbs", src_side);
    ("/views/frame.hbs", src_frame);
    ("/views/page.hbs", src_page);
    ("/partials/nav/item.hbs", "<li>item</li>") ].

Fixpoint assoc (k : string) (l : list (string * string)) : option string :=
  match l with
  | [] => None
  | (k', v) :: l => if bool_decide (k = k') then Some v else assoc k l
  end.

Definition sample_fs : FileSystem := {|
  statSync p := bool_decide (is_Some (assoc p sample_files));
  readFile p := assoc p sample_files;
  glob pattern cwd :=
    if bool_decide (cwd = "/partials") then Some ["nav/item.hbs"] else Some [];
|}.

Definition sample_options : Options :=
  {| opt_viewPath := Some (PString "/views"); opt_templateOptions := None;
     opt_extname := None; opt_partialsPath := None;
     opt_contentHelperName := None; opt_blockHelperName := None;
     opt_defaultLayout := None; opt_layoutsPath := None; opt_locals := None;
     opt_disableCache := None |}.

(** The world after [new Hbs()] and [configure(options)]; an option that is
    refused leaves the new instance. *)
Definition start (options : Options) : World :=
  {| w_hbs := match configure (Some options) new_Hbs with
              | Ok h => h
              | Throw _ => new_Hbs
              end;
     w_arrays := ∅; w_next := 0; w_log := [] |}.

Definition empty_ctx : Ctx := {| ctx_state := None; ctx_body := None |}.

(** The body delivered by a render, when it returns. *)
Definition delivered (r : Result Ctx * World) : option string :=
  match r.1 with
  | Ok ctx => ctx_body ctx
  | Throw _ => None
  end.

(** ** Vocabulary of the properties *)

(** Every character of [s] satisfies [p]. *)
Fixpoint string_forallb (p : ascii → bool) (s : string) : bool :=
  match s with
  | String c r => p c && string_forallb p r
  | EmptyString => true
  end.

Definition not_brace (c : ascii) : bool :=
  negb (bool_decide (c = "{"%char)).

(** [s] starts with a marker that names [name]: the language of the
    pattern, written out. *)
Definition is_marker (s name : string) : Prop :=
  ∃ ws1 ws2 post,
    s = "{{!<" +:+ ws1 +:+ name +:+ ws2 +:+ "}}" +:+ post
    ∧ ws1 ≠ "" ∧ string_forallb is_space ws1 = true
    ∧ name ≠ "" ∧ string_forallb is_layout_char name = true
    ∧ string_forallb is_space ws2 = true.

(** The members that every object inherits from [Object.prototype].  For
    one of these names, [o[name]] on a dictionary [o] without an own key of
    the name is the inherited member, not [undefined]: [cache[tpl]] and
    [hbs.cache[tpl]] are truthy and [this.blocks[name]] is no array.  The
    maps of the model hold own keys only, so the functions that look a
    template or a block up by name are the functions of the code on the
    other names, the plain names. *)
Definition object_prototype_names : list string :=
  [ "constructor"; "__defineGetter__"; "__defineSetter__"; "hasOwnProperty";
    "__lookupGetter__"; "__lookupSetter__"; "isPrototypeOf";
    "propertyIsEnumerable"; "toString"; "valueOf"; "__proto__";
    "toLocaleString" ].

Definition inherited (name : string) : bool :=
  bool_decide (name ∈ object_prototype_names).

(** A name that is looked up among own keys only. *)
Definition plain_name (name : string) : Prop := inherited name = false.

(** A compiled template that calls the helpers with plain names, whatever
    the helpers return. *)
Inductive plain_prog : Prog → Prop :=
| plain_Done out : plain_prog (Done out)
| plain_CallBlock name fn k :
    plain_name name → plain_prog fn → (∀ v, plain_prog (k v)) →
    plain_prog (CallBlock name fn k)
| plain_CallInline name k :
    plain_name name → (∀ v, plain_prog (k v)) →
    plain_prog (CallInline name k)
| plain_CallContent name fn k :
    plain_name name → plain_prog fn → plain_prog k →
    plain_prog (CallContent name fn k).


(** [o[k]] is [null]. *)
Definition null_at {V : Type} `{!IsNull V} (o : gmap string V) (k : string)
  : bool :=
  match o !! k with Some v => is_null v | None => false end.

(** A world with a longer log. *)
Definition logged (d : list Event) (w : World) : World :=
  {| w_hbs := w_hbs w; w_arrays := w_arrays w; w_next := w_next w;
     w_log := (w_log w ++ d)%list |}.

(** The fragments pending for a block name: the elements of the array that
    [blocks[name]] holds. *)
Definition frags (w : World) (name : string) : list string :=
  match Hbs.blocks (w_hbs w) !! name with
  | Some a => default [] (w_arrays w !! a)
  | None => []
  end.

(** The fragments that a piece of log contributes to a block name. *)
Definition contributed (name : string) (d : list Event) : list string :=
  omap (λ e, match e with
             | EContent n fragment =>
                 if bool_decide (n = name) then Some fragment else None
             | _ => None
             end) d.

(** The arrays held by [blocks] are allocated and not shared. *)
Definition wf_store (w : World) : Prop :=
  (∀ n a, Hbs.blocks (w_hbs w) !! n = Some a → (a < w_next w)%nat)
  ∧ (∀ n1 n2 a, Hbs.blocks (w_hbs w) !! n1 = Some a →
                Hbs.blocks (w_hbs w) !! n2 = Some a → n1 = n2).

(** What a piece of execution from [w] to [w'] with log [d] does to the
    block store: arrays are only replaced by new ones, a name that is not
    retrieved keeps its array, and that array grows by the contributions. *)
Definition store_step (w w' : World) (d : list Event) : Prop :=
  w_log w' = (w_log w ++ d)%list
  ∧ wf_store w'
  ∧ (w_next w ≤ w_next w')%nat
  ∧ (∀ n a, Hbs.blocks (w_hbs w') !! n = Some a →
            Hbs.blocks (w_hbs w) !! n = Some a ∨ (w_next w ≤ a)%nat)
  ∧ (∀ n a, EBlock n ∉ d → Hbs.blocks (w_hbs w) !! n = Some a →
            Hbs.blocks (w_hbs w') !! n = Some a)
  ∧ (∀ n, EBlock n ∉ d → frags w' n = (frags w n ++ contributed n d)%list).

(** An invariant of the world kept by an action started at [w]. *)
Definition pres_at {A} (I : World → Prop) (m : M A) (w : World) : Prop :=
  I w → I (m w).2.

Definition pres {A} (I : World → Prop) (m : M A) : Prop :=
  ∀ w, pres_at I m w.

(** A call of [render], and a sequence of calls on one instance. *)
Record Call : Type := {
  call_fs : FileSystem;
  call_this : Ctx;
  call_tpl : string;
  call_locals : option Obj;
}.

Section Calls.
Context `{!Platform} `{!Engine}.

Fixpoint renders (calls : list Call) (w : World) : World :=
  match calls with
  | [] => w
  | c :: calls =>
      renders calls
        (render (call_fs c) (call_this c) (call_tpl c) (call_locals c) w).2
  end.

End Calls.

(** Kinds of events. *)
Definition is_stat (e : Event) : Prop :=
  match e with EStat _ => True | _ => False end.

Definition is_partials_event (e : Event) : Prop :=
  match e with
  | EGlob _ _ | EReadFile _ | ERegisterPartial _ _ | EConsoleError _ => True
  | _ => False
  end.

Definition is_load_event (e : Event) : Prop :=
  match e with
  | EReadFile _ | ECompile _ | EConsoleError _ => True
  | _ => False
  end.

Definition is_helper_event (e : Event) : Prop :=
  match e with EBlock _ | EContent _ _ => True | _ => False end.

(** The calls of the engine into a compiled template and the helper calls
    it makes: the events of a render that touch neither the file system nor
    the compiler. *)
Definition is_template_event (e : Event) : Prop :=
  match e with
  | ETemplate _ | ELayout _ | EBlock _ | EContent _ _ => True
  | _ => False
  end.

(** From [w0] to [w]: the instance changed as [F] allows and the log grew
    by events of the kind [P]. *)
Definition evolves (F : Hbs.t → Hbs.t → Prop) (P : Event → Prop)
    (w0 w : World) : Prop :=
  F (w_hbs w0) (w_hbs w)
  ∧ ∃ d, w_log w = (w_log w0 ++ d)%list ∧ Forall P d.

(** [evolves], and the arrays did not change. *)
Definition frame (F : Hbs.t → Hbs.t → Prop) (P : Event → Prop)
    (w0 w : World) : Prop :=
  evolves F P w0 w
  ∧ w_arrays w = w_arrays w0
  ∧ w_next w = w_next w0.

(** Only the named fields of the instance changed. *)
Definition only_pathCache (h0 h : Hbs.t) : Prop :=
  h = Hbs.set_pathCache (Hbs.pathCache h) h0.

Definition only_partials (h0 h : Hbs.t) : Prop :=
  h = Hbs.set_partialsPath (Hbs.partialsPath h)
        (Hbs.set_partials (Hbs.partials h)
           (Hbs.set_partialsRegistered (Hbs.partialsRegistered h) h0)).

Definition only_layoutTemplate (h0 h : Hbs.t) : Prop :=
  h = Hbs.set_layoutTemplate (Hbs.layoutTemplate h) h0.

Definition only_cache (h0 h : Hbs.t) : Prop :=
  h = Hbs.set_cache (Hbs.cache h) h0.

Definition only_templateOptions (h0 h : Hbs.t) : Prop :=
  h = Hbs.set_templateOptions (Hbs.templateOptions h) h0.

Definition only_blocks (h0 h : Hbs.t) : Prop :=
  h = Hbs.set_blocks (Hbs.blocks h) h0.

(** An action that does not throw. *)
Definition returns {A} (m : M A) : Prop := ∀ w, ∃ a, (m w).1 = Ok a.

(** An action that throws nothing but errors of a kind. *)
Definition throws_only {A} (P : Error → Prop) (m : M A) : Prop :=
  ∀ w e w', m w = (Throw e, w') → P e.

(** The payload of a missing-template error is a falsy value: [undefined] or
    the empty string. *)
Definition payload_empty (e : Error) : Prop :=
  match e with
  | MissingTemplateError _ extra => extra = JUndefined ∨ extra = JStr ""
  | _ => True
  end.

(** A piece of execution of a compiled template: [store_step], nothing of
    the instance but [blocks] changes, and the log grows by helper calls. *)
Definition run_step (w w' : World) (d : list Event) : Prop :=
  store_step w w' d
  ∧ only_blocks (w_hbs w) (w_hbs w')
  ∧ Forall is_helper_event d.

(** The roots that [registerPartials] scans. *)
Definition partial_roots (p : PathSpec) : list string :=
  match p with PArray a => a | PString s => [s] end.

Section PartialCalls.
Context `{!Platform}.

(** The call of [registerPartial] for each discovered file. *)
Definition partial_calls (src : string → string) (ext : string)
    (roots : list string) (resultList : list (list string))
  : list (string * string) :=
  zip (partial_names ext resultList)
      (map src (partial_files roots resultList)).

End PartialCalls.

(** The steps of [render], named. *)
Section Steps.
Context `{!Platform} `{!Engine}.

(** Lines 113-117: the path of the template. *)
Definition render_path (fs : FileSystem) (tpl : string) : M (option string) :=
  let* tplPath := getTemplatePath fs tpl in
  let* hbs := get_hbs in
  ret (if path_isAbsolute tpl then Some (tpl +:+ Hbs.extname hbs)
       else tplPath).

(** Lines 123-124: the data of the render. *)
Definition merged_locals (h : Hbs.t) (this : Ctx) (locals : option Obj) : Obj :=
  merge (Hbs.locals h) (merge (default ∅ (ctx_state this)) (default ∅ locals)).

(** Lines 126-128: the partials. *)
Definition render_partials (fs : FileSystem) : M unit :=
  let* hbs := get_hbs in
  if Hbs.disableCache hbs
     || negb (Hbs.partialsRegistered hbs)
        && match Hbs.partialsPath hbs with
           | PString s => truthy s
           | PArray _ => true
           end
  then registerPartials fs else ret tt.

(** Lines 130-145: the template and its layout into [cache]. *)
Definition render_load (fs : FileSystem) (tpl tplPath : string)
    (locals : Obj) : M unit :=
  let* hbs := get_hbs in
  if Hbs.disableCache hbs || negb (bool_decide (is_Some (Hbs.cache hbs !! tpl)))
  then
    let* rawTemplate := read fs tplPath in
    let* template := handlebars_compile rawTemplate in
    let* _ :=
      update_hbs (λ h,
        Hbs.set_cache (<[tpl := {| Entry.template := template;
                                   Entry.layoutTemplate := None |}]>
                         (Hbs.cache h)) h) in
    if negb (bool_decide (js_get locals "layout" = JUndefined))
       || rLayoutPattern_test rawTemplate
    then
      let layout := js_get locals "layout" in
      let layout :=
        if bool_decide (layout = JUndefined)
        then from_option JStr JUndefined (rLayoutPattern_exec rawTemplate)
        else layout in
      let* layoutTemplate :=
        if negb (bool_decide (layout = JBool false)) then
          let* rawLayout := loadLayoutFile fs layout in
          handlebars_compile rawLayout
        else handlebars_compile "{{{body}}}" in
      update_hbs (λ h,
        Hbs.set_cache (<[tpl := {| Entry.template := template;
                                   Entry.layoutTemplate :=
                                     Some layoutTemplate |}]>
                         (Hbs.cache h)) h)
    else ret tt
  else ret tt.

(** Lines 147-158: the two calls of the engine. *)
Definition render_finish (fs : FileSystem) (this : Ctx) (tpl : string)
    (locals : Obj) : M Ctx :=
  let* hbs := get_hbs in
  match Hbs.cache hbs !! tpl with
  | None => throw (TypeError "hbs.cache[tpl] is undefined")
  | Some entry =>
      let template := Entry.template entry in
      let* layoutTemplate :=
        match Entry.layoutTemplate entry with
        | Some t => ret (Some t)
        | None => getLayoutTemplate fs
        end in
      let* _ :=
        update_hbs (λ h,
          Hbs.set_templateOptions
            {| to_data :=
                 Some (merge (default ∅ (to_data (Hbs.templateOptions h)))
                             {[ "koa" := DKoa this ]});
               to_rest := to_rest (Hbs.templateOptions h) |} h) in
      let* hbs := get_hbs in
      let* _ := emit (ETemplate locals) in
      let* body :=
        run (template (Hbs.partials hbs) locals (Hbs.templateOptions hbs)) in
      let locals := <["body" := JStr body]> locals in
      match layoutTemplate with
      | None => throw (TypeError "layoutTemplate is not a function")
      | Some layoutTemplate =>
          let* _ := emit (ELayout locals) in
          let* out :=
            run (layoutTemplate (Hbs.partials hbs) locals
                                (Hbs.templateOptions hbs)) in
          ret {| ctx_state := ctx_state this; ctx_body := Some out |}
      end
  end.

End Steps.

(** The two calls of the engine into the templates of a render. *)
Definition is_engine_call (e : Event) : Prop :=
  match e with ETemplate _ | ELayout _ => True | _ => False end.

(** A call of the body template is a call with the data [merged]. *)
Definition body_data (merged : Obj) (e : Event) : Prop :=
  match e with
  | ETemplate x => x = merged
  | _ => True
  end.

Definition same_locals (h0 h : Hbs.t) : Prop := Hbs.locals h = Hbs.locals h0.


(** Lines 154-155: [templateOptions] with the Koa context. *)
Definition koa_options (this : Ctx) (h : Hbs.t) : TemplateOptions :=
  {| to_data :=
       Some (merge (default ∅ (to_data (Hbs.templateOptions h)))
                   {[ "koa" := DKoa this ]});
     to_rest := to_rest (Hbs.templateOptions h) |}.

Definition with_koa (this : Ctx) (w : World) : World :=
  {| w_hbs := Hbs.set_templateOptions (koa_options this (w_hbs w)) (w_hbs w);
     w_arrays := w_arrays w; w_next := w_next w; w_log := w_log w |}.

Section Layouts.
Context `{!Platform} `{!Engine}.

(** The file of a layout, as [getLayoutPath] computes it; [None] when
    there is neither a layouts path nor a view path. *)
Definition layout_path (h : Hbs.t) (layout : JValue) : option string :=
  if truthy (Hbs.layoutsPath h) then
    Some (path_join (Hbs.layoutsPath h)
                    (js_toString layout +:+ Hbs.extname h))
  else
    match Hbs.viewPath h with
    | root :: _ =>
        Some (path_join root (js_toString layout +:+ Hbs.extname h))
    | [] => None
    end.

(** The layout of a template, in the words of the specification: the
    [layout] of the data when the data has one, else the name that the
    directive of the source declares, else none. *)
Definition chosen_layout (locals : Obj) (raw : string) : option JValue :=
  match js_get locals "layout" with
  | JUndefined => JStr <$> rLayoutPattern_exec raw
  | explicit => Some explicit
  end.

(** The entry of [cache] for a template source and a layout source. *)
Definition entry_of (raw : string) (layout : option string) : Entry.t :=
  {| Entry.template := compile raw;
     Entry.layoutTemplate := compile <$> layout |}.

(** The world after the template [raw], read from [p], went into the
    cache under [tpl] without a layout. *)
Definition loaded (tpl p raw : string) (w : World) : World :=
  {| w_hbs := Hbs.set_cache (<[tpl := entry_of raw None]> (Hbs.cache (w_hbs w)))
                            (w_hbs w);
     w_arrays := w_arrays w; w_next := w_next w;
     w_log := ((w_log w ++ [EReadFile p]) ++ [ECompile raw])%list |}.

(** The world after the layout source [layout] went into that entry. *)
Definition store_layout (tpl raw layout : string) (w : World) : World :=
  {| w_hbs :=
       Hbs.set_cache (<[tpl := entry_of raw (Some layout)]> (Hbs.cache (w_hbs w)))
                     (w_hbs w);
     w_arrays := w_arrays w; w_next := w_next w; w_log := w_log w |}.

End Layouts.

Section LayoutSource.
Context `{!Platform} `{!Engine}.

(** The source of the layout template for a value of [layout]: the
    passthrough for [false], else the content of the layout's file. *)
Definition layout_source (fs : FileSystem) (h : Hbs.t) (layout : JValue)
  : Result string :=
  if bool_decide (layout = JBool false) then Ok "{{{body}}}"
  else
    match layout_path h layout with
    | None => Throw (TypeError "path.join: the path is undefined")
    | Some file =>
        match readFile fs file with
        | None => Throw (FsError file)
        | Some rawLayout => Ok rawLayout
        end
    end.

End LayoutSource.

Section Cached.
Context `{!Platform} `{!Engine}.

(** With caching enabled, the name [tpl] has its path, its compiled
    template and a layout to render with in the caches of the instance. *)
Definition cached (tpl : string) (w : World) : Prop :=
  Hbs.disableCache (w_hbs w) = false
  ∧ (∃ pc p, Hbs.pathCache (w_hbs w) = Some pc ∧ pc !! tpl = Some p
             ∧ truthy p = true)
  ∧ (path_isAbsolute tpl = true →
     truthy (tpl +:+ Hbs.extname (w_hbs w)) = true)
  ∧ ∃ entry, Hbs.cache (w_hbs w) !! tpl = Some entry
             ∧ (is_Some (Entry.layoutTemplate entry)
                ∨ is_Some (Hbs.layoutTemplate (w_hbs w))).

(** The fields of the instance that [cached] reads. *)
Definition same_caches (h h' : Hbs.t) : Prop :=
  Hbs.disableCache h' = Hbs.disableCache h
  ∧ Hbs.pathCache h' = Hbs.pathCache h
  ∧ Hbs.extname h' = Hbs.extname h
  ∧ Hbs.cache h' = Hbs.cache h
  ∧ Hbs.layoutTemplate h' = Hbs.layoutTemplate h.

End Cached.

(** [render_finish] leaves the cache and the configuration alone. *)
Definition finish_keeps (h0 h : Hbs.t) : Prop :=
  Hbs.cache h = Hbs.cache h0 ∧ Hbs.pathCache h = Hbs.pathCache h0
  ∧ Hbs.disableCache h = Hbs.disableCache h0
  ∧ Hbs.extname h = Hbs.extname h0
  ∧ Hbs.partialsRegistered h = Hbs.partialsRegistered h0.

(** The instance and the log after the path and the partials. *)
Definition prepared (w w2 : World) : Prop :=
  w_hbs w2
  = Hbs.set_partialsPath (Hbs.partialsPath (w_hbs w2))
      (Hbs.set_partials (Hbs.partials (w_hbs w2))
         (Hbs.set_partialsRegistered (Hbs.partialsRegistered (w_hbs w2))
            (Hbs.set_pathCache (Hbs.pathCache (w_hbs w2)) (w_hbs w))))
  ∧ w_arrays w2 = w_arrays w
  ∧ w_next w2 = w_next w
  ∧ ∃ d, w_log w2 = (w_log w ++ d)%list
         ∧ Forall (λ e, is_stat e ∨ is_partials_event e) d.


(** ** Scenarios on the sample installation *)

Section Scenarios.
#[local] Existing Instances sample_platform sample_engine.

Definition layout_false : Obj := {[ "layout" := JBool false ]}.

(** The instance after a first render of [home], whose directive names the
    layout [main]. *)
Definition after_home : World :=
  (render sample_fs empty_ctx "home" None (start sample_options)).2.

Definition call_of (tpl : string) (locals : option Obj) : Call :=
  {| call_fs := sample_fs; call_this := empty_ctx; call_tpl := tpl;
     call_locals := locals |}.

Definition options_absent_default : Options :=
  {| opt_viewPath := Some (PString "/views"); opt_templateOptions := None;
     opt_extname := None; opt_partialsPath := None;
     opt_contentHelperName := None; opt_blockHelperName := None;
     opt_defaultLayout := Some "absent"; opt_layoutsPath := None;
     opt_locals := None; opt_disableCache := None |}.

Definition two_fragments : Prog :=
  CallContent "sidebar" (Done "a") (CallContent "sidebar" (Done "b") (Done "")).

Definition options_partials : Options :=
  {| opt_viewPath := Some (PString "/views"); opt_templateOptions := None;
     opt_extname := None; opt_partialsPath := Some (PString "/partials");
     opt_contentHelperName := None; opt_blockHelperName := None;
     opt_defaultLayout := None; opt_layoutsPath := None;
     opt_locals := None; opt_disableCache := None |}.

End Scenarios.
(** ** More vocabulary *)

(** The instance of a world replaced. *)
Definition set_hbs (h : Hbs.t) (w : World) : World :=
  {| w_hbs := h; w_arrays := w_arrays w; w_next := w_next w;
     w_log := w_log w |}.

(** The options give a view path, and [roots] is the list it stands for:
    a non-empty string is one root, an array is its elements. *)
Definition viewPath_given (options : option Options) (roots : list string)
  : Prop :=
  ∃ o, options = Some o
       ∧ match opt_viewPath o with
         | Some (PString s) => s ≠ "" ∧ roots = [s]
         | Some (PArray a) => roots = a
         | None => False
         end.

Section Paths.
Context `{!Platform}.

(** The file of the template [tpl] under a view root. *)
Definition template_file (h : Hbs.t) (tpl root : string) : string :=
  path_join root (tpl +:+ Hbs.extname h).

(** The calls of [fs.statSync] for [tpl] under each of [roots], in order. *)
Definition stats (h : Hbs.t) (tpl : string) (roots : list string)
  : list Event :=
  map (λ root, EStat (template_file h tpl root)) roots.

End Paths.

Section Pass.
Context `{!Platform} `{!Engine}.

(** Lines 211-237 of [registerPartials]: the pass over the roots, for the
    instance [h] read after the path was made an array. *)
Definition partials_pass (fs : FileSystem) (h : Hbs.t) (roots : list string)
  : M unit :=
  try_catch
    (let* resultList :=
       promise_all
         (map (λ root, js_glob fs ("**/*" +:+ Hbs.extname h) root) roots) in
     if bool_decide (length resultList = 0) then ret tt
     else
       let files := partial_files roots resultList in
       let names := partial_names (Hbs.extname h) resultList in
       let* sources := promise_all (map (read fs) files) in
       let* _ :=
         for_each (λ '(name, partial), registerPartial name partial)
                  (zip names sources) in
       update_hbs (Hbs.set_partialsRegistered true))
    (λ e,
       let* _ :=
         console_error (LString "Error caught while registering partials") in
       console_error (LError e)).

End Pass.

(** Kinds of events, continued. *)
Definition is_console_error (e : Event) : Prop :=
  match e with EConsoleError _ => True | _ => False end.

Definition is_registration (e : Event) : Prop :=
  match e with ERegisterPartial _ _ => True | _ => False end.

(** The two lines that [registerPartials] writes on the console for the
    error [e]. *)
Definition partials_report (e : Error) : list Event :=
  [EConsoleError (LString "Error caught while registering partials");
   EConsoleError (LError e)].

(** The configuration of an instance: what [configure] sets from the
    options and no other function assigns. *)
Definition same_config (h0 h : Hbs.t) : Prop :=
  Hbs.viewPath h = Hbs.viewPath h0
  ∧ Hbs.extname h = Hbs.extname h0
  ∧ Hbs.contentHelperName h = Hbs.contentHelperName h0
  ∧ Hbs.blockHelperName h = Hbs.blockHelperName h0
  ∧ Hbs.defaultLayout h = Hbs.defaultLayout h0
  ∧ Hbs.layoutsPath h = Hbs.layoutsPath h0
  ∧ Hbs.locals h = Hbs.locals h0
  ∧ Hbs.disableCache h = Hbs.disableCache h0.

(** The entry of a name in the template cache, with caching enabled. *)
Definition entry_kept (tpl : string) (entry : Entry.t) (w : World) : Prop :=
  Hbs.disableCache (w_hbs w) = false
  ∧ Hbs.cache (w_hbs w) !! tpl = Some entry.

(** The path of a name in the path cache. *)
Definition path_kept (tpl p : string) (w : World) : Prop :=
  default ∅ (Hbs.pathCache (w_hbs w)) !! tpl = Some p ∧ truthy p = true.

(** With caching enabled the partials are registered, and they are those
    of [h0]. *)
Definition partials_settled (h0 h : Hbs.t) : Prop :=
  Hbs.disableCache h = false
  ∧ Hbs.partialsRegistered h = true
  ∧ Hbs.partials h = Hbs.partials h0.

(** The listing of a directory of partials and the registration of one. *)
Definition is_listing (e : Event) : Prop :=
  match e with EGlob _ _ | ERegisterPartial _ _ => True | _ => False end.

(** The missing-template error as line 120 makes it: the fixed message and
    a falsy payload. *)
Definition missing_as_thrown (e : Error) : Prop :=
  match e with
  | MissingTemplateError message extra =>
      message = "The template specified does not exist."
      ∧ (extra = JUndefined ∨ extra = JStr "")
  | _ => True
  end.

Section DefaultLayout.
Context `{!Platform} `{!Engine}.

(** The source of the default layout of an instance: the pass-through when
    no default layout is configured, else the content of its file; [None]
    when that file cannot be located or read. *)
Definition default_layout_source (fs : FileSystem) (h : Hbs.t)
  : option string :=
  if truthy (Hbs.defaultLayout h) then
    match layout_path h (JStr (Hbs.defaultLayout h)) with
    | Some file => readFile fs file
    | None => None
    end
  else Some "{{{body}}}".

End DefaultLayout.

(** ** More scenarios on the sample installation *)

Section MoreScenarios.
#[local] Existing Instances sample_platform sample_engine.

(** A file system on which nothing exists and no directory can be listed. *)
Definition fs_empty : FileSystem :=
  {| statSync _ := false; readFile _ := None; glob _ _ := None |}.

(** The sample directory with a second directory of partials that has a
    file of the same relative path as the first. *)
Definition fs_shadow : FileSystem :=
  {| statSync := statSync sample_fs;
     readFile p :=
       if bool_decide (p = "/partials2/nav/item.hbs") then Some "<li>new</li>"
       else readFile sample_fs p;
     glob _ cwd :=
       if bool_decide (cwd = "/partials") || bool_decide (cwd = "/partials2")
       then Some ["nav/item.hbs"] else Some [] |}.

Definition options_with (viewPath partialsPath : PathSpec)
    (defaultLayout : string) (disableCache : bool) : Options :=
  {| opt_viewPath := Some viewPath; opt_templateOptions := None;
     opt_extname := None; opt_partialsPath := Some partialsPath;
     opt_contentHelperName := None; opt_blockHelperName := None;
     opt_defaultLayout := Some defaultLayout; opt_layoutsPath := None;
     opt_locals := None; opt_disableCache := Some disableCache |}.

(** A second [configure] of the instance that rendered [home], with a view
    path where nothing is. *)
Definition options_elsewhere : Options :=
  options_with (PString "/elsewhere") (PArray []) "" false.

Definition reconfigured : World :=
  (hbs_configure (Some options_elsewhere) after_home).2.

(** A second [configure] of an instance that rendered [plain] without a
    default layout, now with the default layout [main]. *)
Definition after_plain : World :=
  (render sample_fs empty_ctx "plain" None (start sample_options)).2.

Definition options_main_default : Options :=
  options_with (PString "/views") (PArray []) "main" false.

Definition relaid : World :=
  (hbs_configure (Some options_main_default) after_plain).2.

Definition options_two_roots : Options :=
  options_with (PArray ["/other"; "/views"]) (PArray []) "" false.

Definition options_two_partials : Options :=
  options_with (PString "/views") (PArray ["/partials"; "/partials2"]) ""
               false.

Definition options_uncached : Options :=
  options_with (PString "/views") (PArray []) "" true.

(** A block that already holds the fragment [a]. *)
Definition one_fragment : World :=
  (run (CallContent "sidebar" (Done "a") (Done "")) (start sample_options)).2.

Definition wrap (val : string) : string := "<b>" +:+ val +:+ "</b>".

Definition layout_missing : Obj := {[ "layout" := JStr "missing" ]}.


(** The instance after a pass that registered the sample partial. *)
Definition registered : World :=
  (registerPartials sample_fs (start options_partials)).2.

Definition options_uncached_partials : Options :=
  options_with (PString "/views") (PString "/partials") "" true.

End MoreScenarios.

(** * Properties *)

(** ** [merge] *)

Section Merge.
Context {V : Type} `{!IsNull V}.
Implicit Types (l : list (string * V)).

Lemma foldl_assign_lookup l (c : gmap string V) k :
  NoDup l.*1 →
  foldl (λ c kv, <[kv.1 := kv.2]> c) c l !! k
  = match (list_to_map l : gmap string V) !! k with
    | Some v => Some v
    | None => c !! k
    end.
Proof.
  revert c. induction l as [|[k0 v0] l IH]; intros c Hnd; simpl.
  - by rewrite lookup_empty.
  - apply NoDup_cons in Hnd as [Hk0 Hnd]. rewrite IH by done.
    destruct (decide (k = k0)) as [->|Hne].
    + rewrite (not_elem_of_list_to_map_1 _ k0) by done.
      by rewrite !lookup_insert_eq.
    + by rewrite !lookup_insert_ne.
Qed.

Lemma js_assign_other c k0 (v0 : V) k :
  k ≠ "__proto__" →
  own_keys (js_assign c k0 v0) !! k
  = if bool_decide (k = k0) then Some v0 else own_keys c !! k.
Proof.
  intros Hk. unfold js_assign.
  destruct (decide (k = k0)) as [<-|Hne].
  - rewrite (bool_decide_eq_false_2 (k = "__proto__")) by done. simpl.
    by rewrite lookup_insert_eq, bool_decide_eq_true_2.
  - rewrite (bool_decide_eq_false_2 (k = k0)) by done.
    destruct (_ && _); simpl; [done|]. by rewrite lookup_insert_ne.
Qed.

Lemma js_assign_proto c k0 (v0 : V) :
  own_keys (js_assign c k0 v0) !! "__proto__"
  = if bool_decide (k0 = "__proto__") && negb (inherits c) then Some v0
    else own_keys c !! "__proto__".
Proof.
  unfold js_assign. case_bool_decide as Hk0; simpl.
  - subst. destruct (inherits c); simpl; [done|]. by rewrite lookup_insert_eq.
  - by rewrite lookup_insert_ne.
Qed.

Lemma js_assign_inherits c k0 (v0 : V) :
  inherits (js_assign c k0 v0)
  = inherits c && (negb (bool_decide (k0 = "__proto__")) || negb (is_null v0)).
Proof.
  unfold js_assign.
  by destruct (bool_decide (k0 = "__proto__")), (inherits c).
Qed.

Lemma assign_loop l c :
  NoDup l.*1 →
  let c' := foldl (λ c kv, js_assign c kv.1 kv.2) c l in
  (∀ k, k ≠ "__proto__" →
        own_keys c' !! k = match (list_to_map l : gmap string V) !! k with
                      | Some v => Some v
                      | None => own_keys c !! k
                      end)
  ∧ own_keys c' !! "__proto__"
    = (if inherits c then own_keys c !! "__proto__"
       else match (list_to_map l : gmap string V) !! "__proto__" with
            | Some v => Some v
            | None => own_keys c !! "__proto__"
            end)
  ∧ inherits c' = inherits c && negb (null_at (list_to_map l) "__proto__").
Proof.
  revert c. induction l as [|[k0 v0] l IH]; intros c Hnd.
  - simpl. split_and!.
    + intros k _. by rewrite lookup_empty.
    + rewrite lookup_empty. by destruct (inherits c).
    + unfold null_at. rewrite lookup_empty. by rewrite andb_true_r.
  - apply NoDup_cons in Hnd as [Hk0 Hnd].
    change (foldl ?f c ((k0, v0) :: l)) with (foldl f (f c (k0, v0)) l).
    cbn [fst snd].
    change (list_to_map ((k0, v0) :: l) : gmap string V)
      with (<[k0 := v0]> (list_to_map l : gmap string V)).
    destruct (IH (js_assign c k0 v0) Hnd) as (Hother & Hproto & Hinh).
    assert ((list_to_map l : gmap string V) !! k0 = None) as Hfresh
      by (by apply not_elem_of_list_to_map_1).
    split_and!.
    + intros k Hk. rewrite (Hother k Hk), js_assign_other by done.
      case_bool_decide as Heq.
      * subst. by rewrite Hfresh, lookup_insert_eq.
      * by rewrite lookup_insert_ne.
    + rewrite Hproto, js_assign_inherits, js_assign_proto.
      destruct (decide (k0 = "__proto__")) as [->|Hne].
      * rewrite bool_decide_eq_true_2 by done. rewrite Hfresh.
        rewrite lookup_insert_eq. simpl.
        destruct (inherits c); simpl; [|done]. by destruct (negb (is_null v0)).
      * rewrite bool_decide_eq_false_2 by done. simpl.
        rewrite andb_true_r, lookup_insert_ne by done. done.
    + rewrite Hinh, js_assign_inherits. unfold null_at.
      destruct (decide (k0 = "__proto__")) as [->|Hne].
      * rewrite bool_decide_eq_true_2 by done. rewrite Hfresh.
        rewrite lookup_insert_eq. simpl. by rewrite andb_true_r.
      * rewrite bool_decide_eq_false_2 by done. simpl.
        by rewrite andb_true_r, lookup_insert_ne.
Qed.

Lemma fill_loop l c :
  NoDup l.*1 →
  let c' := foldl (λ c kv, match own_keys c !! kv.1 with
                           | Some _ => c
                           | None => js_assign c kv.1 kv.2
                           end) c l in
  (∀ k, k ≠ "__proto__" →
        own_keys c' !! k = match own_keys c !! k with
                      | Some v => Some v
                      | None => (list_to_map l : gmap string V) !! k
                      end)
  ∧ own_keys c' !! "__proto__"
    = match own_keys c !! "__proto__" with
      | Some v => Some v
      | None => if inherits c then None
                else (list_to_map l : gmap string V) !! "__proto__"
      end.
Proof.
  revert c. induction l as [|[k0 v0] l IH]; intros c Hnd.
  - simpl. split.
    + intros k _. rewrite lookup_empty. by destruct (own_keys c !! k).
    + rewrite lookup_empty. destruct (own_keys c !! _); [done|].
      by destruct (inherits c).
  - apply NoDup_cons in Hnd as [Hk0 Hnd].
    change (foldl ?f c ((k0, v0) :: l)) with (foldl f (f c (k0, v0)) l).
    cbn [fst snd].
    change (list_to_map ((k0, v0) :: l) : gmap string V)
      with (<[k0 := v0]> (list_to_map l : gmap string V)).
    assert ((list_to_map l : gmap string V) !! k0 = None) as Hfresh
      by (by apply not_elem_of_list_to_map_1).
    destruct (own_keys c !! k0) eqn:Hc.
    + destruct (IH c Hnd) as (Hother & Hproto). split.
      * intros k Hk. rewrite (Hother k Hk).
        destruct (decide (k = k0)) as [->|Hne]; [by rewrite Hc|].
        by rewrite lookup_insert_ne.
      * rewrite Hproto.
        destruct (decide (k0 = "__proto__")) as [->|Hne]; [by rewrite Hc|].
        by rewrite lookup_insert_ne.
    + destruct (IH (js_assign c k0 v0) Hnd) as (Hother & Hproto). split.
      * intros k Hk. rewrite (Hother k Hk), js_assign_other by done.
        case_bool_decide as Heq.
        -- subst. by rewrite Hc, lookup_insert_eq.
        -- by rewrite lookup_insert_ne.
      * rewrite Hproto, js_assign_proto, js_assign_inherits.
        destruct (decide (k0 = "__proto__")) as [->|Hne].
        -- rewrite bool_decide_eq_true_2 by done. rewrite Hc, Hfresh.
           rewrite lookup_insert_eq. simpl.
           destruct (inherits c); simpl; [|done].
           by destruct (negb (is_null v0)).
        -- rewrite bool_decide_eq_false_2 by done. simpl.
           rewrite andb_true_r, lookup_insert_ne by done. done.
Qed.

(** The two loops of [merge] build the union that prefers [obj2]; the key
    [__proto__] is an own key of the result in one case only, when [obj2]
    holds [null] under it, and then with the value of [obj1]. *)
Lemma merge_lookup (obj1 obj2 : gmap string V) k :
  merge obj1 obj2 !! k
  = if bool_decide (k = "__proto__")
    then (if null_at obj2 k then obj1 !! k else None)
    else match obj2 !! k with Some v => Some v | None => obj1 !! k end.
Proof.
  unfold merge.
  destruct (assign_loop (map_to_list obj2) {| own_keys := ∅; inherits := true |})
    as (Hother1 & Hproto1 & Hinh1); [apply NoDup_fst_map_to_list|].
  destruct (fill_loop (map_to_list obj1)
              (foldl (λ c kv, js_assign c kv.1 kv.2)
                     {| own_keys := ∅; inherits := true |} (map_to_list obj2)))
    as (Hother2 & Hproto2); [apply NoDup_fst_map_to_list|].
  cbv zeta in *. rewrite !list_to_map_to_list in *. simpl in *.
  case_bool_decide as Hk.
  - subst k. rewrite Hproto2, Hproto1, Hinh1, lookup_empty.
    by destruct (null_at obj2 "__proto__").
  - rewrite (Hother2 k Hk), (Hother1 k Hk), lookup_empty.
    by destruct (obj2 !! k).
Qed.

Lemma merge_lookup_ne (obj1 obj2 : gmap string V) k :
  k ≠ "__proto__" →
  merge obj1 obj2 !! k
  = match obj2 !! k with Some v => Some v | None => obj1 !! k end.
Proof. intros Hk. by rewrite merge_lookup, bool_decide_eq_false_2. Qed.

(** On objects without the own key [__proto__], [merge] is the union. *)
Lemma merge_union (obj1 obj2 : gmap string V) :
  obj1 !! "__proto__" = None → obj2 !! "__proto__" = None →
  merge obj1 obj2 = obj2 ∪ obj1.
Proof.
  intros H1 H2. apply map_eq; intros k. rewrite merge_lookup, lookup_union.
  case_bool_decide as Hk.
  - subst. unfold null_at. by rewrite H1, H2.
  - by destruct (obj2 !! k), (obj1 !! k).
Qed.

Lemma null_at_merge (obj1 obj2 : gmap string V) :
  null_at (merge obj1 obj2) "__proto__"
  = null_at obj2 "__proto__" && null_at obj1 "__proto__".
Proof.
  unfold null_at at 1. rewrite merge_lookup, bool_decide_eq_true_2 by done.
  by destruct (null_at obj2 "__proto__").
Qed.

End Merge.

(** ** [rLayoutPattern] *)

Lemma space_not_layout_char c : is_space c = true → is_layout_char c = false.
Proof. destruct c as [[] [] [] [] [] [] [] []]; vm_compute; congruence. Qed.

Lemma layout_char_not_space c : is_layout_char c = true → is_space c = false.
Proof. destruct c as [[] [] [] [] [] [] [] []]; vm_compute; congruence. Qed.

(** [span] stops exactly where the run of [p] stops. *)
Lemma span_app p a b :
  string_forallb p a = true →
  match b with String c _ => p c = false | EmptyString => True end →
  span p (a +:+ b) = (a, b).
Proof.
  intros Ha Hb. induction a as [|c a IH]; simpl in *.
  - destruct b as [|c b]; [done|]. simpl. by rewrite Hb.
  - apply andb_true_iff in Ha as [Hc Ha]. rewrite Hc, IH by done. done.
Qed.

Lemma truthy_true s : truthy s = true ↔ s ≠ "".
Proof.
  unfold truthy. rewrite negb_true_iff, bool_decide_eq_false. done.
Qed.

Lemma truthy_false s : truthy s = false ↔ s = "".
Proof.
  unfold truthy. rewrite negb_false_iff, bool_decide_eq_true. done.
Qed.

Lemma rLayoutPattern_at_open r :
  rLayoutPattern_at ("{{!<" +:+ r)
  = let '(ws, r1) := span is_space r in
    if truthy ws then
      let '(name, r2) := span is_layout_char r1 in
      if truthy name then
        let '(_, r3) := span is_space r2 in
        match r3 with
        | String "}"%char (String "}"%char _) => Some name
        | _ => None
        end
      else None
    else None.
Proof. reflexivity. Qed.

(** A marker at the head of a string is matched, and its name captured. *)
Lemma rLayoutPattern_at_marker ws1 name ws2 post :
  ws1 ≠ "" → string_forallb is_space ws1 = true →
  name ≠ "" → string_forallb is_layout_char name = true →
  string_forallb is_space ws2 = true →
  rLayoutPattern_at ("{{!<" +:+ ws1 +:+ name +:+ ws2 +:+ "}}" +:+ post)
  = Some name.
Proof.
  intros Hws1 Hsp1 Hname Hchars Hsp2.
  rewrite rLayoutPattern_at_open.
  rewrite (span_app is_space ws1); [|done|].
  2:{ destruct name as [|c name]; [done|]. simpl in *.
      apply andb_true_iff in Hchars as [Hc _].
      by apply layout_char_not_space. }
  rewrite (proj2 (truthy_true ws1)) by done.
  rewrite (span_app is_layout_char name); [|done|].
  2:{ destruct ws2 as [|c ws2]; simpl in *; [done|].
      apply andb_true_iff in Hsp2 as [Hc _].
      by apply space_not_layout_char. }
  rewrite (proj2 (truthy_true name)) by done.
  by rewrite (span_app is_space ws2).
Qed.

Lemma rLayoutPattern_exec_unfold s :
  rLayoutPattern_exec s
  = match rLayoutPattern_at s with
    | Some name => Some name
    | None =>
        match s with
        | String _ r => rLayoutPattern_exec r
        | EmptyString => None
        end
    end.
Proof. by destruct s. Qed.

Lemma rLayoutPattern_exec_at s name :
  rLayoutPattern_at s = Some name → rLayoutPattern_exec s = Some name.
Proof. intros Hat. by rewrite rLayoutPattern_exec_unfold, Hat. Qed.

Lemma rLayoutPattern_at_not_brace c r :
  not_brace c = true → rLayoutPattern_at (String c r) = None.
Proof.
  destruct c as [[] [] [] [] [] [] [] []]; try reflexivity.
  vm_compute. congruence.
Qed.

(** Text without an opening brace is skipped by the search. *)
Lemma rLayoutPattern_exec_skip pre s :
  string_forallb not_brace pre = true →
  rLayoutPattern_exec (pre +:+ s) = rLayoutPattern_exec s.
Proof.
  induction pre as [|c pre IH]; [done|].
  intros Hall. simpl in Hall. apply andb_true_iff in Hall as [Hc Hpre].
  change (String c pre +:+ s) with (String c (pre +:+ s)).
  rewrite rLayoutPattern_exec_unfold.
  rewrite rLayoutPattern_at_not_brace by done. auto.
Qed.

Lemma span_spec p s a b :
  span p s = (a, b) → s = a +:+ b ∧ string_forallb p a = true.
Proof.
  revert a b. induction s as [|c r IH]; intros a b; simpl.
  - by intros [= <- <-].
  - destruct (p c) eqn:Hc; [|by intros [= <- <-]].
    destruct (span p r) as [a' b'] eqn:Hspan. intros [= <- <-].
    destruct (IH a' b' eq_refl) as [-> Hall]. simpl. by rewrite Hc.
Qed.

Ltac head_char H c :=
  destruct c as [[] [] [] [] [] [] [] []];
  try solve [vm_compute in H; discriminate H].

Lemma rLayoutPattern_at_head s name :
  rLayoutPattern_at s = Some name → ∃ r, s = "{{!<" +:+ r.
Proof.
  intros Hat.
  destruct s as [|c1 s]; [discriminate|]. head_char Hat c1.
  destruct s as [|c2 s]; [discriminate|]. head_char Hat c2.
  destruct s as [|c3 s]; [discriminate|]. head_char Hat c3.
  destruct s as [|c4 s]; [discriminate|]. head_char Hat c4.
  by exists s.
Qed.

(** A match at the head of a string is a marker. *)
Lemma rLayoutPattern_at_spec s name :
  rLayoutPattern_at s = Some name ↔ is_marker s name.
Proof.
  split.
  - intros Hat. destruct (rLayoutPattern_at_head s name Hat) as [r ->].
    rewrite rLayoutPattern_at_open in Hat.
    destruct (span is_space r) as [ws1 r1] eqn:H1.
    destruct (truthy ws1) eqn:Hws1; [|discriminate].
    destruct (span is_layout_char r1) as [name' r2] eqn:H2.
    destruct (truthy name') eqn:Hname; [|discriminate].
    destruct (span is_space r2) as [ws2 r3] eqn:H3.
    apply span_spec in H1 as [-> Hsp1]. apply span_spec in H2 as [-> Hchars].
    apply span_spec in H3 as [-> Hsp2].
    destruct r3 as [|c5 r3]; [discriminate|]. head_char Hat c5.
    destruct r3 as [|c6 post]; [discriminate|]. head_char Hat c6.
    injection Hat as ->.
    exists ws1, ws2, post. split_and!; try done; by apply truthy_true.
  - intros (ws1 & ws2 & post & -> & ? & ? & ? & ? & ?).
    by apply rLayoutPattern_at_marker.
Qed.

Lemma rLayoutPattern_exec_found s name :
  rLayoutPattern_exec s = Some name →
  ∃ pre rest, s = pre +:+ rest ∧ rLayoutPattern_at rest = Some name.
Proof.
  induction s as [|c s IH]; rewrite rLayoutPattern_exec_unfold.
  - destruct (rLayoutPattern_at "") eqn:Hat; [|discriminate].
    intros [= ->]. by exists "", "".
  - destruct (rLayoutPattern_at (String c s)) eqn:Hat.
    + intros [= ->]. by exists "", (String c s).
    + intros (pre & rest & -> & Hrest)%IH. by exists (String c pre), rest.
Qed.

Lemma rLayoutPattern_exec_later pre s name :
  rLayoutPattern_at s = Some name →
  is_Some (rLayoutPattern_exec (pre +:+ s)).
Proof.
  intros Hat. induction pre as [|c pre IH].
  - change ("" +:+ s) with s.
    rewrite rLayoutPattern_exec_unfold, Hat. by eexists.
  - change (String c pre +:+ s) with (String c (pre +:+ s)).
    rewrite rLayoutPattern_exec_unfold.
    destruct (rLayoutPattern_at (String c (pre +:+ s))); [by eexists|].
    exact IH.
Qed.

(** X3: the test succeeds exactly when a marker stands somewhere in the
    string: [{{!<], white space (at least one character), a name made of
    letters, digits, dots, underscores, dashes and slashes, optional white
    space, [}}]. *)
Lemma rLayoutPattern_test_spec src :
  rLayoutPattern_test src = true
  ↔ ∃ pre rest name, src = pre +:+ rest ∧ is_marker rest name.
Proof.
  unfold rLayoutPattern_test. split.
  - destruct (rLayoutPattern_exec src) as [name|] eqn:Hexec; [|discriminate].
    intros _. apply rLayoutPattern_exec_found in Hexec
      as (pre & rest & -> & Hat).
    exists pre, rest, name. split; [done|]. by apply rLayoutPattern_at_spec.
  - intros (pre & rest & name & -> & Hat%rLayoutPattern_at_spec).
    by destruct (rLayoutPattern_exec_later pre rest name Hat) as [n ->].
Qed.

Lemma rLayoutPattern_exec_spec src name :
  rLayoutPattern_exec src = Some name →
  ∃ pre rest, src = pre +:+ rest ∧ is_marker rest name.
Proof.
  intros (pre & rest & -> & Hat)%rLayoutPattern_exec_found.
  exists pre, rest. split; [done|]. by apply rLayoutPattern_at_spec.
Qed.

(** C7, as the code has it: the pattern has no anchor, so a marker
    [{{!< layoutName }}] is found wherever it stands in the source, on
    whatever line; when no opening brace stands before it, it is the
    leftmost match, and its name is the layout that is captured. *)
Theorem rLayoutPattern_unanchored pre ws1 name ws2 post :
  ws1 ≠ "" → string_forallb is_space ws1 = true →
  name ≠ "" → string_forallb is_layout_char name = true →
  string_forallb is_space ws2 = true →
  let src := pre +:+ "{{!<" +:+ ws1 +:+ name +:+ ws2 +:+ "}}" +:+ post in
  rLayoutPattern_test src = true
  ∧ (string_forallb not_brace pre = true →
     rLayoutPattern_exec src = Some name).
Proof.
  intros Hws1 Hsp1 Hname Hchars Hsp2 src.
  pose proof (rLayoutPattern_at_marker ws1 name ws2 post Hws1 Hsp1 Hname
                Hchars Hsp2) as Hat.
  split.
  - unfold rLayoutPattern_test, src.
    by destruct (rLayoutPattern_exec_later pre _ name Hat) as [first ->].
  - intros Hpre. unfold src. rewrite rLayoutPattern_exec_skip by done.
    by apply rLayoutPattern_exec_at.
Qed.

Lemma rLayoutPattern_unanchored_witness :
  let src := "<p>hi</p>" +:+ newline +:+ "{{!<" +:+ " " +:+ "main" +:+ ""
             +:+ "}}" +:+ "" in
  rLayoutPattern_test src = true ∧ rLayoutPattern_exec src = Some "main".
Proof.
  destruct (rLayoutPattern_unanchored ("<p>hi</p>" +:+ newline)
              " " "main" "" "")
    as [Htest Hexec]; try (reflexivity || discriminate).
  split; [exact Htest|]. apply Hexec. reflexivity.
Defined.

(** ** Invariants along the monad *)

Section Pres.
Context {I : World → Prop}.

Lemma pres_ret {A} (a : A) w : pres_at I (ret a) w.
Proof. by intros ?. Qed.

Lemma pres_throw {A} e w : pres_at I (@throw A e) w.
Proof. by intros ?. Qed.

Lemma pres_bind {A B} (m : M A) (k : A → M B) w :
  pres_at I m w →
  (∀ a w', m w = (Ok a, w') → pres_at I (k a) w') →
  pres_at I (bind m k) w.
Proof.
  unfold pres_at, bind. intros Hm Hk HI.
  destruct (m w) as [[a|e] w'] eqn:Hmw; simpl in *; [|by auto].
  apply (Hk a w' eq_refl). by apply Hm.
Qed.

Lemma pres_get {A} (k : Hbs.t → M A) w :
  pres_at I (k (w_hbs w)) w → pres_at I (bind get_hbs k) w.
Proof. done. Qed.

Lemma pres_try_catch {A} (m : M A) (handler : Error → M A) w :
  pres_at I m w →
  (∀ e w', m w = (Throw e, w') → pres_at I (handler e) w') →
  pres_at I (try_catch m handler) w.
Proof.
  unfold pres_at, try_catch. intros Hm Hh HI.
  destruct (m w) as [[a|e] w'] eqn:Hmw; simpl in *; [by auto|].
  apply (Hh e w' eq_refl). by apply Hm.
Qed.

Lemma pres_promise_all {A} (ps : list (M A)) w :
  (∀ p, p ∈ ps → pres I p) → pres_at I (promise_all ps) w.
Proof.
  revert w. induction ps as [|p ps IH]; intros w Hps HI; simpl; [done|].
  assert (I (p w).2) as HI1 by (apply Hps; [left|done]).
  assert (I (promise_all ps (p w).2).2) as HI2.
  { apply IH; [|done]. intros q Hq. apply Hps. by right. }
  destruct (p w) as [[a|e] w1]; simpl in *; [|done].
  by destruct (promise_all ps w1) as [[l|e] w2].
Qed.

Lemma pres_for_each {A} (body : A → M unit) l w :
  (∀ x, x ∈ l → pres I (body x)) → pres_at I (for_each body l) w.
Proof.
  revert w. induction l as [|x l IH]; intros w Hbody; simpl; [by intros ?|].
  apply pres_bind; [apply Hbody; left|].
  intros _ w' _. apply IH. intros y Hy. apply Hbody. by right.
Qed.

End Pres.

(** ** Frames *)

Section Frame.
Context (F : Hbs.t → Hbs.t → Prop) (P : Event → Prop) (w0 : World).

Lemma evolves_refl : F (w_hbs w0) (w_hbs w0) → evolves F P w0 w0.
Proof. intros HF. split; [done|]. exists []. by rewrite app_nil_r. Qed.

Lemma frame_refl : F (w_hbs w0) (w_hbs w0) → frame F P w0 w0.
Proof. intros HF. split; [by apply evolves_refl|done]. Qed.

Lemma evolves_emit e : P e → pres (evolves F P w0) (emit e).
Proof.
  intros HP w (HF & d & Hd & HPd). split; simpl; [done|].
  exists (d ++ [e])%list. rewrite Hd, app_assoc. split; [done|].
  apply Forall_app. split; [done|]. by constructor.
Qed.

Lemma frame_emit e : P e → pres (frame F P w0) (emit e).
Proof.
  intros HP w (Hev & Ha & Hn). split; [|done]. by apply evolves_emit.
Qed.

Lemma evolves_update f :
  (∀ h, F (w_hbs w0) h → F (w_hbs w0) (f h)) →
  pres (evolves F P w0) (update_hbs f).
Proof.
  intros Hf w (HF & d & Hd & HPd). split; simpl; auto. by exists d.
Qed.

Lemma frame_update f :
  (∀ h, F (w_hbs w0) h → F (w_hbs w0) (f h)) →
  pres (frame F P w0) (update_hbs f).
Proof.
  intros Hf w (Hev & Ha & Hn). split; [|done]. by apply evolves_update.
Qed.

End Frame.

(** A step that evolves by [F1] and [P1] keeps an invariant [evolves F P]
    that is closed under such steps. *)
Lemma evolves_step (F F1 : Hbs.t → Hbs.t → Prop) (P P1 : Event → Prop)
    w0 w w' :
  (∀ h h', F (w_hbs w0) h → F1 h h' → F (w_hbs w0) h') →
  (∀ e, P1 e → P e) →
  evolves F P w0 w → evolves F1 P1 w w' → evolves F P w0 w'.
Proof.
  intros HF HP (HF0 & d & Hd & HPd) (HF1 & d1 & Hd1 & HPd1).
  split; [by eapply HF|]. exists (d ++ d1)%list.
  rewrite Hd1, Hd, app_assoc. split; [done|].
  apply Forall_app. split; [done|]. eapply Forall_impl; [done|]. auto.
Qed.

(** ** Actions that return *)

Lemma returns_ret {A} (a : A) : returns (ret a).
Proof. intros w. by exists a. Qed.

Lemma returns_bind {A B} (m : M A) (k : A → M B) :
  returns m → (∀ a, returns (k a)) → returns (bind m k).
Proof.
  intros Hm Hk w. unfold bind. destruct (Hm w) as [a Ha].
  destruct (m w) as [r w']. simpl in Ha. subst r. apply Hk.
Qed.

Lemma returns_get {A} (k : Hbs.t → M A) :
  (∀ h, returns (k h)) → returns (bind get_hbs k).
Proof. intros Hk w. apply Hk. Qed.

Lemma returns_emit e : returns (emit e).
Proof. intros w. by exists tt. Qed.

Lemma returns_update f : returns (update_hbs f).
Proof. intros w. by exists tt. Qed.

Lemma returns_try_catch {A} (m : M A) handler :
  (∀ e, returns (handler e)) → returns (try_catch m handler).
Proof.
  intros Hh w. unfold try_catch. destruct (m w) as [[a|e] w'].
  - by exists a.
  - apply Hh.
Qed.

Lemma returns_for_each {A} (body : A → M unit) l :
  (∀ x, returns (body x)) → returns (for_each body l).
Proof.
  intros Hbody. induction l as [|x l IH]; simpl.
  - apply returns_ret.
  - apply returns_bind; auto.
Qed.

Section Functions.
Context `{!Platform} `{!Engine}.

(** *** [getTemplatePath] *)

Lemma getTemplatePath_loop_returns fs tpl roots :
  returns (getTemplatePath_loop fs tpl roots).
Proof.
  induction roots as [|root roots IH]; simpl; [apply returns_ret|].
  apply returns_get; intros h. apply returns_bind; [apply returns_emit|].
  intros _. destruct (statSync fs _); [|done].
  apply returns_bind; [|intros; apply returns_ret].
  destruct (Hbs.disableCache h); [apply returns_ret|apply returns_update].
Qed.

Lemma getTemplatePath_returns fs tpl : returns (getTemplatePath fs tpl).
Proof.
  apply returns_get; intros h. apply returns_bind; [apply returns_update|].
  intros _. destruct (_ !! tpl) as [p|]; [destruct (truthy p)|];
    auto using returns_ret, getTemplatePath_loop_returns.
Qed.

Lemma only_pathCache_set w0 pc h :
  only_pathCache (w_hbs w0) h →
  only_pathCache (w_hbs w0) (Hbs.set_pathCache pc h).
Proof. unfold only_pathCache. intros ->. done. Qed.

Lemma getTemplatePath_loop_frame fs tpl roots w0 :
  pres (frame only_pathCache is_stat w0) (getTemplatePath_loop fs tpl roots).
Proof.
  induction roots as [|root roots IH]; simpl; intros w; [apply pres_ret|].
  apply pres_get. apply pres_bind; [by apply frame_emit|]. intros _ w1 _.
  destruct (statSync fs _); [|apply IH].
  apply pres_bind; [|intros; apply pres_ret].
  destruct (Hbs.disableCache _); [apply pres_ret|].
  apply frame_update. intros h. apply only_pathCache_set.
Qed.

Lemma getTemplatePath_frame fs tpl w :
  frame only_pathCache is_stat w (getTemplatePath fs tpl w).2.
Proof.
  assert (pres (frame only_pathCache is_stat w) (getTemplatePath fs tpl))
    as Hpres.
  { intros w1. unfold getTemplatePath. apply pres_get.
    apply pres_bind.
    { apply frame_update. intros h. apply only_pathCache_set. }
    intros _ w2 _.
    destruct (_ !! tpl) as [p|]; [destruct (truthy p)|].
    - apply pres_ret.
    - apply getTemplatePath_loop_frame.
    - apply getTemplatePath_loop_frame. }
  apply Hpres. by apply frame_refl.
Qed.

End Functions.

(** ** The block store *)

Lemma contributed_app name d1 d2 :
  contributed name (d1 ++ d2) = (contributed name d1 ++ contributed name d2)%list.
Proof. apply omap_app. Qed.

Lemma store_step_refl w : wf_store w → store_step w w [].
Proof.
  intros Hwf. unfold store_step. rewrite app_nil_r.
  split_and!; auto. intros n _. by rewrite app_nil_r.
Qed.

Lemma store_step_wf w w' d : store_step w w' d → wf_store w'.
Proof. by intros (_ & ? & _). Qed.

Lemma store_step_trans w w1 w2 d1 d2 :
  store_step w w1 d1 → store_step w1 w2 d2 → store_step w w2 (d1 ++ d2).
Proof.
  intros (Hl1 & Hwf1 & Hn1 & Hnew1 & Hkeep1 & Hfr1)
         (Hl2 & Hwf2 & Hn2 & Hnew2 & Hkeep2 & Hfr2).
  unfold store_step. rewrite Hl2, Hl1, app_assoc.
  split; [done|]. split; [done|]. split; [lia|]. split; [|split].
  - intros n a Ha. destruct (Hnew2 n a Ha) as [Ha1|Hge]; [|right; lia].
    destruct (Hnew1 n a Ha1) as [?|?]; [by left|by right].
  - intros n a Hn Ha. apply not_elem_of_app in Hn as [Hnd1 Hnd2].
    apply Hkeep2; [done|]. by apply Hkeep1.
  - intros n Hn. apply not_elem_of_app in Hn as [Hnd1 Hnd2].
    rewrite Hfr2, Hfr1, contributed_app, app_assoc by done. done.
Qed.


Section Store.
Context `{!Platform} `{!Engine}.

Lemma block_eq name w :
  block name w
  = (Ok (join newline (frags w name)),
     {| w_hbs := Hbs.set_blocks (<[name := w_next w]> (Hbs.blocks (w_hbs w)))
                                (w_hbs w);
        w_arrays := <[w_next w := []]> (w_arrays w);
        w_next := S (w_next w);
        w_log := (w_log w ++ [EBlock name])%list |}).
Proof.
  unfold block, frags, bind, emit, get_hbs, read_array, ret; simpl.
  by destruct (Hbs.blocks (w_hbs w) !! name).
Qed.

Lemma store_step_block name w :
  wf_store w → store_step w (block name w).2 [EBlock name].
Proof.
  intros [Hlt Hinj]. rewrite block_eq. unfold store_step, wf_store, frags.
  simpl. split; [done|]. split; [split|]; [| |split; [lia|split; [|split]]].
  - intros n a. destruct (decide (n = name)) as [->|Hne].
    + rewrite lookup_insert_eq. intros [= <-]. lia.
    + rewrite lookup_insert_ne by done. intros Ha%Hlt. lia.
  - intros n1 n2 a.
    destruct (decide (n1 = name)) as [->|Hne1],
             (decide (n2 = name)) as [->|Hne2]; [done| | |].
    + rewrite lookup_insert_eq, lookup_insert_ne by done.
      intros [= <-] Ha%Hlt. lia.
    + rewrite lookup_insert_eq, lookup_insert_ne by done.
      intros Ha%Hlt [= <-]. lia.
    + rewrite !lookup_insert_ne by done. apply Hinj.
  - intros n a. destruct (decide (n = name)) as [->|Hne].
    + rewrite lookup_insert_eq. intros [= <-]. by right.
    + rewrite lookup_insert_ne by done. by left.
  - intros n a Hn Ha. rewrite lookup_insert_ne; [done|].
    intros ->. apply Hn. by left.
  - intros n Hn. rewrite app_nil_r.
    assert (n ≠ name) as Hne by (intros ->; apply Hn; by left).
    rewrite lookup_insert_ne by done.
    destruct (Hbs.blocks (w_hbs w) !! n) as [a|] eqn:Ha; [|done].
    apply Hlt in Ha. rewrite lookup_insert_ne by lia. done.
Qed.

Lemma run_step_refl w : wf_store w → run_step w w [].
Proof.
  intros Hwf. split; [by apply store_step_refl|]. split; [done|]. constructor.
Qed.

Lemma run_step_trans w w1 w2 d1 d2 :
  run_step w w1 d1 → run_step w1 w2 d2 → run_step w w2 (d1 ++ d2).
Proof.
  intros (Hs1 & Hf1 & He1) (Hs2 & Hf2 & He2). split; [|split].
  - by eapply store_step_trans.
  - unfold only_blocks in *. rewrite Hf2 at 1. rewrite Hf1 at 1. done.
  - by apply Forall_app.
Qed.

Lemma run_step_block name w :
  wf_store w → run_step w (block name w).2 [EBlock name].
Proof.
  intros Hwf. split; [by apply store_step_block|].
  rewrite block_eq. split; [done|]. by repeat constructor.
Qed.

(** [this.blocks[name] = []] for a name that has no array yet. *)
Lemma alloc_step name w :
  wf_store w → Hbs.blocks (w_hbs w) !! name = None →
  run_step w
    {| w_hbs := Hbs.set_blocks (<[name := w_next w]> (Hbs.blocks (w_hbs w)))
                               (w_hbs w);
       w_arrays := <[w_next w := []]> (w_arrays w);
       w_next := S (w_next w);
       w_log := w_log w |} [].
Proof.
  intros [Hlt Hinj] Hnone. split; [|split; [done|constructor]].
  unfold store_step, wf_store, frags. simpl. rewrite app_nil_r.
  split; [done|]. split; [split|]; [| |split; [lia|split; [|split]]].
  - intros n a. destruct (decide (n = name)) as [->|Hne].
    + rewrite lookup_insert_eq. intros [= <-]. lia.
    + rewrite lookup_insert_ne by done. intros Ha%Hlt. lia.
  - intros n1 n2 a.
    destruct (decide (n1 = name)) as [->|Hne1],
             (decide (n2 = name)) as [->|Hne2]; [done| | |].
    + rewrite lookup_insert_eq, lookup_insert_ne by done.
      intros [= <-] Ha%Hlt. lia.
    + rewrite lookup_insert_eq, lookup_insert_ne by done.
      intros Ha%Hlt [= <-]. lia.
    + rewrite !lookup_insert_ne by done. apply Hinj.
  - intros n a. destruct (decide (n = name)) as [->|Hne].
    + rewrite lookup_insert_eq. intros [= <-]. by right.
    + rewrite lookup_insert_ne by done. by left.
  - intros n a _ Ha. rewrite lookup_insert_ne; [done|]. congruence.
  - intros n _. rewrite app_nil_r.
    destruct (decide (n = name)) as [->|Hne].
    + by rewrite Hnone, !lookup_insert_eq.
    + rewrite lookup_insert_ne by done.
      destruct (Hbs.blocks (w_hbs w) !! n) as [a|] eqn:Ha; [|done].
      apply Hlt in Ha. rewrite lookup_insert_ne by lia. done.
Qed.

(** [block.push(fragment)] on the array that [name] held before the
    fragment was rendered. *)
Lemma push_step name a fragment w1 w2 d :
  wf_store w1 → Hbs.blocks (w_hbs w1) !! name = Some a →
  run_step w1 w2 d →
  run_step w1
    {| w_hbs := w_hbs w2;
       w_arrays :=
         <[a := (default [] (w_arrays w2 !! a) ++ [fragment])%list]>
           (w_arrays w2);
       w_next := w_next w2;
       w_log := (w_log w2 ++ [EContent name fragment])%list |}
    (d ++ [EContent name fragment]).
Proof.
  intros [Hlt1 Hinj1] Hname ((Hl & Hwf2 & Hn & Hnew & Hkeep & Hfr) & Hf & He).
  split; [|split; [done|]].
  2:{ apply Forall_app. split; [done|]. by repeat constructor. }
  unfold store_step, wf_store, frags in *. simpl.
  rewrite Hl, app_assoc. split_and!; try done; try apply Hwf2.
  - intros n a' Hnd. apply not_elem_of_app in Hnd as [Hnd _]. by apply Hkeep.
  - intros n Hnd. apply not_elem_of_app in Hnd as [Hnd _].
    rewrite contributed_app, app_assoc, <-Hfr by done.
    unfold contributed at 1. simpl.
    destruct (decide (n = name)) as [->|Hne].
    + rewrite bool_decide_eq_true_2 by done. simpl.
      rewrite (Hkeep name a) by done. by rewrite lookup_insert_eq.
    + rewrite bool_decide_eq_false_2 by done. simpl. rewrite app_nil_r.
      destruct (Hbs.blocks (w_hbs w2) !! n) as [a'|] eqn:Ha'; [|done].
      rewrite lookup_insert_ne; [done|]. intros <-.
      destruct (Hnew n a Ha') as [Hold|Hge].
      * apply Hne. by apply (Hinj1 n name a).
      * apply Hlt1 in Hname. lia.
Qed.

Lemma content_step name (fn : M string) w :
  wf_store w →
  (∀ w1, wf_store w1 → ∃ out w2 d, fn w1 = (Ok out, w2) ∧ run_step w1 w2 d) →
  ∃ w' d, content name fn w = (Ok tt, w') ∧ run_step w w' d.
Proof.
  intros Hwf Hfn. unfold content, bind, get_hbs. simpl.
  destruct (Hbs.blocks (w_hbs w) !! name) as [a|] eqn:Hb; simpl.
  - destruct (Hfn w Hwf) as (out & w2 & d & -> & Hstep). simpl.
    eexists _, _. split; [reflexivity|].
    by apply (push_step name a out w w2 d).
  - pose proof (alloc_step name w Hwf Hb) as Halloc.
    set (w1 := {| w_hbs := _ |}) in *.
    assert (wf_store w1) as Hwf1 by apply Halloc.
    destruct (Hfn w1 Hwf1) as (out & w2 & d & -> & Hstep). simpl.
    eexists _, _. split; [reflexivity|].
    eapply (run_step_trans _ _ _ [] _); [done|].
    apply (push_step name (w_next w) out w1 w2 d); [done| |done].
    simpl. by rewrite lookup_insert_eq.
Qed.

(** Calling a compiled template returns; what it does to the store is a
    [run_step]. *)
Lemma run_spec p w :
  wf_store w → ∃ out w' d, run p w = (Ok out, w') ∧ run_step w w' d.
Proof.
  revert w. induction p as [out|name fn IHfn k IHk|name k IHk|name fn IHfn k IHk];
    intros w Hwf; simpl.
  - eexists _, _, _. split; [reflexivity|]. by apply run_step_refl.
  - unfold bind, blockHelper, bind.
    pose proof (run_step_block name w Hwf) as Hblock.
    destruct (block name w) as [[val|e] wb] eqn:Hb;
      [|by rewrite block_eq in Hb].
    simpl in Hblock. assert (wf_store wb) as Hwfb by apply Hblock.
    destruct (bool_decide (val = "")).
    + destruct (IHfn wb Hwfb) as (v & wc & d1 & -> & Hstep1).
      assert (wf_store wc) as Hwfc by apply Hstep1.
      destruct (IHk v wc Hwfc) as (out & w' & d2 & -> & Hstep2).
      eexists _, _, _. split; [reflexivity|].
      eapply run_step_trans; [done|]. by eapply run_step_trans.
    + simpl. destruct (IHk val wb Hwfb) as (out & w' & d2 & -> & Hstep2).
      eexists _, _, _. split; [reflexivity|]. by eapply run_step_trans.
  - unfold bind, blockHelper, bind.
    pose proof (run_step_block name w Hwf) as Hblock.
    destruct (block name w) as [[val|e] wb] eqn:Hb;
      [|by rewrite block_eq in Hb].
    simpl in *. assert (wf_store wb) as Hwfb by apply Hblock.
    destruct (IHk val wb Hwfb) as (out & w' & d2 & -> & Hstep2).
    eexists _, _, _. split; [reflexivity|]. by eapply run_step_trans.
  - unfold bind, contentHelper.
    destruct (content_step name (run fn) w Hwf IHfn) as (wc & d1 & -> & Hstep1).
    assert (wf_store wc) as Hwfc by apply Hstep1.
    destruct (IHk wc Hwfc) as (out & w' & d2 & -> & Hstep2).
    eexists _, _, _. split; [reflexivity|]. by eapply run_step_trans.
Qed.

End Store.

(** ** [registerPartials] *)

Lemma logged_nil w : logged [] w = w.
Proof. unfold logged. by rewrite app_nil_r. Qed.

Lemma logged_logged d1 d2 w : logged d2 (logged d1 w) = logged (d1 ++ d2) w.
Proof. unfold logged. simpl. by rewrite app_assoc. Qed.

(** A list of promises that all resolve. *)
Lemma promise_all_ok {X A} (f : X → M A) (g : X → A) (ev : X → Event) xs w :
  (∀ x w', x ∈ xs → f x w' = (Ok (g x), logged [ev x] w')) →
  promise_all (map f xs) w = (Ok (map g xs), logged (map ev xs) w).
Proof.
  revert w. induction xs as [|x xs IH]; intros w Hf; simpl.
  - by rewrite logged_nil.
  - rewrite Hf by left. rewrite IH by (intros; apply Hf; by right).
    by rewrite logged_logged.
Qed.

Lemma substring_append_l s t :
  String.substring 0 (String.length s) (s +:+ t) = s.
Proof.
  induction s as [|c s IH]; simpl; [by destruct t|]. by rewrite IH.
Qed.

Lemma length_append s t :
  String.length (s +:+ t) = String.length s + String.length t.
Proof. induction s as [|c s IH]; simpl; [done|]. by rewrite IH. Qed.

(** [file.slice(0, -1 * ext.length)] strips a non-empty extension. *)
Lemma slice0_extname stem ext :
  ext ≠ "" →
  slice0 (stem +:+ ext) (-1 * Z.of_nat (String.length ext)) = stem.
Proof.
  intros Hext. unfold slice0. rewrite length_append.
  assert (0 < String.length ext) by (destruct ext; [done|simpl; lia]).
  destruct (Z.ltb_spec (-1 * Z.of_nat (String.length ext)) 0) as [_|?]; [|lia].
  replace (Z.to_nat _) with (String.length stem) by lia.
  apply substring_append_l.
Qed.

Section Partials.
Context `{!Platform} `{!Engine}.

Lemma read_frame fs filename w0 :
  pres (frame eq is_load_event w0) (read fs filename).
Proof.
  intros w. unfold read. apply pres_bind; [by apply frame_emit|].
  intros _ w' _. destruct (readFile fs filename); by intros ?.
Qed.

Lemma registerPartial_returns name partial :
  returns (registerPartial name partial).
Proof.
  apply returns_bind; [apply returns_emit|]. intros _. apply returns_update.
Qed.

Lemma registerPartials_returns fs : returns (registerPartials fs).
Proof.
  apply returns_get; intros h. apply returns_bind.
  { destruct (Hbs.partialsPath h); [apply returns_update|apply returns_ret]. }
  intros _. apply returns_get; intros h'. apply returns_try_catch.
  intros e. apply returns_bind; [apply returns_emit|].
  intros _. apply returns_emit.
Qed.

Lemma only_partials_set_path w0 v h :
  only_partials (w_hbs w0) h →
  only_partials (w_hbs w0) (Hbs.set_partialsPath v h).
Proof. unfold only_partials. intros ->. done. Qed.

Lemma only_partials_set_partials w0 v h :
  only_partials (w_hbs w0) h →
  only_partials (w_hbs w0) (Hbs.set_partials v h).
Proof. unfold only_partials. intros ->. done. Qed.

Lemma only_partials_set_registered w0 v h :
  only_partials (w_hbs w0) h →
  only_partials (w_hbs w0) (Hbs.set_partialsRegistered v h).
Proof. unfold only_partials. intros ->. done. Qed.

Lemma registerPartials_pres fs w0 :
  pres (frame only_partials is_partials_event w0) (registerPartials fs).
Proof.
  intros w. unfold registerPartials. apply pres_get. apply pres_bind.
  { destruct (Hbs.partialsPath _); [|apply pres_ret].
    apply frame_update. intros h. apply only_partials_set_path. }
  intros _ w1 _. apply pres_get. apply pres_try_catch.
  - apply pres_bind.
    { apply pres_promise_all. intros p [root [-> _]]%list_elem_of_fmap w2.
      unfold js_glob. apply pres_bind; [by apply frame_emit|].
      intros _ w3 _. destruct (glob fs _ root); by intros ?. }
    intros resultList w2 _. destruct (bool_decide _); [apply pres_ret|].
    apply pres_bind.
    { apply pres_promise_all. intros p [file [-> _]]%list_elem_of_fmap w3.
      unfold read. apply pres_bind; [by apply frame_emit|].
      intros _ w4 _. destruct (readFile fs file); by intros ?. }
    intros sources w3 _. apply pres_bind.
    { apply pres_for_each. intros [name partial] _ w4.
      unfold registerPartial. apply pres_bind; [by apply frame_emit|].
      intros _ w5 _. apply frame_update. intros h.
      apply only_partials_set_partials. }
    intros _ w4 _. apply frame_update. intros h.
    apply only_partials_set_registered.
  - intros e w2 _. apply pres_bind; [by apply frame_emit|].
    intros _ w3 _. by apply frame_emit.
Qed.

Lemma registerPartials_frame fs w :
  frame only_partials is_partials_event w (registerPartials fs w).2.
Proof. apply registerPartials_pres. by apply frame_refl. Qed.

Lemma for_each_registerPartial l w :
  for_each (λ '(name, partial), registerPartial name partial) l w
  = (Ok tt,
     {| w_hbs :=
          Hbs.set_partials
            (foldl (λ t np, <[np.1 := np.2]> t) (Hbs.partials (w_hbs w)) l)
            (w_hbs w);
        w_arrays := w_arrays w; w_next := w_next w;
        w_log := (w_log w ++ map (λ np, ERegisterPartial np.1 np.2) l)%list |}).
Proof.
  revert w. induction l as [|[name partial] l IH]; intros w; simpl.
  - by rewrite app_nil_r.
  - unfold bind at 1. simpl. rewrite IH. simpl.
    by rewrite <-app_assoc.
Qed.

(** A pass in which every listing and every read succeeds. *)
Lemma registerPartials_ok fs w roots resultList (src : string → string) :
  partial_roots (Hbs.partialsPath (w_hbs w)) = roots →
  roots ≠ [] →
  Forall2 (λ root result,
             glob fs ("**/*" +:+ Hbs.extname (w_hbs w)) root = Some result)
          roots resultList →
  (∀ file, file ∈ partial_files roots resultList →
           readFile fs file = Some (src file)) →
  let ext := Hbs.extname (w_hbs w) in
  let calls := partial_calls src ext roots resultList in
  registerPartials fs w
  = (Ok tt,
     {| w_hbs :=
          Hbs.set_partialsRegistered true
            (Hbs.set_partials
               (foldl (λ t np, <[np.1 := np.2]> t)
                      (Hbs.partials (w_hbs w)) calls)
               (Hbs.set_partialsPath (PArray roots) (w_hbs w)));
        w_arrays := w_arrays w; w_next := w_next w;
        w_log :=
          (w_log w
           ++ (map (EGlob ("**/*" +:+ ext)) roots
               ++ map EReadFile (partial_files roots resultList))
           ++ map (λ np, ERegisterPartial np.1 np.2) calls)%list |}).
Proof.
  intros Hroots Hne Hglob Hread ext calls.
  set (pat := "**/*" +:+ ext) in *.
  assert (∀ w1, Hbs.extname (w_hbs w1) = ext →
                Hbs.partialsPath (w_hbs w1) = PArray roots →
    (let* h := get_hbs in
     let roots :=
       match Hbs.partialsPath h with PArray a => a | PString s => [s] end in
     try_catch
       (let* resultList :=
          promise_all
            (map (λ root, js_glob fs ("**/*" +:+ Hbs.extname h) root) roots) in
        if bool_decide (length resultList = 0) then ret tt
        else
          let files := partial_files roots resultList in
          let names := partial_names (Hbs.extname h) resultList in
          let* sources := promise_all (map (read fs) files) in
          let* _ :=
            for_each (λ '(name, partial), registerPartial name partial)
                     (zip names sources) in
          update_hbs (Hbs.set_partialsRegistered true))
       (λ e,
          let* _ :=
            console_error
              (LString "Error caught while registering partials") in
          console_error (LError e))) w1
    = (Ok tt,
       {| w_hbs :=
            Hbs.set_partialsRegistered true
              (Hbs.set_partials
                 (foldl (λ t np, <[np.1 := np.2]> t)
                        (Hbs.partials (w_hbs w1)) calls) (w_hbs w1));
          w_arrays := w_arrays w1; w_next := w_next w1;
          w_log :=
            (w_log w1
             ++ (map (EGlob pat) roots
                 ++ map EReadFile (partial_files roots resultList))
             ++ map (λ np, ERegisterPartial np.1 np.2) calls)%list |}))
    as Hmain.
  { intros w1 Hext Hpp. unfold bind at 1, get_hbs at 1. simpl.
    rewrite Hext, Hpp. fold pat. unfold try_catch, bind at 1.
    rewrite (promise_all_ok (λ root, js_glob fs pat root)
               (λ root, default [] (glob fs pat root)) (EGlob pat)).
    2:{ intros root w' Hin. unfold js_glob, bind, emit. simpl.
        apply list_elem_of_lookup in Hin as [i Hi].
        destruct (Forall2_lookup_l _ _ _ _ _ Hglob Hi) as (res & _ & Hres).
        unfold pat, ext. by rewrite Hres. }
    assert (map (λ root, default [] (glob fs pat root)) roots = resultList)
      as ->.
    { unfold pat, ext. clear -Hglob.
      induction Hglob as [|root res roots results Hr _ IH];
        simpl; [done|]. by rewrite Hr, IH. }
    rewrite bool_decide_eq_false_2.
    2:{ apply Forall2_length in Hglob. destruct roots; [done|].
        rewrite <-Hglob. done. }
    unfold bind at 1.
    rewrite (promise_all_ok (read fs) src EReadFile).
    2:{ intros file w' Hin. unfold read, bind, emit. simpl.
        by rewrite Hread. }
    unfold bind at 1. rewrite for_each_registerPartial. simpl.
    by rewrite <-!app_assoc. }
  unfold registerPartials. unfold bind at 1, get_hbs at 1. simpl.
  destruct (Hbs.partialsPath (w_hbs w)) as [s|a] eqn:Hpp; simpl in Hroots.
  - unfold bind at 1. simpl. rewrite Hmain; [|done|simpl; by rewrite Hroots].
    simpl. by rewrite Hroots.
  - unfold bind at 1. simpl. rewrite Hmain; [|done|by rewrite Hpp, Hroots].
    replace (Hbs.set_partialsPath (PArray roots) (w_hbs w)) with (w_hbs w);
      [done|]. by rewrite <-Hroots, <-Hpp.
Qed.

Lemma zip_fmap_diag {X A B} (f : X → A) (g : X → B) (l : list X) :
  zip (map f l) (map g l) = map (λ x, (f x, g x)) l.
Proof. induction l as [|x l IH]; simpl; [done|]. by rewrite IH. Qed.

(** The names and the sources are listed in step. *)
Lemma partial_calls_eq src ext roots resultList :
  length roots = length resultList →
  partial_calls src ext roots resultList
  = flat_map (λ '(root, result),
                map (λ file,
                       (slice0 file (-1 * Z.of_nat (String.length ext)),
                        src (path_join root file))) result)
             (zip roots resultList).
Proof.
  unfold partial_calls, partial_names, partial_files.
  revert resultList. induction roots as [|root roots IH];
    intros [|result resultList] Hlen; simpl in *; try done.
  rewrite map_app, zip_with_app by (by rewrite !length_map).
  rewrite IH by lia. f_equal.
  rewrite map_map. apply zip_fmap_diag.
Qed.

Lemma foldl_assign_is_Some (l : list (string * string))
    (t : gmap string string) name :
  is_Some (t !! name) ∨ name ∈ l.*1 →
  is_Some (foldl (λ t np, <[np.1 := np.2]> t) t l !! name).
Proof.
  revert t. induction l as [|[n s] l IH]; intros t; simpl.
  - intros [?|Hin]; [done|]. by apply elem_of_nil in Hin.
  - intros Hor. apply IH. destruct (decide (name = n)) as [->|Hne].
    + left. by rewrite lookup_insert_eq.
    + destruct Hor as [?|Hin]; [left; by rewrite lookup_insert_ne|].
      apply elem_of_cons in Hin as [?|?]; [done|by right].
Qed.

End Partials.

Section PartialNames.
Context `{!Platform} `{!Engine}.

Lemma partial_calls_elem src ext roots resultList i root result file :
  length roots = length resultList →
  roots !! i = Some root → resultList !! i = Some result → file ∈ result →
  (slice0 file (-1 * Z.of_nat (String.length ext)), src (path_join root file))
  ∈ partial_calls src ext roots resultList.
Proof.
  intros Hlen Hroot Hresult Hfile. rewrite partial_calls_eq by done.
  apply list_elem_of_In, in_flat_map. exists (root, result). split.
  - apply list_elem_of_In, list_elem_of_lookup. exists i.
    apply lookup_zip_with_Some. by exists root, result.
  - apply list_elem_of_In, list_elem_of_fmap. by exists file.
Qed.

Lemma partial_calls_names src ext roots resultList :
  length roots = length resultList →
  (partial_calls src ext roots resultList).*1 = partial_names ext resultList.
Proof.
  intros Hlen. rewrite partial_calls_eq by done. unfold partial_names.
  revert resultList Hlen.
  induction roots as [|root roots IH]; intros [|result rl] Hlen;
    simplify_eq/=; [done|].
  rewrite fmap_app, IH by done. f_equal.
  induction result as [|file result IHr]; [done|].
  simpl. f_equal. exact IHr.
Qed.

(** C9: in a pass of [registerPartials] in which the listings and the reads
    succeed, a file discovered at the relative path [stem + extname] under a
    partial root is registered with the engine under the name [stem], the
    relative path without the extension, with the source read from that
    file; the table of partials has an entry under that name afterwards, and
    the entry is that source when no two discovered files give the same
    name. *)
Theorem registerPartials_names fs w roots resultList (src : string → string)
    i root result stem :
  Hbs.extname (w_hbs w) ≠ "" →
  partial_roots (Hbs.partialsPath (w_hbs w)) = roots →
  Forall2 (λ root result,
             glob fs ("**/*" +:+ Hbs.extname (w_hbs w)) root = Some result)
          roots resultList →
  (∀ file, file ∈ partial_files roots resultList →
           readFile fs file = Some (src file)) →
  roots !! i = Some root → resultList !! i = Some result →
  stem +:+ Hbs.extname (w_hbs w) ∈ result →
  let w' := (registerPartials fs w).2 in
  let partial := src (path_join root (stem +:+ Hbs.extname (w_hbs w))) in
  Hbs.partialsRegistered (w_hbs w') = true
  ∧ (∃ d, w_log w' = (w_log w ++ d)%list ∧ ERegisterPartial stem partial ∈ d)
  ∧ is_Some (Hbs.partials (w_hbs w') !! stem)
  ∧ (NoDup (partial_names (Hbs.extname (w_hbs w)) resultList) →
     Hbs.partials (w_hbs w') !! stem = Some partial).
Proof.
  intros Hext Hroots Hglob Hread Hroot Hresult Hfile w' partial.
  assert (roots ≠ []) as Hne by (intros ->; by rewrite lookup_nil in Hroot).
  assert ((stem, partial)
          ∈ partial_calls src (Hbs.extname (w_hbs w)) roots resultList)
    as Hcall.
  { rewrite <-(slice0_extname stem (Hbs.extname (w_hbs w))) at 1 by done.
    eapply partial_calls_elem; [by eapply Forall2_length|done..]. }
  unfold w'. rewrite (registerPartials_ok fs w roots resultList src) by done.
  simpl. split_and!; [done| | |].
  - eexists. split; [reflexivity|]. apply elem_of_app. right.
    apply list_elem_of_fmap. by exists (stem, partial).
  - apply foldl_assign_is_Some. right.
    apply list_elem_of_fmap. by exists (stem, partial).
  - intros Hnd.
    rewrite <-(partial_calls_names src _ roots) in Hnd
      by (by eapply Forall2_length).
    rewrite foldl_assign_lookup by done.
    by rewrite (elem_of_list_to_map_1 _ stem partial).
Qed.

End PartialNames.

(** ** The steps of [render] *)

Section Render.
Context `{!Platform} `{!Engine}.

Lemma render_unfold fs this tpl locals w :
  render fs this tpl locals w
  = (let* tplPath := render_path fs tpl in
     match tplPath with
     | None =>
         throw (MissingTemplateError "The template specified does not exist."
                                     JUndefined)
     | Some tplPath =>
         if negb (truthy tplPath) then
           throw (MissingTemplateError
                    "The template specified does not exist." (JStr tplPath))
         else
           let* hbs := get_hbs in
           let locals := merged_locals hbs this locals in
           let* _ := render_partials fs in
           let* _ := render_load fs tpl tplPath locals in
           render_finish fs this tpl locals
     end) w.
Proof.
  unfold render, render_path, render_partials, render_load, render_finish,
    merged_locals.
  cbv beta delta [bind get_hbs ret throw].
  destruct (getTemplatePath fs tpl w) as [[tp|e] w0]; [|reflexivity].
  cbv beta iota.
  destruct (if path_isAbsolute tpl then _ else _) as [p|]; [|reflexivity].
  destruct (negb (truthy p)); reflexivity.
Qed.

(** *** Frames of the steps *)

Lemma render_path_returns fs tpl : returns (render_path fs tpl).
Proof.
  apply returns_bind; [apply getTemplatePath_returns|]. intros tp.
  apply returns_get; intros h. apply returns_ret.
Qed.

Lemma render_path_frame fs tpl w :
  frame only_pathCache is_stat w (render_path fs tpl w).2.
Proof.
  pose proof (getTemplatePath_frame fs tpl w) as Hframe.
  unfold render_path, bind at 1.
  destruct (getTemplatePath fs tpl w) as [[tp|e] w0]; done.
Qed.

Lemma render_partials_returns fs : returns (render_partials fs).
Proof.
  apply returns_get; intros h.
  destruct (_ || _); [apply registerPartials_returns|apply returns_ret].
Qed.

Lemma render_partials_frame fs w :
  frame only_partials is_partials_event w (render_partials fs w).2.
Proof.
  unfold render_partials, bind, get_hbs. simpl. destruct (_ || _).
  - apply registerPartials_frame.
  - by apply frame_refl.
Qed.

Lemma compile_frame src w0 :
  pres (frame eq is_load_event w0) (handlebars_compile src).
Proof.
  intros w. unfold handlebars_compile. apply pres_bind; [by apply frame_emit|].
  intros _ w' _. apply pres_ret.
Qed.

Lemma loadLayoutFile_frame fs layout w0 :
  pres (frame eq is_load_event w0) (loadLayoutFile fs layout).
Proof.
  intros w. unfold loadLayoutFile. apply pres_bind.
  - unfold getLayoutPath. apply pres_get.
    destruct (truthy _); [apply pres_ret|].
    destruct (Hbs.viewPath _); [apply pres_throw|apply pres_ret].
  - intros file w' _. apply read_frame.
Qed.

(** A frame with fewer changes is a frame with more. *)
Lemma frame_weaken (F F1 : Hbs.t → Hbs.t → Prop) (P P1 : Event → Prop)
    w0 w w' :
  (∀ h h', F (w_hbs w0) h → F1 h h' → F (w_hbs w0) h') →
  (∀ e, P1 e → P e) →
  frame F P w0 w → frame F1 P1 w w' → frame F P w0 w'.
Proof.
  intros HF HP (Hev & Ha & Hn) (Hev1 & Ha1 & Hn1). split.
  - by eapply evolves_step.
  - by rewrite Ha1, Hn1.
Qed.

(** An action with a frame of its own keeps a wider frame. *)
Lemma pres_frame {A} (F F1 : Hbs.t → Hbs.t → Prop) (P P1 : Event → Prop)
    (m : M A) w0 :
  (∀ h h', F (w_hbs w0) h → F1 h h' → F (w_hbs w0) h') →
  (∀ e, P1 e → P e) →
  (∀ w, frame F1 P1 w (m w).2) →
  pres (frame F P w0) m.
Proof. intros HF HP Hm w Hw. by eapply frame_weaken. Qed.

Lemma pres_evolves {A} (F F1 : Hbs.t → Hbs.t → Prop) (P P1 : Event → Prop)
    (m : M A) w0 :
  (∀ h h', F (w_hbs w0) h → F1 h h' → F (w_hbs w0) h') →
  (∀ e, P1 e → P e) →
  (∀ w, frame F1 P1 w (m w).2) →
  pres (evolves F P w0) m.
Proof. intros HF HP Hm w Hw. eapply evolves_step; [done..|apply Hm]. Qed.

Lemma read_shape fs filename w :
  frame eq is_load_event w (read fs filename w).2.
Proof. apply read_frame. by apply frame_refl. Qed.

Lemma compile_shape src w :
  frame eq is_load_event w (handlebars_compile src w).2.
Proof. apply compile_frame. by apply frame_refl. Qed.

Lemma loadLayoutFile_shape fs layout w :
  frame eq is_load_event w (loadLayoutFile fs layout w).2.
Proof. apply loadLayoutFile_frame. by apply frame_refl. Qed.

Lemma only_layoutTemplate_set w0 v h :
  only_layoutTemplate (w_hbs w0) h →
  only_layoutTemplate (w_hbs w0) (Hbs.set_layoutTemplate v h).
Proof. unfold only_layoutTemplate. intros ->. done. Qed.

Lemma cacheLayout_shape fs layout w :
  frame eq is_load_event w (cacheLayout fs layout w).2.
Proof.
  assert (pres (frame eq is_load_event w) (cacheLayout fs layout)) as Hpres.
  { intros w1. unfold cacheLayout. apply pres_get.
    destruct (_ && _).
    - apply pres_bind; [apply compile_frame|]. intros; apply pres_ret.
    - apply pres_try_catch.
      + apply pres_bind; [apply loadLayoutFile_frame|]. intros raw w2 _.
        apply pres_bind; [apply compile_frame|]. intros; apply pres_ret.
      + intros e w2 _. apply pres_bind; [by apply frame_emit|].
        intros; apply pres_ret. }
  apply Hpres. by apply frame_refl.
Qed.

Lemma cacheLayout_returns fs layout : returns (cacheLayout fs layout).
Proof.
  apply returns_get; intros h. cbv beta zeta. destruct (_ && _).
  - apply returns_bind; [|intros; apply returns_ret].
    apply returns_bind; [apply returns_emit|intros; apply returns_ret].
  - apply returns_try_catch. intros e.
    apply returns_bind; [apply returns_emit|intros; apply returns_ret].
Qed.

Lemma getLayoutTemplate_returns fs : returns (getLayoutTemplate fs).
Proof.
  apply returns_get; intros h. apply returns_bind.
  - destruct (_ || _); [|apply returns_ret].
    apply returns_bind; [apply cacheLayout_returns|].
    intros; apply returns_update.
  - intros _. apply returns_get; intros h'. apply returns_ret.
Qed.

Lemma getLayoutTemplate_shape fs w :
  frame only_layoutTemplate is_load_event w (getLayoutTemplate fs w).2.
Proof.
  assert (pres (frame only_layoutTemplate is_load_event w)
               (getLayoutTemplate fs)) as Hpres.
  { intros w1. unfold getLayoutTemplate. apply pres_get. apply pres_bind.
    - destruct (_ || _); [|apply pres_ret]. apply pres_bind.
      + apply (pres_frame _ eq _ is_load_event); [by intros ? ? ? <-|done|].
        apply cacheLayout_shape.
      + intros t w2 _. apply frame_update. intros h.
        apply only_layoutTemplate_set.
    - intros _ w2 _. apply pres_get. apply pres_ret. }
  apply Hpres. by apply frame_refl.
Qed.

Lemma only_cache_set w0 v h :
  only_cache (w_hbs w0) h → only_cache (w_hbs w0) (Hbs.set_cache v h).
Proof. unfold only_cache. intros ->. done. Qed.

Lemma render_load_shape fs tpl tplPath locals w :
  frame only_cache is_load_event w (render_load fs tpl tplPath locals w).2.
Proof.
  assert (pres (frame only_cache is_load_event w)
               (render_load fs tpl tplPath locals)) as Hpres.
  { intros w1. unfold render_load. apply pres_get.
    destruct (_ || _); [|apply pres_ret]. apply pres_bind.
    { apply (pres_frame _ eq _ is_load_event); [by intros ? ? ? <-|done|].
      apply read_shape. }
    intros raw w2 _. apply pres_bind.
    { apply (pres_frame _ eq _ is_load_event); [by intros ? ? ? <-|done|].
      apply compile_shape. }
    intros template w3 _. apply pres_bind.
    { apply frame_update. intros h. apply only_cache_set. }
    intros _ w4 _. destruct (_ || _); [|apply pres_ret]. apply pres_bind.
    - destruct (negb _).
      + apply pres_bind.
        * apply (pres_frame _ eq _ is_load_event); [by intros ? ? ? <-|done|].
          apply loadLayoutFile_shape.
        * intros rawLayout w5 _.
          apply (pres_frame _ eq _ is_load_event); [by intros ? ? ? <-|done|].
          apply compile_shape.
      + apply (pres_frame _ eq _ is_load_event); [by intros ? ? ? <-|done|].
        apply compile_shape.
    - intros lt w5 _. apply frame_update. intros h. apply only_cache_set. }
  apply Hpres. by apply frame_refl.
Qed.

(** An invariant kept by the steps is kept by [render]. *)
Lemma render_pres (I : World → Prop) fs this tpl locals :
  pres I (render_path fs tpl) →
  pres I (render_partials fs) →
  (∀ p w1, I w1 →
     pres I (render_load fs tpl p (merged_locals (w_hbs w1) this locals))) →
  (∀ w1, I w1 →
     pres I (render_finish fs this tpl (merged_locals (w_hbs w1) this locals))) →
  pres I (render fs this tpl locals).
Proof.
  intros Hpath Hpartials Hload Hfinish w. unfold pres_at.
  rewrite render_unfold. fold (pres_at I (let* tplPath := render_path fs tpl in
     match tplPath with
     | None =>
         throw (MissingTemplateError "The template specified does not exist."
                                     JUndefined)
     | Some tplPath =>
         if negb (truthy tplPath) then
           throw (MissingTemplateError
                    "The template specified does not exist." (JStr tplPath))
         else
           let* hbs := get_hbs in
           let locals := merged_locals hbs this locals in
           let* _ := render_partials fs in
           let* _ := render_load fs tpl tplPath locals in
           render_finish fs this tpl locals
     end) w).
  apply pres_bind; [apply Hpath|]. intros [p|] w1 _; [|apply pres_throw].
  destruct (negb (truthy p)); [apply pres_throw|].
  intros HI1. generalize HI1. apply pres_get. cbv zeta.
  apply pres_bind; [apply Hpartials|].
  intros _ w2 _. apply pres_bind; [by apply Hload|].
  intros _ w3 _. by apply Hfinish.
Qed.

End Render.

(** ** The block store along renders *)

Section Blocks.
Context `{!Platform} `{!Engine}.









(** C5, as the code has it: when a body that calls the helpers with plain
    names has been run without retrieving the (plain) name, the block
    helper returns everything that is pending for the name, joined by
    newlines: the fragments that were pending before the body ran, left by
    earlier renders, and then the fragments that the body contributed.  It
    leaves the name empty: a second retrieval returns the empty string.
    When what is retrieved is the empty string and the helper has a
    fallback, the fallback is rendered in its place; that is so in
    particular when nothing was pending and nothing was contributed. *)
Theorem block_retrieval body w name :
  wf_store w → plain_prog body → plain_name name →
  ∃ out w1 d,
    run body w = (Ok out, w1)
    ∧ w_log w1 = (w_log w ++ d)%list
    ∧ (EBlock name ∉ d →
       let val := join newline (frags w name ++ contributed name d) in
       let w2 := (block name w1).2 in
       (block name w1).1 = Ok val
       ∧ frags w2 name = []
       ∧ (block name w2).1 = Ok ""
       ∧ blockHelper name None w1 = (Ok val, w2)
       ∧ (∀ fn, blockHelper name (Some fn) w1
                = if bool_decide (val = "") then fn w2 else (Ok val, w2))
       ∧ (frags w name = [] → contributed name d = [] →
          ∀ fn, blockHelper name (Some fn) w1 = fn w2)).
Proof.
  intros Hwf _ _.
  destruct (run_spec body w Hwf)
    as (out & w1 & d & Hrun & (Hl & Hwf1 & _ & _ & _ & Hfr) & _).
  exists out, w1, d. split_and!; [done..|]. intros Hd val w2.
  assert (frags w1 name = (frags w name ++ contributed name d)%list)
    as Hfrags by apply (Hfr name Hd).
  assert (block name w1 = (Ok val, w2)) as Hblock.
  { unfold w2. rewrite block_eq. simpl. by rewrite Hfrags. }
  assert (frags w2 name = []) as Hempty.
  { unfold w2. rewrite block_eq. unfold frags. simpl.
    by rewrite !lookup_insert_eq. }
  assert (∀ fn, blockHelper name (Some fn) w1
                = if bool_decide (val = "") then fn w2 else (Ok val, w2))
    as Hhelper.
  { intros fn. unfold blockHelper, bind. rewrite Hblock.
    by destruct (bool_decide (val = "")). }
  split_and!; try done.
  - by rewrite Hblock.
  - by rewrite block_eq, Hempty.
  - unfold blockHelper, bind. by rewrite Hblock.
  - intros Hnone Hnil fn. rewrite Hhelper. unfold val.
    by rewrite Hnone, Hnil.
Qed.

End Blocks.

(** ** The calls of the engine *)

Section Finish.
Context `{!Platform} `{!Engine}.

Lemma evolves_arrays (F : Hbs.t → Hbs.t → Prop) (P : Event → Prop) w0 w w' :
  w_hbs w' = w_hbs w → w_log w' = w_log w →
  evolves F P w0 w → evolves F P w0 w'.
Proof. unfold evolves. by intros -> ->. Qed.

Lemma only_blocks_set w0 v h :
  only_blocks (w_hbs w0) h → only_blocks (w_hbs w0) (Hbs.set_blocks v h).
Proof. unfold only_blocks. intros ->. done. Qed.

Lemma block_pres name w0 :
  pres (evolves only_blocks is_helper_event w0) (block name).
Proof.
  intros w Hw. rewrite block_eq. simpl.
  destruct Hw as (HF & d & Hd & HPd). split; simpl.
  - by apply only_blocks_set.
  - exists (d ++ [EBlock name])%list. rewrite Hd, app_assoc. split; [done|].
    apply Forall_app. split; [done|]. by repeat constructor.
Qed.

Lemma content_pres name (fn : M string) w0 :
  pres (evolves only_blocks is_helper_event w0) fn →
  pres (evolves only_blocks is_helper_event w0) (content name fn).
Proof.
  intros Hfn w. unfold content. apply pres_get. apply pres_bind.
  { destruct (_ !! name); [apply pres_ret|]. apply pres_bind.
    - intros Hw. by eapply evolves_arrays.
    - intros a w1 _. apply pres_bind; [|intros; apply pres_ret].
      apply evolves_update. intros h. apply only_blocks_set. }
  intros a w1 _. apply pres_bind; [apply Hfn|].
  intros fragment w2 _. apply pres_bind; [by apply evolves_emit|].
  intros _ w3 _ Hw. by eapply evolves_arrays.
Qed.

Lemma run_pres p w0 : pres (evolves only_blocks is_helper_event w0) (run p).
Proof.
  induction p as [out|name fn IHfn k IHk|name k IHk|name fn IHfn k IHk];
    intros w; simpl.
  - apply pres_ret.
  - apply pres_bind; [|intros; apply IHk]. unfold blockHelper.
    apply pres_bind; [apply block_pres|]. intros val w1 _.
    destruct (bool_decide _); [apply IHfn|apply pres_ret].
  - apply pres_bind; [|intros; apply IHk]. unfold blockHelper.
    apply pres_bind; [apply block_pres|]. intros; apply pres_ret.
  - apply pres_bind; [|intros; apply IHk]. by apply content_pres.
Qed.

Lemma run_evolves p w : evolves only_blocks is_helper_event w (run p w).2.
Proof. apply run_pres. by apply evolves_refl. Qed.

Lemma block_returns name : returns (block name).
Proof. intros w. rewrite block_eq. by eexists. Qed.

Lemma run_returns p : returns (run p).
Proof.
  induction p as [out|name fn IHfn k IHk|name k IHk|name fn IHfn k IHk]; simpl.
  - apply returns_ret.
  - apply returns_bind; [|done]. apply returns_bind; [apply block_returns|].
    intros val. destruct (bool_decide _); [done|apply returns_ret].
  - apply returns_bind; [|done]. apply returns_bind; [apply block_returns|].
    intros val. apply returns_ret.
  - apply returns_bind; [|done]. unfold contentHelper, content.
    apply returns_get; intros h. apply returns_bind.
    { destruct (_ !! name); [apply returns_ret|].
      apply returns_bind; [by intros w; eexists|]. intros a.
      apply returns_bind; [apply returns_update|intros; apply returns_ret]. }
    intros a. apply returns_bind; [done|]. intros fragment.
    apply returns_bind; [apply returns_emit|]. intros _ w. by eexists.
Qed.

(** [render_finish], evaluated. *)
Lemma render_finish_eval fs this tpl locals w entry :
  Hbs.cache (w_hbs w) !! tpl = Some entry →
  render_finish fs this tpl locals w
  = match (match Entry.layoutTemplate entry with
           | Some t => (Ok (Some t), w)
           | None => getLayoutTemplate fs w
           end) with
    | (Throw e, wa) => (Throw e, wa)
    | (Ok layoutTemplate, wa) =>
        let wb := logged [ETemplate locals] (with_koa this wa) in
        let h := w_hbs wb in
        match run (Entry.template entry (Hbs.partials h) locals
                                        (Hbs.templateOptions h)) wb with
        | (Throw e, wc) => (Throw e, wc)
        | (Ok body, wc) =>
            let locals := <["body" := JStr body]> locals in
            match layoutTemplate with
            | None =>
                (Throw (TypeError "layoutTemplate is not a function"), wc)
            | Some layoutTemplate =>
                match run (layoutTemplate (Hbs.partials h) locals
                                          (Hbs.templateOptions h))
                          (logged [ELayout locals] wc) with
                | (Ok out, wd) =>
                    (Ok {| ctx_state := ctx_state this;
                           ctx_body := Some out |}, wd)
                | (Throw e, wd) => (Throw e, wd)
                end
            end
        end
    end.
Proof.
  intros Hentry. unfold render_finish. unfold bind at 1, get_hbs at 1.
  cbv beta iota. rewrite Hentry. cbv zeta. unfold bind at 1.
  destruct (match Entry.layoutTemplate entry with
            | Some t => ret (Some t)
            | None => getLayoutTemplate fs
            end w) as [[lt|e] wa] eqn:Hlt.
  - replace (match Entry.layoutTemplate entry with
             | Some t => (Ok (Some t), w)
             | None => getLayoutTemplate fs w
             end) with (@Ok (option Template) lt, wa)
      by (by destruct (Entry.layoutTemplate entry)).
    cbv beta iota. unfold bind at 1, update_hbs at 1. cbv beta iota.
    unfold bind at 1, get_hbs at 1. cbv beta iota.
    unfold bind at 1, emit at 1. cbv beta iota.
    unfold bind at 1. fold (with_koa this wa).
    change {| w_hbs := w_hbs (with_koa this wa);
              w_arrays := w_arrays (with_koa this wa);
              w_next := w_next (with_koa this wa);
              w_log := (w_log (with_koa this wa) ++ [ETemplate locals])%list |}
      with (logged [ETemplate locals] (with_koa this wa)).
    destruct (run _ _) as [[body|e] wc]; [|done].
    destruct lt as [lt|]; [|done].
    unfold bind at 1, emit at 1. cbv beta iota. unfold bind at 1.
    change {| w_hbs := w_hbs wc; w_arrays := w_arrays wc;
              w_next := w_next wc;
              w_log := (w_log wc ++ [ELayout (<["body":=JStr body]> locals)])%list |}
      with (logged [ELayout (<["body":=JStr body]> locals)] wc).
    by destruct (run _ _) as [[out|e] wd].
  - replace (match Entry.layoutTemplate entry with
             | Some t => (Ok (Some t), w)
             | None => getLayoutTemplate fs w
             end) with (@Throw (option Template) e, wa)
      by (by destruct (Entry.layoutTemplate entry)).
    done.
Qed.

End Finish.

(** ** The data of a render *)

Section Data.
Context `{!Platform} `{!Engine}.

(** A render that returns went through its four steps. *)
Lemma render_inv fs this tpl locals w ctx w' :
  render fs this tpl locals w = (Ok ctx, w') →
  ∃ p w1 w2 w3,
    render_path fs tpl w = (Ok (Some p), w1)
    ∧ truthy p = true
    ∧ render_partials fs w1 = (Ok tt, w2)
    ∧ render_load fs tpl p (merged_locals (w_hbs w1) this locals) w2
      = (Ok tt, w3)
    ∧ render_finish fs this tpl (merged_locals (w_hbs w1) this locals) w3
      = (Ok ctx, w').
Proof.
  rewrite render_unfold. unfold bind at 1.
  destruct (render_path fs tpl w) as [[[p|]|e] w1] eqn:Hpath; try done.
  destruct (truthy p) eqn:Hp; [|done]. cbv beta iota delta [negb].
  unfold bind at 1, get_hbs at 1. cbv beta iota zeta. unfold bind at 1.
  destruct (render_partials fs w1) as [[[]|e] w2] eqn:Hpartials; [|done].
  unfold bind at 1.
  destruct (render_load _ _ _ _ w2) as [[[]|e] w3] eqn:Hload; [|done].
  intros Hfinish. by exists p, w1, w2, w3.
Qed.

Lemma render_finish_inv fs this tpl locals w ctx w' :
  render_finish fs this tpl locals w = (Ok ctx, w') →
  ∃ entry layoutTemplate wa body wc out,
    Hbs.cache (w_hbs w) !! tpl = Some entry
    ∧ match Entry.layoutTemplate entry with
      | Some t => (Ok (Some t), w)
      | None => getLayoutTemplate fs w
      end = (Ok (Some layoutTemplate), wa)
    ∧ (let wb := logged [ETemplate locals] (with_koa this wa) in
       let h := w_hbs wb in
       run (Entry.template entry (Hbs.partials h) locals
                                 (Hbs.templateOptions h)) wb
       = (Ok body, wc)
       ∧ run (layoutTemplate (Hbs.partials h) (<["body" := JStr body]> locals)
                             (Hbs.templateOptions h))
             (logged [ELayout (<["body" := JStr body]> locals)] wc)
         = (Ok out, w'))
    ∧ ctx = {| ctx_state := ctx_state this; ctx_body := Some out |}.
Proof.
  destruct (Hbs.cache (w_hbs w) !! tpl) as [entry|] eqn:Hentry.
  2:{ unfold render_finish, bind, get_hbs. simpl. by rewrite Hentry. }
  rewrite (render_finish_eval _ _ _ _ _ entry) by done.
  destruct (match Entry.layoutTemplate entry with
            | Some t => (Ok (Some t), w)
            | None => getLayoutTemplate fs w
            end) as [[lt|e] wa] eqn:Hlt; [|done].
  cbv zeta. destruct (run _ _) as [[body|e] wc] eqn:Hbody; [|done].
  destruct lt as [lt|]; [|done].
  destruct (run (lt _ _ _) _) as [[out|e] wd] eqn:Hout; [|done].
  intros [= <- <-]. by exists entry, lt, wa, body, wc, out.
Qed.

Lemma same_locals_step (F1 : Hbs.t → Hbs.t → Prop) h0 h h' :
  (∀ h h', F1 h h' → Hbs.locals h' = Hbs.locals h) →
  same_locals h0 h → F1 h h' → same_locals h0 h'.
Proof. unfold same_locals. intros HF1 <- HF. by apply HF1. Qed.

Lemma locals_finish fs this tpl merged w0 :
  pres (evolves same_locals (λ _, True) w0)
       (render_finish fs this tpl merged).
Proof.
  intros w. unfold render_finish. apply pres_get.
  destruct (_ !! tpl) as [entry|]; [|apply pres_throw].
  cbv zeta. apply pres_bind.
  { destruct (Entry.layoutTemplate entry); [apply pres_ret|].
    apply (pres_evolves _ only_layoutTemplate _ is_load_event).
    - intros h h'. apply same_locals_step. intros h1 h2 Hh. by rewrite Hh.
    - done.
    - apply getLayoutTemplate_shape. }
  intros lt w1 _. apply pres_bind; [by apply evolves_update|].
  intros _ w2 _. apply pres_get.
  apply pres_bind; [by apply evolves_emit|].
  intros _ w3 _. apply pres_bind.
  { intros Hw. eapply evolves_step; [| |done|apply run_evolves].
    - intros h h'. apply same_locals_step. intros h1 h2 Hh. by rewrite Hh.
    - done. }
  intros body w4 _. destruct lt as [lt|]; [|apply pres_throw].
  apply pres_bind; [by apply evolves_emit|].
  intros _ w5 _. apply pres_bind; [|intros; apply pres_ret].
  intros Hw. eapply evolves_step; [| |done|apply run_evolves].
  - intros h h'. apply same_locals_step. intros h1 h2 Hh. by rewrite Hh.
  - done.
Qed.

Lemma evolves_log F P w w' :
  evolves F P w w' → ∃ d, w_log w' = (w_log w ++ d)%list.
Proof. intros (_ & d & Hd & _). by exists d. Qed.

(** [render] does not assign the [locals] of the instance. *)
Lemma render_locals fs this tpl locals w :
  Hbs.locals (w_hbs (render fs this tpl locals w).2) = Hbs.locals (w_hbs w).
Proof.
  assert (pres (evolves same_locals (λ _, True) w)
               (render fs this tpl locals)) as Hpres.
  { apply render_pres.
    - apply (pres_evolves _ only_pathCache _ is_stat).
      + intros h h'. apply same_locals_step. intros h1 h2 Hh. by rewrite Hh.
      + done.
      + apply render_path_frame.
    - apply (pres_evolves _ only_partials _ is_partials_event).
      + intros h h'. apply same_locals_step. intros h1 h2 Hh. by rewrite Hh.
      + done.
      + apply render_partials_frame.
    - intros p w1 _. apply (pres_evolves _ only_cache _ is_load_event).
      + intros h h'. apply same_locals_step. intros h1 h2 Hh. by rewrite Hh.
      + done.
      + apply render_load_shape.
    - intros w1 _. apply locals_finish. }
  apply Hpres. by apply evolves_refl.
Qed.

(** The log of the steps before the engine is called. *)
Lemma render_prelude fs tpl p locals w :
  let w1 := (render_path fs tpl w).2 in
  let w2 := (render_partials fs w1).2 in
  let w3 := (render_load fs tpl p locals w2).2 in
  Hbs.locals (w_hbs w1) = Hbs.locals (w_hbs w)
  ∧ ∃ d1 d2 d3,
      w_log w1 = (w_log w ++ d1)%list
      ∧ w_log w2 = (w_log w ++ d1 ++ d2)%list
      ∧ w_log w3 = (w_log w ++ d1 ++ d2 ++ d3)%list
      ∧ Forall (λ e, ¬ is_engine_call e) (d1 ++ d2 ++ d3).
Proof.
  intros w1 w2 w3.
  pose proof (render_path_frame fs tpl w) as [[Hsame (d1 & Hlog1 & Hd1)] _].
  pose proof (render_partials_frame fs w1) as [[_ (d2 & Hlog2 & Hd2)] _].
  pose proof (render_load_shape fs tpl p locals w2)
    as [[_ (d3 & Hlog3 & Hd3)] _].
  fold w1 in Hsame, Hlog1. fold w2 in Hlog2. fold w3 in Hlog3.
  split.
  { unfold only_pathCache in Hsame. by rewrite Hsame. }
  exists d1, d2, d3. split_and!.
  - done.
  - by rewrite Hlog2, Hlog1, <-app_assoc.
  - by rewrite Hlog3, Hlog2, Hlog1, <-!app_assoc.
  - rewrite !Forall_app. split_and!.
    + eapply Forall_impl; [exact Hd1|]. intros []; simpl; tauto.
    + eapply Forall_impl; [exact Hd2|]. intros []; simpl; tauto.
    + eapply Forall_impl; [exact Hd3|]. intros []; simpl; tauto.
Qed.

(** The layout of an entry, or the default one: the log grows by the
    events of a load, and the cache is as it was. *)
Lemma finish_layout_log fs entry w r wa :
  match Entry.layoutTemplate entry with
  | Some t => (Ok (Some t), w)
  | None => getLayoutTemplate fs w
  end = (r, wa) →
  Hbs.cache (w_hbs wa) = Hbs.cache (w_hbs w)
  ∧ ∃ d, w_log wa = (w_log w ++ d)%list ∧ Forall is_load_event d.
Proof.
  destruct (Entry.layoutTemplate entry).
  - intros [= _ <-]. split; [done|]. exists []. by rewrite app_nil_r.
  - intros Hlt.
    pose proof (getLayoutTemplate_shape fs w) as [[Hsame Hlog] _].
    rewrite Hlt in Hsame, Hlog. simpl in Hsame, Hlog. split; [|done].
    unfold only_layoutTemplate in Hsame. by rewrite Hsame.
Qed.

Lemma run_log p w :
  ∃ out w' d, run p w = (Ok out, w')
              ∧ w_log w' = (w_log w ++ d)%list ∧ Forall is_helper_event d.
Proof.
  destruct (run_returns p w) as [out Hout].
  pose proof (run_evolves p w) as [_ (d & Hlog & Hd)].
  destruct (run p w) as [r w'] eqn:Hrun. simpl in *. subst r.
  by exists out, w', d.
Qed.

(** A [render_finish] that returns made its two calls, the second with
    what the first returned under [body]. *)
Lemma render_finish_calls fs this tpl locals w ctx w' :
  render_finish fs this tpl locals w = (Ok ctx, w') →
  ctx_state ctx = ctx_state this
  ∧ ∃ entry layoutTemplate wb body wc out pre d_body d_layout,
      Hbs.cache (w_hbs wb) !! tpl = Some entry
      ∧ w_log wb = (w_log w ++ pre ++ [ETemplate locals])%list
      ∧ Forall is_load_event pre
      ∧ run (Entry.template entry (Hbs.partials (w_hbs wb)) locals
                                  (Hbs.templateOptions (w_hbs wb))) wb
        = (Ok body, wc)
      ∧ w_log wc = (w_log wb ++ d_body)%list
      ∧ Forall is_helper_event d_body
      ∧ run (layoutTemplate (Hbs.partials (w_hbs wb))
                            (<["body" := JStr body]> locals)
                            (Hbs.templateOptions (w_hbs wb)))
            (logged [ELayout (<["body" := JStr body]> locals)] wc)
        = (Ok out, w')
      ∧ ctx_body ctx = Some out
      ∧ w_log w'
        = (w_log wc ++ [ELayout (<["body" := JStr body]> locals)]
           ++ d_layout)%list
      ∧ Forall is_helper_event d_layout.
Proof.
  intros (entry & lt & wa & body & wc & out & Hentry & Hlt & [Hbody Hout] & ->)
    %render_finish_inv.
  split; [done|].
  apply finish_layout_log in Hlt as (Hcache & pre & Hpre & Hload).
  set (wb := logged [ETemplate locals] (with_koa this wa)) in *.
  destruct (run_log (Entry.template entry (Hbs.partials (w_hbs wb)) locals
                       (Hbs.templateOptions (w_hbs wb))) wb)
    as (body' & wc' & d_body & Hbody' & Hlog_body & Hd_body).
  rewrite Hbody in Hbody'. injection Hbody' as <- <-.
  destruct (run_log (lt (Hbs.partials (w_hbs wb))
                        (<["body" := JStr body]> locals)
                        (Hbs.templateOptions (w_hbs wb)))
                    (logged [ELayout (<["body" := JStr body]> locals)] wc))
    as (out' & w'' & d_layout & Hout' & Hlog_layout & Hd_layout).
  rewrite Hout in Hout'. injection Hout' as <- <-.
  exists entry, lt, wb, body, wc, out, pre, d_body, d_layout.
  split_and!; try done.
  - unfold wb. simpl. by rewrite Hcache.
  - unfold wb. simpl. by rewrite Hpre, <-app_assoc.
  - rewrite Hlog_layout. simpl. by rewrite <-app_assoc.
Qed.

(** A [render_finish] that throws has called the body template with its
    data, if at all. *)
Lemma render_finish_throw fs this tpl locals w e w' :
  render_finish fs this tpl locals w = (Throw e, w') →
  ∃ d, w_log w' = (w_log w ++ d)%list ∧ Forall (body_data locals) d.
Proof.
  destruct (Hbs.cache (w_hbs w) !! tpl) as [entry|] eqn:Hentry.
  2:{ unfold render_finish, bind, get_hbs. simpl. rewrite Hentry.
      intros [= _ <-]. exists []. by rewrite app_nil_r. }
  rewrite (render_finish_eval _ _ _ _ _ entry) by done.
  destruct (match Entry.layoutTemplate entry with
            | Some t => (Ok (Some t), w)
            | None => getLayoutTemplate fs w
            end) as [[lt|e1] wa] eqn:Hlt.
  - apply finish_layout_log in Hlt as (_ & pre & Hpre & Hload).
    cbv zeta.
    set (wb := logged [ETemplate locals] (with_koa this wa)).
    destruct (run_log (Entry.template entry (Hbs.partials (w_hbs wb)) locals
                         (Hbs.templateOptions (w_hbs wb))) wb)
      as (body & wc & d_body & -> & Hlog_body & Hd_body).
    destruct lt as [lt|].
    + destruct (run_log (lt (Hbs.partials (w_hbs wb))
                            (<["body" := JStr body]> locals)
                            (Hbs.templateOptions (w_hbs wb)))
                        (logged [ELayout (<["body" := JStr body]> locals)] wc))
        as (out & w'' & d_layout & -> & _). done.
    + intros [= _ <-]. exists (pre ++ [ETemplate locals] ++ d_body)%list.
      split.
      * rewrite Hlog_body. unfold wb. simpl. by rewrite Hpre, <-!app_assoc.
      * rewrite !Forall_app. split_and!.
        -- eapply Forall_impl; [exact Hload|]. intros []; simpl; tauto.
        -- by repeat constructor.
        -- eapply Forall_impl; [exact Hd_body|]. intros []; simpl; tauto.
  - intros [= _ <-].
    apply finish_layout_log in Hlt as (_ & pre & Hpre & Hload).
    exists pre. split; [done|].
    eapply Forall_impl; [exact Hload|]. intros []; simpl; tauto.
Qed.

Lemma quiet_body_call merged d :
  Forall (λ e, ¬ is_engine_call e) d → Forall (body_data merged) d.
Proof. intros Hd. eapply Forall_impl; [exact Hd|]. intros []; simpl; tauto. Qed.

(** A render that throws has called the body template with the overlay, if
    at all. *)
Lemma render_throw_log fs this tpl locals w e w' :
  render fs this tpl locals w = (Throw e, w') →
  ∃ d, w_log w' = (w_log w ++ d)%list
       ∧ Forall (body_data (merged_locals (w_hbs w) this locals)) d.
Proof.
  rewrite render_unfold. unfold bind at 1.
  destruct (render_path fs tpl w) as [[tp|e1] w1] eqn:Hpath.
  2:{ intros [= _ <-].
      destruct (render_prelude fs tpl "" ∅ w)
        as (_ & d1 & d2 & d3 & Hlog1 & _ & _ & Hd).
      rewrite Hpath in Hlog1. exists d1. split; [done|].
      apply quiet_body_call. by apply Forall_app in Hd as [Hd _]. }
  assert (∃ d1, w_log w1 = (w_log w ++ d1)%list
                ∧ Forall (λ e, ¬ is_engine_call e) d1) as Hfirst.
  { destruct (render_prelude fs tpl "" ∅ w)
      as (_ & d1 & d2 & d3 & Hlog1 & _ & _ & Hd).
    rewrite Hpath in Hlog1. exists d1. split; [done|].
    by apply Forall_app in Hd as [Hd _]. }
  destruct tp as [p|].
  2:{ intros [= _ <-]. destruct Hfirst as (d1 & Hlog1 & Hd1).
      exists d1. split; [done|]. by apply quiet_body_call. }
  destruct (truthy p); cbv beta iota delta [negb].
  2:{ intros [= _ <-]. destruct Hfirst as (d1 & Hlog1 & Hd1).
      exists d1. split; [done|]. by apply quiet_body_call. }
  unfold bind at 1, get_hbs at 1. cbv beta iota zeta. unfold bind at 1.
  destruct (render_prelude fs tpl p (merged_locals (w_hbs w1) this locals) w)
    as (Hlocals & d1 & d2 & d3 & Hlog1 & Hlog2 & Hlog3 & Hd).
  rewrite Hpath in Hlocals, Hlog2, Hlog3. simpl in Hlocals, Hlog2, Hlog3.
  assert (merged_locals (w_hbs w1) this locals
          = merged_locals (w_hbs w) this locals) as Hmerged.
  { unfold merged_locals. by rewrite Hlocals. }
  destruct (render_partials fs w1) as [[[]|e2] w2] eqn:Hpartials.
  2:{ intros [= _ <-]. exists (d1 ++ d2)%list. simpl in Hlog2.
      split; [done|]. apply quiet_body_call.
      rewrite app_assoc in Hd. by apply Forall_app in Hd as [Hd _]. }
  simpl in Hlog2, Hlog3. unfold bind at 1.
  destruct (render_load _ _ _ _ w2) as [[[]|e3] w3] eqn:Hload.
  2:{ intros [= _ <-]. exists (d1 ++ d2 ++ d3)%list. simpl in Hlog3.
      split; [done|]. by apply quiet_body_call. }
  simpl in Hlog3. rewrite Hmerged.
  intros (d4 & Hlog4 & Hd4)%render_finish_throw.
  exists ((d1 ++ d2 ++ d3) ++ d4)%list. split.
  - by rewrite Hlog4, Hlog3, <-!app_assoc.
  - apply Forall_app. split; [by apply quiet_body_call|done].
Qed.

(** C4, as the code has it: the data of a render is the overlay of the
    instance's [locals], the context's [state] and the call's data, a later
    source winning over an earlier one key by key; the key [__proto__],
    which an assignment copies only into an object that has lost its
    prototype, is in the overlay only if the call's data and the state both
    hold [null] under it.  The instance's
    [locals] and the context's [state] are as they were.  A render that
    returns called the engine exactly twice: the body template of the cache
    entry with the overlay, and then the layout template with the overlay in
    which the key [body] holds the string that the body template returned
    (whatever the call's data held there); what the layout returned is the
    body of the context.  In any render, returning or not, a call of the
    body template is a call with the overlay. *)
Theorem render_data_overlay fs this tpl locals w :
  let merged := merged_locals (w_hbs w) this locals in
  let r := render fs this tpl locals w in
  (∀ k, merged !! k
        = if bool_decide (k = "__proto__")
          then (if null_at (default ∅ locals) k
                   && null_at (default ∅ (ctx_state this)) k
                then Hbs.locals (w_hbs w) !! k else None)
          else match default ∅ locals !! k with
               | Some v => Some v
               | None =>
                   match default ∅ (ctx_state this) !! k with
                   | Some v => Some v
                   | None => Hbs.locals (w_hbs w) !! k
                   end
               end)
  ∧ Hbs.locals (w_hbs r.2) = Hbs.locals (w_hbs w)
  ∧ ∃ d, w_log r.2 = (w_log w ++ d)%list
         ∧ Forall (body_data merged) d
         ∧ ∀ ctx, r.1 = Ok ctx →
             ctx_state ctx = ctx_state this
             ∧ ∃ entry layoutTemplate wb body wc out pre d_body d_layout,
                 Hbs.cache (w_hbs wb) !! tpl = Some entry
                 ∧ w_log wb = (w_log w ++ pre ++ [ETemplate merged])%list
                 ∧ Forall (λ e, ¬ is_engine_call e) pre
                 ∧ run (Entry.template entry (Hbs.partials (w_hbs wb))
                          merged (Hbs.templateOptions (w_hbs wb))) wb
                   = (Ok body, wc)
                 ∧ w_log wc = (w_log wb ++ d_body)%list
                 ∧ Forall is_helper_event d_body
                 ∧ run (layoutTemplate (Hbs.partials (w_hbs wb))
                          (<["body" := JStr body]> merged)
                          (Hbs.templateOptions (w_hbs wb)))
                       (logged [ELayout (<["body" := JStr body]> merged)] wc)
                   = (Ok out, r.2)
                 ∧ ctx_body ctx = Some out
                 ∧ d = (pre ++ [ETemplate merged] ++ d_body
                        ++ [ELayout (<["body" := JStr body]> merged)]
                        ++ d_layout)%list
                 ∧ Forall is_helper_event d_layout.
Proof.
  intros merged r. split; [|split].
  - intros k. unfold merged, merged_locals. rewrite (merge_lookup _ _ k).
    case_bool_decide as Hk.
    + subst k. by rewrite null_at_merge.
    + rewrite merge_lookup_ne by done. by destruct (default ∅ locals !! k).
  - apply render_locals.
  - unfold r. destruct (render fs this tpl locals w) as [[ctx|e] w'] eqn:Hrender.
    2:{ apply render_throw_log in Hrender as (d & Hlog & Hd). exists d.
        split_and!; [done..|]. by intros ctx. }
    apply render_inv in Hrender
      as (p & w1 & w2 & w3 & Hpath & _ & Hpartials & Hload & Hfinish).
    destruct (render_prelude fs tpl p (merged_locals (w_hbs w1) this locals) w)
      as (Hlocals & d1 & d2 & d3 & _ & _ & Hlog3 & Hd).
    rewrite Hpath in Hlocals, Hlog3. simpl in Hlocals, Hlog3.
    rewrite Hpartials in Hlog3. simpl in Hlog3.
    rewrite Hload in Hlog3. simpl in Hlog3.
    replace (merged_locals (w_hbs w1) this locals) with merged in Hfinish.
    2:{ unfold merged, merged_locals. by rewrite Hlocals. }
    apply render_finish_calls in Hfinish
      as (Hstate & entry & lt & wb & body & wc & out & pre & d_body & d_layout
          & Hentry & Hlog_b & Hpre & Hbody & Hlog_c & Hd_body & Hout & Hctx
          & Hlog' & Hd_layout).
    simpl.
    exists ((d1 ++ d2 ++ d3) ++ pre ++ [ETemplate merged] ++ d_body
            ++ [ELayout (<["body" := JStr body]> merged)] ++ d_layout)%list.
    split.
    { rewrite Hlog', Hlog_c, Hlog_b, Hlog3. by rewrite <-!app_assoc. }
    split.
    { apply Forall_app. split; [by apply quiet_body_call|].
      rewrite !Forall_app. split_and!.
      - eapply Forall_impl; [exact Hpre|]. intros []; simpl; tauto.
      - by repeat constructor.
      - eapply Forall_impl; [exact Hd_body|]. intros []; simpl; tauto.
      - by repeat constructor.
      - eapply Forall_impl; [exact Hd_layout|]. intros []; simpl; tauto. }
    intros ? [= <-]. split; [done|].
    exists entry, lt, wb, body, wc, out, ((d1 ++ d2 ++ d3) ++ pre)%list,
      d_body, d_layout.
    split_and!; try done.
    + rewrite Hlog_b, Hlog3. by rewrite <-!app_assoc.
    + apply Forall_app. split; [done|].
      eapply Forall_impl; [exact Hpre|]. intros []; simpl; tauto.
    + by rewrite <-!app_assoc.
Qed.

End Data.

(** ** Loading a template *)

Section Load.
Context `{!Platform} `{!Engine}.

Lemma getLayoutPath_eq layout w :
  getLayoutPath layout w
  = match layout_path (w_hbs w) layout with
    | Some file => (Ok file, w)
    | None => (Throw (TypeError "path.join: the path is undefined"), w)
    end.
Proof.
  unfold getLayoutPath, layout_path, bind, get_hbs. simpl.
  destruct (truthy _); [done|]. by destruct (Hbs.viewPath _).
Qed.

Lemma loadLayoutFile_eq fs layout w :
  loadLayoutFile fs layout w
  = match layout_path (w_hbs w) layout with
    | Some file =>
        match readFile fs file with
        | Some rawLayout => (Ok rawLayout, logged [EReadFile file] w)
        | None => (Throw (FsError file), logged [EReadFile file] w)
        end
    | None => (Throw (TypeError "path.join: the path is undefined"), w)
    end.
Proof.
  unfold loadLayoutFile, bind. rewrite getLayoutPath_eq.
  destruct (layout_path _ _) as [file|]; [|done].
  unfold read, bind, emit. simpl. by destruct (readFile fs file).
Qed.

Lemma chosen_layout_eq locals raw :
  chosen_layout locals raw
  = if bool_decide (js_get locals "layout" = JUndefined)
    then JStr <$> rLayoutPattern_exec raw
    else Some (js_get locals "layout").
Proof. unfold chosen_layout. by destruct (js_get locals "layout"). Qed.

(** [render_load] on a cache miss, when the template can be read. *)
Lemma render_load_miss fs tpl p locals w raw :
  Hbs.disableCache (w_hbs w) = true ∨ Hbs.cache (w_hbs w) !! tpl = None →
  readFile fs p = Some raw →
  render_load fs tpl p locals w
  = match chosen_layout locals raw with
    | None => (Ok tt, loaded tpl p raw w)
    | Some layout =>
        if bool_decide (layout = JBool false) then
          (Ok tt, store_layout tpl raw "{{{body}}}"
                    (logged [ECompile "{{{body}}}"] (loaded tpl p raw w)))
        else
          match layout_path (w_hbs w) layout with
          | None =>
              (Throw (TypeError "path.join: the path is undefined"),
               loaded tpl p raw w)
          | Some file =>
              match readFile fs file with
              | None =>
                  (Throw (FsError file),
                   logged [EReadFile file] (loaded tpl p raw w))
              | Some rawLayout =>
                  (Ok tt, store_layout tpl raw rawLayout
                            (logged [ECompile rawLayout]
                               (logged [EReadFile file] (loaded tpl p raw w))))
              end
          end
    end.
Proof.
  intros Hmiss Hread. unfold render_load. unfold bind at 1, get_hbs at 1.
  cbv beta iota.
  assert (Hbs.disableCache (w_hbs w)
          || negb (bool_decide (is_Some (Hbs.cache (w_hbs w) !! tpl))) = true)
    as ->.
  { destruct Hmiss as [->| ->]; [done|].
    rewrite bool_decide_eq_false_2 by (by intros [? ?]).
    by rewrite orb_true_r. }
  unfold bind at 1. unfold read at 1, bind at 1, emit at 1. cbv beta iota.
  rewrite Hread. unfold ret at 1. cbv beta iota.
  unfold bind at 1, handlebars_compile at 1, bind at 1, emit at 1, ret at 1.
  cbv beta iota. unfold bind at 1, update_hbs at 1. cbv beta iota.
  rewrite chosen_layout_eq.
  change {| w_hbs := _; w_arrays := _; w_next := _; w_log := _ |}
    with (loaded tpl p raw w).
  destruct (bool_decide (js_get locals "layout" = JUndefined)) eqn:Hexp.
  - unfold rLayoutPattern_test.
    destruct (rLayoutPattern_exec raw) as [name|]; [|done]. simpl.
    unfold bind at 1. unfold bind at 1. rewrite loadLayoutFile_eq.
    change (w_hbs (loaded tpl p raw w)) with
      (Hbs.set_cache (<[tpl := entry_of raw None]> (Hbs.cache (w_hbs w)))
                     (w_hbs w)).
    change (layout_path (Hbs.set_cache ?c ?h) ?l) with (layout_path h l).
    destruct (layout_path (w_hbs w) (JStr name)) as [file|]; [|done].
    by destruct (readFile fs file).
  - simpl. destruct (bool_decide (js_get locals "layout" = JBool false)).
    + done.
    + simpl. unfold bind at 1. unfold bind at 1. rewrite loadLayoutFile_eq.
      change (w_hbs (loaded tpl p raw w)) with
        (Hbs.set_cache (<[tpl := entry_of raw None]> (Hbs.cache (w_hbs w)))
                       (w_hbs w)).
      change (layout_path (Hbs.set_cache ?c ?h) ?l) with (layout_path h l).
      destruct (layout_path (w_hbs w) _) as [file|]; [|done].
      by destruct (readFile fs file).
Qed.

(** [render_load] on a cache hit. *)
Lemma render_load_hit fs tpl p locals w :
  Hbs.disableCache (w_hbs w) = false →
  is_Some (Hbs.cache (w_hbs w) !! tpl) →
  render_load fs tpl p locals w = (Ok tt, w).
Proof.
  intros Hcache Hentry. unfold render_load, bind, get_hbs. simpl.
  by rewrite Hcache, bool_decide_eq_true_2.
Qed.

End Load.

(** ** A render that loads its template *)

Section Claims.
Context `{!Platform} `{!Engine}.

(** What [render_finish] keeps, whatever it does. *)
Lemma finish_evolves (F : Hbs.t → Hbs.t → Prop) (P : Event → Prop)
    fs this tpl locals w0 :
  (∀ h h', F (w_hbs w0) h → only_layoutTemplate h h' → F (w_hbs w0) h') →
  (∀ h v, F (w_hbs w0) h → F (w_hbs w0) (Hbs.set_templateOptions v h)) →
  (∀ h h', F (w_hbs w0) h → only_blocks h h' → F (w_hbs w0) h') →
  (∀ e, is_load_event e → P e) →
  (∀ e, is_template_event e → P e) →
  pres (evolves F P w0) (render_finish fs this tpl locals).
Proof.
  intros HFl HFo HFb HPl HPt w. unfold render_finish. apply pres_get.
  destruct (_ !! tpl) as [entry|]; [|apply pres_throw].
  cbv zeta. apply pres_bind.
  { destruct (Entry.layoutTemplate entry); [apply pres_ret|].
    by apply (pres_evolves _ only_layoutTemplate _ is_load_event),
             getLayoutTemplate_shape. }
  intros lt w1 _. apply pres_bind; [apply evolves_update; auto|].
  intros _ w2 _. apply pres_get.
  apply pres_bind; [by apply evolves_emit, HPt|].
  intros _ w3 _. apply pres_bind.
  { intros Hw. eapply evolves_step; [done| |done|apply run_evolves].
    intros [] ?; by apply HPt. }
  intros body w4 _. destruct lt as [lt|]; [|apply pres_throw].
  apply pres_bind; [by apply evolves_emit, HPt|].
  intros _ w5 _. apply pres_bind; [|intros; apply pres_ret].
  intros Hw. eapply evolves_step; [done| |done|apply run_evolves].
  intros [] ?; by apply HPt.
Qed.

Lemma finish_shape fs this tpl locals w :
  evolves finish_keeps (λ e, is_load_event e ∨ is_template_event e) w
          (render_finish fs this tpl locals w).2.
Proof.
  apply finish_evolves; [..|by apply evolves_refl]; auto.
  - unfold finish_keeps. intros h h' Hh Hh'. rewrite Hh'. apply Hh.
  - unfold finish_keeps. intros h h' Hh Hh'. rewrite Hh'. apply Hh.
Qed.

Lemma prepared_intro fs tpl w r w1 :
  render_path fs tpl w = (r, w1) →
  prepared w (render_partials fs w1).2.
Proof.
  intros Hpath.
  pose proof (render_path_frame fs tpl w) as ((H1 & d1 & Hl1 & HP1) & Ha1 & Hn1).
  pose proof (render_partials_frame fs w1)
    as ((H2 & d2 & Hl2 & HP2) & Ha2 & Hn2).
  rewrite Hpath in H1, Hl1, Ha1, Hn1. simpl in *.
  unfold prepared, only_partials, only_pathCache in *.
  set (w2 := (render_partials fs w1).2) in *. split_and!.
  - assert (Hbs.pathCache (w_hbs w2) = Hbs.pathCache (w_hbs w1)) as ->
      by (by rewrite H2).
    rewrite H2 at 1. rewrite H1 at 1. done.
  - by rewrite Ha2.
  - by rewrite Hn2.
  - exists (d1 ++ d2)%list. rewrite Hl2, Hl1, app_assoc. split; [done|].
    apply Forall_app. split; (eapply Forall_impl; [done|]); auto.
Qed.

(** [render] after a path was found: the partials, then the load, then
    the calls. *)
Lemma render_eval fs this tpl locals w p w1 :
  render_path fs tpl w = (Ok (Some p), w1) → truthy p = true →
  render fs this tpl locals w
  = match render_load fs tpl p (merged_locals (w_hbs w) this locals)
                      (render_partials fs w1).2 with
    | (Ok _, w3) =>
        render_finish fs this tpl (merged_locals (w_hbs w) this locals) w3
    | (Throw e, w3) => (Throw e, w3)
    end.
Proof.
  intros Hpath Hp. rewrite render_unfold. unfold bind at 1.
  rewrite Hpath. cbv beta iota. rewrite Hp. cbv beta iota delta [negb].
  unfold bind at 1, get_hbs at 1. cbv beta iota zeta. unfold bind at 1.
  destruct (render_partials_returns fs w1) as [[] Hret].
  destruct (render_partials fs w1) as [r w2]. simpl in Hret. subst r.
  cbv beta iota. unfold bind at 1.
  pose proof (render_path_frame fs tpl w) as ((Hsame & _) & _).
  rewrite Hpath in Hsame. unfold only_pathCache in Hsame. simpl in Hsame.
  replace (merged_locals (w_hbs w1) this locals)
    with (merged_locals (w_hbs w) this locals).
  2:{ unfold merged_locals. rewrite Hsame. done. }
  simpl. by destruct (render_load _ _ _ _ w2) as [[[]|e] w3].
Qed.

Lemma prepared_miss tpl w w2 :
  prepared w w2 →
  Hbs.disableCache (w_hbs w) = true ∨ Hbs.cache (w_hbs w) !! tpl = None →
  Hbs.disableCache (w_hbs w2) = true ∨ Hbs.cache (w_hbs w2) !! tpl = None.
Proof. intros (Hh & _) Hmiss. by rewrite Hh. Qed.

(** C1, as the code has it: in a render that loads its template (caching
    is disabled, or the cache has no entry for the name yet) and whose data
    has [layout: false], the string delivered is what the call of the
    template compiled from the source returns on that data, whatever
    directive the source holds. *)
Theorem layout_false_passthrough fs this tpl locals w p w1 raw :
  render_path fs tpl w = (Ok (Some p), w1) → truthy p = true →
  Hbs.disableCache (w_hbs w) = true ∨ Hbs.cache (w_hbs w) !! tpl = None →
  readFile fs p = Some raw →
  js_get (merged_locals (w_hbs w) this locals) "layout" = JBool false →
  let merged := merged_locals (w_hbs w) this locals in
  let w3 := store_layout tpl raw "{{{body}}}"
              (logged [ECompile "{{{body}}}"]
                 (loaded tpl p raw (render_partials fs w1).2)) in
  let wb := logged [ETemplate merged] (with_koa this w3) in
  ∃ body wc,
    run (compile raw (Hbs.partials (w_hbs wb)) merged
                     (Hbs.templateOptions (w_hbs wb))) wb
    = (Ok body, wc)
    ∧ render fs this tpl locals w
      = (Ok {| ctx_state := ctx_state this; ctx_body := Some body |},
         logged [ELayout (<["body" := JStr body]> merged)] wc).
Proof.
  intros Hpath Hp Hmiss Hread Hlayout merged w3 wb.
  pose proof (prepared_intro fs tpl w _ w1 Hpath) as Hprep.
  rewrite (render_eval fs this tpl locals w p w1) by done. fold merged.
  rewrite (render_load_miss fs tpl p merged _ raw)
    by (by eauto using prepared_miss).
  unfold chosen_layout. fold merged in Hlayout. rewrite Hlayout.
  rewrite bool_decide_eq_true_2 by done. fold w3.
  rewrite (render_finish_eval fs this tpl merged w3
             (entry_of raw (Some "{{{body}}}")))
    by (simpl; by rewrite lookup_insert_eq).
  simpl Entry.layoutTemplate. cbv beta iota zeta. fold wb.
  destruct (run_returns
              (compile raw (Hbs.partials (w_hbs wb)) merged
                           (Hbs.templateOptions (w_hbs wb))) wb)
    as [body Hbody].
  simpl Entry.template.
  destruct (run _ wb) as [r wc]. simpl in Hbody. subst r.
  exists body, wc. split; [done|].
  rewrite (compile_body _ _ _ body) by (by rewrite lookup_insert_eq).
  done.
Qed.

(** The calls of the engine for an entry that has a layout. *)
Lemma finish_with_layout fs this tpl merged w3 raw layout :
  Hbs.cache (w_hbs w3) !! tpl = Some (entry_of raw (Some layout)) →
  let wb := logged [ETemplate merged] (with_koa this w3) in
  ∃ body wc out wd,
    run (compile raw (Hbs.partials (w_hbs wb)) merged
                     (Hbs.templateOptions (w_hbs wb))) wb
    = (Ok body, wc)
    ∧ run (compile layout (Hbs.partials (w_hbs wb))
                   (<["body" := JStr body]> merged)
                   (Hbs.templateOptions (w_hbs wb)))
          (logged [ELayout (<["body" := JStr body]> merged)] wc)
      = (Ok out, wd)
    ∧ render_finish fs this tpl merged w3
      = (Ok {| ctx_state := ctx_state this; ctx_body := Some out |}, wd).
Proof.
  intros Hentry wb.
  rewrite (render_finish_eval fs this tpl merged w3 _ Hentry).
  simpl Entry.layoutTemplate. cbv beta iota zeta. fold wb.
  simpl Entry.template.
  destruct (run_returns
              (compile raw (Hbs.partials (w_hbs wb)) merged
                           (Hbs.templateOptions (w_hbs wb))) wb)
    as [body Hbody].
  destruct (run _ wb) as [r wc]. simpl in Hbody. subst r.
  destruct (run_returns
              (compile layout (Hbs.partials (w_hbs wb))
                       (<["body" := JStr body]> merged)
                       (Hbs.templateOptions (w_hbs wb)))
              (logged [ELayout (<["body" := JStr body]> merged)] wc))
    as [out Hout].
  destruct (run _ (logged _ wc)) as [r wd] eqn:Hrun. simpl in Hout. subst r.
  exists body, wc, out, wd. split_and!; [done|exact Hrun|done].
Qed.

Lemma finish_cache fs this tpl locals w :
  Hbs.cache (w_hbs (render_finish fs this tpl locals w).2)
  = Hbs.cache (w_hbs w).
Proof. by destruct (finish_shape fs this tpl locals w) as ((Hc & _) & _). Qed.

(** C6, as the code has it: in a render that loads its template (caching
    is disabled, or the cache has no entry for the name yet), the layout is
    the [layout] of the data when that is not [undefined], whatever the
    directive says, and the name declared by the directive of the source
    otherwise.  With no layout the entry of the cache gets none; a layout
    whose source cannot be had fails the render; else the layout template of
    the render is compiled from that source, and stays in the entry. *)
Theorem layout_choice fs this tpl locals w p w1 raw :
  render_path fs tpl w = (Ok (Some p), w1) → truthy p = true →
  Hbs.disableCache (w_hbs w) = true ∨ Hbs.cache (w_hbs w) !! tpl = None →
  readFile fs p = Some raw →
  let merged := merged_locals (w_hbs w) this locals in
  let explicit := js_get merged "layout" in
  let r := render fs this tpl locals w in
  (explicit = JUndefined →
   chosen_layout merged raw = JStr <$> rLayoutPattern_exec raw)
  ∧ (explicit ≠ JUndefined → chosen_layout merged raw = Some explicit)
  ∧ match chosen_layout merged raw with
    | None => Hbs.cache (w_hbs r.2) !! tpl = Some (entry_of raw None)
    | Some layout =>
        match layout_source fs (w_hbs w) layout with
        | Throw e => r.1 = Throw e
        | Ok source =>
            Hbs.cache (w_hbs r.2) !! tpl = Some (entry_of raw (Some source))
            ∧ ∃ wb body wc out,
                run (compile raw (Hbs.partials (w_hbs wb)) merged
                                 (Hbs.templateOptions (w_hbs wb))) wb
                = (Ok body, wc)
                ∧ run (compile source (Hbs.partials (w_hbs wb))
                               (<["body" := JStr body]> merged)
                               (Hbs.templateOptions (w_hbs wb)))
                      (logged [ELayout (<["body" := JStr body]> merged)] wc)
                  = (Ok out, r.2)
                ∧ r.1 = Ok {| ctx_state := ctx_state this;
                              ctx_body := Some out |}
        end
    end.
Proof.
  intros Hpath Hp Hmiss Hread merged explicit r.
  split; [|split].
  { unfold chosen_layout. fold explicit. by intros ->. }
  { unfold chosen_layout. fold explicit. by destruct explicit. }
  pose proof (prepared_intro fs tpl w _ w1 Hpath) as Hprep.
  set (w2 := (render_partials fs w1).2) in *.
  assert (layout_path (w_hbs w2) = layout_path (w_hbs w)) as Hlp.
  { destruct Hprep as (Hh & _). by rewrite Hh. }
  unfold r. rewrite (render_eval fs this tpl locals w p w1) by done.
  fold merged w2.
  rewrite (render_load_miss fs tpl p merged _ raw)
    by (by eauto using prepared_miss).
  rewrite Hlp. unfold layout_source.
  destruct (chosen_layout merged raw) as [layout|].
  - destruct (bool_decide (layout = JBool false)).
    + set (w3 := store_layout _ _ _ _).
      destruct (finish_with_layout fs this tpl merged w3 raw "{{{body}}}")
        as (body & wc & out & wd & Hbody & Hout & Hfin).
      { simpl. by rewrite lookup_insert_eq. }
      pose proof (finish_cache fs this tpl merged w3) as Hcache.
      rewrite Hfin in Hcache |- *. cbn [fst snd] in Hcache |- *. split.
      * rewrite Hcache. simpl. by rewrite lookup_insert_eq.
      * exists (logged [ETemplate merged] (with_koa this w3)), body, wc, out.
        split_and!; [exact Hbody|exact Hout|done].
    + destruct (layout_path (w_hbs w) layout) as [file|]; [|done].
      destruct (readFile fs file) as [rawLayout|]; [|done].
      set (w3 := store_layout _ _ _ _).
      destruct (finish_with_layout fs this tpl merged w3 raw rawLayout)
        as (body & wc & out & wd & Hbody & Hout & Hfin).
      { simpl. by rewrite lookup_insert_eq. }
      pose proof (finish_cache fs this tpl merged w3) as Hcache.
      rewrite Hfin in Hcache |- *. cbn [fst snd] in Hcache |- *. split.
      * rewrite Hcache. simpl. by rewrite lookup_insert_eq.
      * exists (logged [ETemplate merged] (with_koa this w3)), body, wc, out.
        split_and!; [exact Hbody|exact Hout|done].
  - rewrite finish_cache. simpl. by rewrite lookup_insert_eq.
Qed.

(** *** The default layout *)

Lemma cacheLayout_fail fs w file :
  truthy (Hbs.defaultLayout (w_hbs w)) = true →
  layout_path (w_hbs w) (JStr (Hbs.defaultLayout (w_hbs w))) = Some file →
  readFile fs file = None →
  cacheLayout fs None w
  = (Ok None,
     logged [EConsoleError (LError (FsError file))]
            (logged [EReadFile file] w)).
Proof.
  intros Hdefault Hpath Hread. unfold cacheLayout, bind at 1, get_hbs at 1.
  cbv beta iota. simpl default. rewrite Hdefault. simpl.
  unfold try_catch, bind at 1. rewrite loadLayoutFile_eq, Hpath, Hread.
  done.
Qed.

Lemma getLayoutTemplate_fail fs w file :
  Hbs.disableCache (w_hbs w) = true ∨ Hbs.layoutTemplate (w_hbs w) = None →
  truthy (Hbs.defaultLayout (w_hbs w)) = true →
  layout_path (w_hbs w) (JStr (Hbs.defaultLayout (w_hbs w))) = Some file →
  readFile fs file = None →
  ∃ wa, getLayoutTemplate fs w = (Ok None, wa)
        ∧ w_log wa
          = ((w_log w ++ [EReadFile file])
             ++ [EConsoleError (LError (FsError file))])%list.
Proof.
  intros Hslot Hdefault Hpath Hread.
  unfold getLayoutTemplate, bind at 1, get_hbs at 1. cbv beta iota.
  assert (Hbs.disableCache (w_hbs w)
          || negb (bool_decide (is_Some (Hbs.layoutTemplate (w_hbs w)))) = true)
    as ->.
  { destruct Hslot as [->| ->]; [done|].
    rewrite bool_decide_eq_false_2 by (by intros [? ?]).
    by rewrite orb_true_r. }
  unfold bind at 1, bind at 1. rewrite (cacheLayout_fail fs w file) by done.
  eexists. split; reflexivity.
Qed.

(** C3, on the code: with a default layout configured whose file cannot
    be read, a render that falls through to the default layout (no layout in
    the data, no directive in the source, nothing in the default-layout slot
    or caching disabled) logs the failure and then fails with a
    [TypeError]: the absent layout template is called. *)
Theorem default_layout_failure fs this tpl locals w p w1 raw file :
  render_path fs tpl w = (Ok (Some p), w1) → truthy p = true →
  Hbs.disableCache (w_hbs w) = true ∨ Hbs.cache (w_hbs w) !! tpl = None →
  readFile fs p = Some raw →
  chosen_layout (merged_locals (w_hbs w) this locals) raw = None →
  Hbs.disableCache (w_hbs w) = true ∨ Hbs.layoutTemplate (w_hbs w) = None →
  truthy (Hbs.defaultLayout (w_hbs w)) = true →
  layout_path (w_hbs w) (JStr (Hbs.defaultLayout (w_hbs w))) = Some file →
  readFile fs file = None →
  ∃ w' d,
    render fs this tpl locals w
    = (Throw (TypeError "layoutTemplate is not a function"), w')
    ∧ w_log w' = (w_log w ++ d)%list
    ∧ EConsoleError (LError (FsError file)) ∈ d.
Proof.
  intros Hpath Hp Hmiss Hread Hnone Hslot Hdefault Hfile Hreadl.
  set (merged := merged_locals (w_hbs w) this locals) in *.
  pose proof (prepared_intro fs tpl w _ w1 Hpath) as Hprep.
  set (w2 := (render_partials fs w1).2) in *.
  rewrite (render_eval fs this tpl locals w p w1) by done.
  fold merged w2.
  rewrite (render_load_miss fs tpl p merged _ raw)
    by (by eauto using prepared_miss).
  rewrite Hnone. set (w3 := loaded tpl p raw w2).
  destruct Hprep as (Hh & _ & _ & d12 & Hlog12 & _).
  destruct (getLayoutTemplate_fail fs w3 file) as (wa & Hlt & Hloga).
  { unfold w3. simpl. by rewrite Hh. }
  { unfold w3. simpl. by rewrite Hh. }
  { unfold w3. simpl. change (layout_path (Hbs.set_cache ?c ?h) ?l)
      with (layout_path h l). by rewrite Hh. }
  { done. }
  rewrite (render_finish_eval fs this tpl merged w3 (entry_of raw None))
    by (simpl; by rewrite lookup_insert_eq).
  simpl Entry.layoutTemplate. rewrite Hlt. cbv beta iota zeta.
  set (wb := logged [ETemplate merged] (with_koa this wa)).
  pose proof (run_evolves
                (Entry.template (entry_of raw None) (Hbs.partials (w_hbs wb))
                   merged (Hbs.templateOptions (w_hbs wb))) wb)
    as [d5 Hlog5]%evolves_log.
  destruct (run_returns
              (Entry.template (entry_of raw None) (Hbs.partials (w_hbs wb))
                 merged (Hbs.templateOptions (w_hbs wb))) wb)
    as [body Hbody].
  destruct (run _ wb) as [r wc]. simpl in Hbody, Hlog5. subst r.
  eexists wc, _. split; [reflexivity|]. split.
  - rewrite Hlog5, Hloga. simpl. rewrite Hlog12.
    rewrite <-!app_assoc. reflexivity.
  - repeat first [apply list_elem_of_here | apply elem_of_app; right].
Qed.

(** *** A template that is not found *)

Lemma getTemplatePath_loop_none fs tpl roots w :
  (∀ root, root ∈ roots →
     statSync fs (path_join root (tpl +:+ Hbs.extname (w_hbs w))) = false) →
  ∃ w', getTemplatePath_loop fs tpl roots w = (Ok None, w')
        ∧ w_hbs w' = w_hbs w.
Proof.
  revert w. induction roots as [|root roots IH]; intros w Hstat; simpl.
  - by exists w.
  - unfold bind at 1, get_hbs at 1. cbv beta iota.
    unfold bind at 1, emit at 1. cbv beta iota. simpl w_hbs.
    rewrite Hstat by left.
    destruct (IH (logged [EStat (path_join root
                                   (tpl +:+ Hbs.extname (w_hbs w)))] w))
      as (w' & Hloop & Hh).
    { intros r Hr. apply Hstat. by right. }
    exists w'. by split.
Qed.

(** C8, on the code: a render of a plain name that is not absolute, has
    no path in the path cache and no file under any view path throws the
    missing-template error, and the payload of the error is [undefined]:
    neither the name nor a path.  (A name of [Object.prototype] never gets
    there: [cache[tpl]] is the inherited member and the render goes on
    without a path.) *)
Theorem missing_template fs this tpl locals w :
  plain_name tpl →
  path_isAbsolute tpl = false →
  default ∅ (Hbs.pathCache (w_hbs w)) !! tpl = None →
  (∀ root, root ∈ Hbs.viewPath (w_hbs w) →
     statSync fs (path_join root (tpl +:+ Hbs.extname (w_hbs w))) = false) →
  (render fs this tpl locals w).1
  = Throw (MissingTemplateError "The template specified does not exist."
                                JUndefined).
Proof.
  intros _ Habs Hcache Hstat. rewrite render_unfold. unfold bind at 1.
  assert (∃ w1, render_path fs tpl w = (Ok None, w1)) as [w1 ->]; [|done].
  unfold render_path, bind at 1, getTemplatePath.
  unfold bind at 1, get_hbs at 1. cbv beta iota zeta.
  unfold bind at 1, update_hbs at 1. cbv beta iota. rewrite Hcache.
  destruct (getTemplatePath_loop_none fs tpl (Hbs.viewPath (w_hbs w))
    {| w_hbs :=
         Hbs.set_pathCache (Some (default ∅ (Hbs.pathCache (w_hbs w))))
                           (w_hbs w);
       w_arrays := w_arrays w; w_next := w_next w; w_log := w_log w |})
    as (w1 & -> & _); [done|].
  unfold bind, get_hbs, ret. rewrite Habs. by eexists.
Qed.

End Claims.

(** ** The caches *)

Section Cache.
Context `{!Platform} `{!Engine}.

Lemma cached_ext tpl w w' :
  same_caches (w_hbs w) (w_hbs w') → cached tpl w → cached tpl w'.
Proof.
  intros (Hd & Hp & He & Hc & Hl). unfold cached.
  by rewrite Hd, Hp, He, Hc, Hl.
Qed.

Lemma cached_frame (F : Hbs.t → Hbs.t → Prop) (P : Event → Prop) tpl w w' :
  (∀ h h', F h h' → same_caches h h') →
  evolves F P w w' → cached tpl w → cached tpl w'.
Proof. intros HF [HFw _]. apply cached_ext. by apply HF. Qed.

Lemma pathCache_eta w pc :
  Hbs.pathCache (w_hbs w) = Some pc →
  {| w_hbs := Hbs.set_pathCache (Some pc) (w_hbs w);
     w_arrays := w_arrays w; w_next := w_next w; w_log := w_log w |} = w.
Proof. by intros <-. Qed.

(** A name in the path cache is resolved without a look at the disk. *)
Lemma getTemplatePath_hit fs tpl w pc p :
  Hbs.pathCache (w_hbs w) = Some pc → pc !! tpl = Some p → truthy p = true →
  getTemplatePath fs tpl w = (Ok (Some p), w).
Proof.
  intros Hpc Hp Htruthy. unfold getTemplatePath, bind, get_hbs, update_hbs.
  simpl. rewrite Hpc. simpl. rewrite Hp, Htruthy.
  unfold ret. by rewrite pathCache_eta.
Qed.

Lemma cached_path fs tpl w :
  cached tpl w →
  ∃ p, render_path fs tpl w = (Ok (Some p), w) ∧ truthy p = true.
Proof.
  intros (_ & (pc & p & Hpc & Hp & Htruthy) & Habs & _).
  unfold render_path, bind at 1.
  rewrite (getTemplatePath_hit fs tpl w pc p) by done.
  unfold bind, get_hbs, ret. destruct (path_isAbsolute tpl).
  - eexists. split; [done|]. by apply Habs.
  - by exists p.
Qed.

(** The partials are not looked for again once registered, and there is
    nothing to look for without a root. *)
Lemma render_partials_registered fs w :
  Hbs.disableCache (w_hbs w) = false →
  Hbs.partialsRegistered (w_hbs w) = true →
  render_partials fs w = (Ok tt, w).
Proof.
  intros Hd Hr. unfold render_partials, bind, get_hbs. simpl.
  by rewrite Hd, Hr.
Qed.

Lemma registerPartials_no_roots fs w :
  Hbs.partialsPath (w_hbs w) = PArray [] →
  registerPartials fs w = (Ok tt, w).
Proof.
  intros Hpp. unfold registerPartials, bind, get_hbs, try_catch. simpl.
  rewrite Hpp. simpl. by rewrite Hpp.
Qed.

Lemma render_partials_no_roots fs w :
  Hbs.partialsPath (w_hbs w) = PArray [] →
  render_partials fs w = (Ok tt, w).
Proof.
  intros Hpp. unfold render_partials, bind, get_hbs. simpl.
  destruct (_ || _); [|done]. by apply registerPartials_no_roots.
Qed.

(** The default layout is not built again once it is there. *)
Lemma getLayoutTemplate_hit fs w t :
  Hbs.disableCache (w_hbs w) = false →
  Hbs.layoutTemplate (w_hbs w) = Some t →
  getLayoutTemplate fs w = (Ok (Some t), w).
Proof.
  intros Hd Hl. unfold getLayoutTemplate, bind, get_hbs. simpl.
  rewrite Hd, Hl. simpl. by rewrite Hl.
Qed.

Lemma getLayoutTemplate_result fs w r wa :
  getLayoutTemplate fs w = (Ok r, wa) → Hbs.layoutTemplate (w_hbs wa) = r.
Proof.
  unfold getLayoutTemplate. unfold bind at 1, get_hbs at 1. cbv beta iota.
  destruct (_ || _).
  - unfold bind at 1, bind at 1.
    destruct (cacheLayout fs None w) as [[t|e] w1]; [|done].
    unfold update_hbs, bind, get_hbs, ret. simpl. by intros [= <- <-].
  - unfold bind, get_hbs, ret. simpl. by intros [= <- <-].
Qed.

(** The calls of the engine, for a name that is cached. *)
Lemma finish_quiet fs this tpl locals w :
  cached tpl w →
  ∃ ctx w' d,
    render_finish fs this tpl locals w = (Ok ctx, w')
    ∧ w_log w' = (w_log w ++ d)%list
    ∧ Forall is_template_event d.
Proof.
  intros (Hd & _ & _ & entry & Hentry & Hlayout).
  rewrite (render_finish_eval fs this tpl locals w entry Hentry).
  assert (∃ lt, match Entry.layoutTemplate entry with
                | Some t => (Ok (Some t), w)
                | None => getLayoutTemplate fs w
                end = (Ok (Some lt), w)) as [lt ->].
  { destruct (Entry.layoutTemplate entry) as [t|]; [by exists t|].
    destruct Hlayout as [[? [=]]|[t Ht]]. exists t.
    by apply getLayoutTemplate_hit. }
  cbv beta iota zeta.
  set (wb := logged [ETemplate locals] (with_koa this w)).
  pose proof (run_evolves
                (Entry.template entry (Hbs.partials (w_hbs wb)) locals
                                (Hbs.templateOptions (w_hbs wb))) wb)
    as (_ & d1 & Hlog1 & Hd1).
  destruct (run_returns
              (Entry.template entry (Hbs.partials (w_hbs wb)) locals
                              (Hbs.templateOptions (w_hbs wb))) wb)
    as [body Hbody].
  destruct (run _ wb) as [r wc]. simpl in Hbody, Hlog1. subst r.
  set (wl := logged [ELayout (<["body" := JStr body]> locals)] wc).
  pose proof (run_evolves
                (lt (Hbs.partials (w_hbs wb)) (<["body" := JStr body]> locals)
                    (Hbs.templateOptions (w_hbs wb))) wl)
    as (_ & d2 & Hlog2 & Hd2).
  destruct (run_returns
              (lt (Hbs.partials (w_hbs wb)) (<["body" := JStr body]> locals)
                  (Hbs.templateOptions (w_hbs wb))) wl)
    as [out Hout].
  destruct (run _ wl) as [r wd]. simpl in Hout, Hlog2. subst r.
  eexists _, wd,
    ([ETemplate locals] ++ d1
     ++ [ELayout (<["body" := JStr body]> locals)] ++ d2)%list.
  split; [reflexivity|]. split.
  - rewrite Hlog2, Hlog1. by rewrite <-!app_assoc.
  - repeat (apply Forall_app; split); try done.
    + by repeat constructor.
    + eapply Forall_impl; [done|]. by intros [].
    + by repeat constructor.
    + eapply Forall_impl; [done|]. by intros [].
Qed.

(** A render of a cached name: after the step of the partials nothing
    goes to the file system and nothing is compiled, and the caches are not
    written. *)
Lemma cached_quiet fs this tpl locals w :
  cached tpl w →
  ∃ ctx w' dt,
    render fs this tpl locals w = (Ok ctx, w')
    ∧ w_log w' = (w_log (render_partials fs w).2 ++ dt)%list
    ∧ Forall is_template_event dt
    ∧ Hbs.pathCache (w_hbs w') = Hbs.pathCache (w_hbs w)
    ∧ Hbs.cache (w_hbs w') = Hbs.cache (w_hbs w)
    ∧ (Hbs.partialsRegistered (w_hbs w) = true
       ∨ Hbs.partialsPath (w_hbs w) = PArray [] →
       render_partials fs w = (Ok tt, w)).
Proof.
  intros Hcached. pose proof Hcached as (Hd & _ & _ & entry & Hentry & _).
  destruct (cached_path fs tpl w Hcached) as (p & Hpath & Hp).
  rewrite (render_eval fs this tpl locals w p w) by done.
  set (merged := merged_locals (w_hbs w) this locals).
  pose proof (render_partials_frame fs w) as Hframe.
  set (w2 := (render_partials fs w).2) in *.
  assert (cached tpl w2) as Hcached2.
  { eapply (cached_frame only_partials); [|apply Hframe|done].
    unfold same_caches. intros h h' Hh. by rewrite Hh. }
  rewrite render_load_hit; [|apply Hcached2|].
  2:{ destruct Hcached2 as (_ & _ & _ & e & -> & _). by eexists. }
  pose proof (finish_shape fs this tpl merged w2) as ((Hk1 & Hk2 & _) & _).
  destruct (finish_quiet fs this tpl merged w2 Hcached2)
    as (ctx & w' & dt & Hfinish & Hlog & Hdt).
  rewrite Hfinish in Hk1, Hk2 |- *. simpl in Hk1, Hk2.
  destruct Hframe as ((Hh & _) & _). unfold only_partials in Hh.
  exists ctx, w', dt. split_and!; try done.
  - rewrite Hk2, Hh. done.
  - rewrite Hk1, Hh. done.
  - intros [Hr|Hr].
    + by apply render_partials_registered.
    + by apply render_partials_no_roots.
Qed.

(** *** The caches are kept by every render *)

Lemma cached_emit tpl e : pres (cached tpl) (emit e).
Proof. intros w Hw. by apply (cached_ext tpl w). Qed.

Lemma cached_getTemplatePath_loop fs tpl tpl' roots :
  tpl' ≠ tpl → pres (cached tpl) (getTemplatePath_loop fs tpl' roots).
Proof.
  intros Hne. induction roots as [|root roots IH]; intros w; simpl.
  - apply pres_ret.
  - apply pres_get. apply pres_bind; [apply cached_emit|]. intros _ w1 _.
    destruct (statSync fs _); [|apply IH].
    apply pres_bind; [|intros; apply pres_ret].
    destruct (Hbs.disableCache _); [apply pres_ret|].
    intros (Hd & (pc & p & Hpc & Hp & Htruthy) & Habs & Hentry).
    split_and!; try done. simpl. rewrite Hpc. simpl.
    exists (<[tpl' := path_join root (tpl' +:+ Hbs.extname (w_hbs w))]> pc), p.
    by rewrite lookup_insert_ne.
Qed.

Lemma cached_getTemplatePath fs tpl tpl' :
  pres (cached tpl) (getTemplatePath fs tpl').
Proof.
  intros w Hcached.
  pose proof Hcached as (_ & (pc & p & Hpc & Hp & Htruthy) & _).
  destruct (decide (tpl' = tpl)) as [->|Hne].
  { by rewrite (getTemplatePath_hit fs tpl w pc p). }
  revert Hcached. unfold getTemplatePath. apply pres_get. apply pres_bind.
  { intros Hc. unfold update_hbs. simpl. rewrite Hpc. simpl.
    by rewrite pathCache_eta. }
  intros _ w1 _. destruct (_ !! tpl') as [p'|]; [destruct (truthy p')|].
  - apply pres_ret.
  - by apply cached_getTemplatePath_loop.
  - by apply cached_getTemplatePath_loop.
Qed.

Lemma cached_render_path fs tpl tpl' : pres (cached tpl) (render_path fs tpl').
Proof.
  intros w. unfold render_path.
  apply pres_bind; [apply cached_getTemplatePath|].
  intros tp w1 _. apply pres_get. apply pres_ret.
Qed.

Lemma cached_render_partials fs tpl : pres (cached tpl) (render_partials fs).
Proof.
  intros w Hw. eapply (cached_frame only_partials); [| |done].
  - unfold same_caches. intros h h' Hh. by rewrite Hh.
  - apply render_partials_frame.
Qed.

Lemma cached_quiet_step {A} (m : M A) tpl :
  (∀ w, frame eq is_load_event w (m w).2) → pres (cached tpl) m.
Proof.
  intros Hm w Hw. eapply (cached_frame eq); [|apply Hm|done].
  by intros h h' <-.
Qed.

Lemma cached_store_other tpl tpl' entry :
  tpl' ≠ tpl →
  pres (cached tpl)
       (update_hbs (λ h, Hbs.set_cache (<[tpl' := entry]> (Hbs.cache h)) h)).
Proof.
  intros Hne w (Hd & Hpath & Habs & e & He & Hl).
  split_and!; try done. exists e. simpl. by rewrite lookup_insert_ne.
Qed.

Lemma cached_render_load fs tpl tpl' p locals :
  pres (cached tpl) (render_load fs tpl' p locals).
Proof.
  intros w Hcached. destruct (decide (tpl' = tpl)) as [->|Hne].
  { rewrite render_load_hit; [done|apply Hcached|].
    destruct Hcached as (_ & _ & _ & e & -> & _). by eexists. }
  revert Hcached. unfold render_load. apply pres_get.
  destruct (_ || _); [|apply pres_ret].
  apply pres_bind; [apply cached_quiet_step, read_shape|].
  intros raw w1 _.
  apply pres_bind; [apply cached_quiet_step, compile_shape|].
  intros template w2 _. apply pres_bind; [by apply cached_store_other|].
  intros _ w3 _. destruct (_ || _); [|apply pres_ret].
  apply pres_bind; [|intros; by apply cached_store_other].
  destruct (negb _); [|apply cached_quiet_step, compile_shape].
  apply pres_bind; [apply cached_quiet_step, loadLayoutFile_shape|].
  intros rawLayout w4 _. apply cached_quiet_step, compile_shape.
Qed.

Lemma cached_getLayoutTemplate fs tpl : pres (cached tpl) (getLayoutTemplate fs).
Proof.
  intros w Hcached.
  pose proof Hcached as (Hd & Hpath & Habs & e & He & Hl).
  destruct (Hbs.layoutTemplate (w_hbs w)) as [t|] eqn:Hslot.
  { by rewrite (getLayoutTemplate_hit fs w t). }
  destruct Hl as [Hl|[? [=]]].
  pose proof (getLayoutTemplate_shape fs w) as ((Hh & _) & _).
  unfold only_layoutTemplate in Hh. unfold cached. rewrite Hh. simpl.
  split_and!; try done. exists e. split; [done|by left].
Qed.

Lemma cached_run tpl p : pres (cached tpl) (run p).
Proof.
  intros w Hw. eapply (cached_frame only_blocks); [|apply run_evolves|done].
  unfold same_caches. intros h h' Hh. by rewrite Hh.
Qed.

Lemma cached_render_finish fs this tpl tpl' locals :
  pres (cached tpl) (render_finish fs this tpl' locals).
Proof.
  intros w. unfold render_finish. apply pres_get.
  destruct (_ !! tpl') as [entry|]; [|apply pres_throw].
  cbv zeta. apply pres_bind.
  { destruct (Entry.layoutTemplate entry); [apply pres_ret|].
    apply cached_getLayoutTemplate. }
  intros lt w1 _. apply pres_bind; [intros Hw; by apply (cached_ext tpl w1)|].
  intros _ w2 _. apply pres_get. apply pres_bind; [apply cached_emit|].
  intros _ w3 _. apply pres_bind; [apply cached_run|].
  intros body w4 _. destruct lt as [lt|]; [|apply pres_throw].
  apply pres_bind; [apply cached_emit|].
  intros _ w5 _. apply pres_bind; [apply cached_run|].
  intros; apply pres_ret.
Qed.

Lemma cached_render fs this tpl tpl' locals :
  pres (cached tpl) (render fs this tpl' locals).
Proof.
  apply render_pres.
  - apply cached_render_path.
  - apply cached_render_partials.
  - intros; apply cached_render_load.
  - intros; apply cached_render_finish.
Qed.

Lemma cached_renders tpl calls w :
  cached tpl w → cached tpl (renders calls w).
Proof.
  revert w. induction calls as [|c calls IH]; intros w Hw; simpl; [done|].
  apply IH. by apply cached_render.
Qed.

(** *** A render that returns fills the caches *)

Lemma getTemplatePath_loop_caches fs tpl roots w p w' :
  Hbs.disableCache (w_hbs w) = false →
  getTemplatePath_loop fs tpl roots w = (Ok (Some p), w') →
  ∃ pc, Hbs.pathCache (w_hbs w') = Some pc ∧ pc !! tpl = Some p.
Proof.
  revert w. induction roots as [|root roots IH]; intros w Hd; simpl; [done|].
  unfold bind at 1, get_hbs at 1. cbv beta iota.
  unfold bind at 1, emit at 1. cbv beta iota.
  destruct (statSync fs _).
  - rewrite Hd. unfold bind, update_hbs, ret. simpl. intros [= <- <-].
    simpl. eexists. split; [done|]. by rewrite lookup_insert_eq.
  - by apply IH.
Qed.

Lemma getTemplatePath_caches fs tpl w p w' :
  Hbs.disableCache (w_hbs w) = false →
  getTemplatePath fs tpl w = (Ok (Some p), w') →
  ∃ pc, Hbs.pathCache (w_hbs w') = Some pc ∧ pc !! tpl = Some p.
Proof.
  intros Hd. unfold getTemplatePath. unfold bind at 1, get_hbs at 1.
  cbv beta iota zeta. unfold bind at 1, update_hbs at 1. cbv beta iota.
  destruct (default ∅ (Hbs.pathCache (w_hbs w)) !! tpl) as [p0|] eqn:Hp0.
  - destruct (truthy p0).
    + unfold ret. intros [= <- <-]. simpl. by eexists.
    + by apply getTemplatePath_loop_caches.
  - by apply getTemplatePath_loop_caches.
Qed.

Lemma cached_intro fs this tpl locals w p ctx w' :
  Hbs.disableCache (w_hbs w) = false →
  (getTemplatePath fs tpl w).1 = Ok (Some p) → truthy p = true →
  render fs this tpl locals w = (Ok ctx, w') →
  cached tpl w'.
Proof.
  intros Hd Hresolved Htruthy Hrender.
  apply render_inv in Hrender
    as (p' & w1 & w2 & w3 & Hpath & Hp' & Hpartials & Hload & Hfinish).
  (* the path *)
  assert (getTemplatePath fs tpl w = (Ok (Some p), w1)
          ∧ (path_isAbsolute tpl = true →
             truthy (tpl +:+ Hbs.extname (w_hbs w1)) = true))
    as [Hgtp Habs].
  { revert Hpath. unfold render_path, bind at 1.
    destruct (getTemplatePath fs tpl w) as [[tp|e] w0]; [|done].
    simpl in Hresolved. injection Hresolved as ->.
    unfold bind, get_hbs, ret. intros [= Hp1 <-]. split; [done|].
    intros Ha. rewrite Ha in Hp1. injection Hp1 as <-. done. }
  destruct (getTemplatePath_caches fs tpl w p w1 Hd Hgtp) as (pc & Hpc & Hp).
  pose proof (render_path_frame fs tpl w) as ((Hf1 & _) & _).
  pose proof (render_partials_frame fs w1) as ((Hf2 & _) & _).
  pose proof (render_load_shape fs tpl p' (merged_locals (w_hbs w1) this locals)
                                w2) as ((Hf3 & _) & _).
  pose proof (finish_shape fs this tpl (merged_locals (w_hbs w1) this locals) w3)
    as ((Hk1 & Hk2 & Hk3 & Hk4 & _) & _).
  rewrite Hpath in Hf1. rewrite Hpartials in Hf2. rewrite Hload in Hf3.
  rewrite Hfinish in Hk1, Hk2, Hk3, Hk4.
  unfold only_pathCache, only_partials, only_cache in *. simpl in *.
  assert (Hbs.disableCache (w_hbs w3) = Hbs.disableCache (w_hbs w1)) as Hs1.
  { rewrite Hf3. simpl. by rewrite Hf2. }
  assert (Hbs.pathCache (w_hbs w3) = Hbs.pathCache (w_hbs w1)) as Hs2.
  { rewrite Hf3. simpl. by rewrite Hf2. }
  assert (Hbs.extname (w_hbs w3) = Hbs.extname (w_hbs w1)) as Hs3.
  { rewrite Hf3. simpl. by rewrite Hf2. }
  apply render_finish_inv in Hfinish
    as (entry & lt & wa & body & wc & out & Hentry & Hlt & [Hbody Hout] & _).
  unfold cached. rewrite Hk3, Hk2, Hk4, Hk1, Hs1, Hs2, Hs3.
  split_and!.
  - rewrite Hf1. done.
  - by exists pc, p.
  - done.
  - exists entry. split; [done|].
    destruct (Entry.layoutTemplate entry) as [t|]; [left; by eexists|].
    right. apply getLayoutTemplate_result in Hlt.
    pose proof (run_evolves
      (Entry.template entry
         (Hbs.partials
            (w_hbs (logged [ETemplate (merged_locals (w_hbs w1) this locals)]
                           (with_koa this wa))))
         (merged_locals (w_hbs w1) this locals)
         (Hbs.templateOptions
            (w_hbs (logged [ETemplate (merged_locals (w_hbs w1) this locals)]
                           (with_koa this wa)))))
      (logged [ETemplate (merged_locals (w_hbs w1) this locals)]
              (with_koa this wa))) as [Hb1 _].
    rewrite Hbody in Hb1.
    pose proof (run_evolves
      (lt (Hbs.partials
             (w_hbs (logged [ETemplate (merged_locals (w_hbs w1) this locals)]
                            (with_koa this wa))))
          (<["body" := JStr body]> (merged_locals (w_hbs w1) this locals))
          (Hbs.templateOptions
             (w_hbs (logged [ETemplate (merged_locals (w_hbs w1) this locals)]
                            (with_koa this wa)))))
      (logged [ELayout (<["body" := JStr body]>
                          (merged_locals (w_hbs w1) this locals))] wc))
      as [Hb2 _].
    rewrite Hout in Hb2. unfold only_blocks in *. simpl in *.
    rewrite Hb2, Hb1. simpl. rewrite Hlt. by eexists.
Qed.

(** C2: with caching enabled, once a name has been resolved to a path
    and rendered, every later render of that name on the instance, after any
    other renders, returns, and after the step of the partials (which does
    nothing once the partials are registered, or without a root to scan) it
    logs only calls of the compiled templates and of their helpers: no
    [stat], no read of the template or of a layout, no compilation.  The
    path cache and the template cache are as they were. *)
Theorem cache_reuse fs0 this0 locals0 tpl w0 p ctx0 w1 calls fs this locals :
  Hbs.disableCache (w_hbs w0) = false →
  (getTemplatePath fs0 tpl w0).1 = Ok (Some p) → truthy p = true →
  render fs0 this0 tpl locals0 w0 = (Ok ctx0, w1) →
  let w2 := renders calls w1 in
  ∃ ctx w3 dt,
    render fs this tpl locals w2 = (Ok ctx, w3)
    ∧ w_log w3 = (w_log (render_partials fs w2).2 ++ dt)%list
    ∧ Forall is_template_event dt
    ∧ Hbs.pathCache (w_hbs w3) = Hbs.pathCache (w_hbs w2)
    ∧ Hbs.cache (w_hbs w3) = Hbs.cache (w_hbs w2)
    ∧ (Hbs.partialsRegistered (w_hbs w2) = true
       ∨ Hbs.partialsPath (w_hbs w2) = PArray [] →
       render_partials fs w2 = (Ok tt, w2)).
Proof.
  intros Hd Hresolved Htruthy Hrender w2.
  apply cached_quiet, cached_renders.
  by eapply cached_intro.
Qed.

End Cache.

(** ** The errors of a render *)

Section Throws.
Context {P : Error → Prop}.

Lemma throws_returns {A} (m : M A) : returns m → throws_only P m.
Proof. intros Hm w e w' Hthrow. destruct (Hm w) as [a Ha]. by rewrite Hthrow in Ha. Qed.

Lemma throws_throw {A} e : P e → throws_only P (@throw A e).
Proof. intros He w e' w' [= <- _]. done. Qed.

Lemma throws_bind {A B} (m : M A) (k : A → M B) :
  throws_only P m → (∀ a, throws_only P (k a)) → throws_only P (bind m k).
Proof.
  intros Hm Hk w e w'. unfold bind.
  destruct (m w) as [[a|e1] w1] eqn:Hmw.
  - apply Hk.
  - intros [= <- _]. by eapply Hm.
Qed.

Lemma throws_get {A} (k : Hbs.t → M A) :
  (∀ h, throws_only P (k h)) → throws_only P (bind get_hbs k).
Proof. intros Hk w. apply Hk. Qed.

End Throws.

Section Errors.
Context `{!Platform} `{!Engine}.

Lemma read_throws fs file : throws_only payload_empty (read fs file).
Proof.
  apply throws_bind; [apply throws_returns, returns_emit|]. intros _.
  destruct (readFile fs file); [apply throws_returns, returns_ret|].
  by apply throws_throw.
Qed.

Lemma compile_throws src : throws_only payload_empty (handlebars_compile src).
Proof.
  apply throws_bind; [apply throws_returns, returns_emit|]. intros _.
  apply throws_returns, returns_ret.
Qed.

Lemma loadLayoutFile_throws fs layout :
  throws_only payload_empty (loadLayoutFile fs layout).
Proof.
  apply throws_bind; [|intros file; apply read_throws].
  apply throws_get; intros h. destruct (truthy _).
  - apply throws_returns, returns_ret.
  - destruct (Hbs.viewPath h); [by apply throws_throw|].
    apply throws_returns, returns_ret.
Qed.

Lemma render_load_throws fs tpl p locals :
  throws_only payload_empty (render_load fs tpl p locals).
Proof.
  apply throws_get; intros h.
  destruct (_ || _); [|apply throws_returns, returns_ret].
  apply throws_bind; [apply read_throws|]. intros raw.
  apply throws_bind; [apply compile_throws|]. intros template.
  apply throws_bind; [apply throws_returns, returns_update|]. intros _.
  destruct (_ || _); [|apply throws_returns, returns_ret].
  apply throws_bind; [|intros t; apply throws_returns, returns_update].
  destruct (negb _); [|apply compile_throws].
  apply throws_bind; [apply loadLayoutFile_throws|]. intros rawLayout.
  apply compile_throws.
Qed.

Lemma render_finish_throws fs this tpl locals :
  throws_only payload_empty (render_finish fs this tpl locals).
Proof.
  apply throws_get; intros h.
  destruct (Hbs.cache h !! tpl) as [entry|]; [|by apply throws_throw].
  apply throws_bind.
  { destruct (Entry.layoutTemplate entry).
    - apply throws_returns, returns_ret.
    - apply throws_returns, getLayoutTemplate_returns. }
  intros layoutTemplate.
  apply throws_bind; [apply throws_returns, returns_update|]. intros _.
  apply throws_get; intros h'.
  apply throws_bind; [apply throws_returns, returns_emit|]. intros _.
  apply throws_bind; [apply throws_returns, run_returns|]. intros body.
  destruct layoutTemplate as [t|]; [|by apply throws_throw].
  apply throws_bind; [apply throws_returns, returns_emit|]. intros _.
  apply throws_bind; [apply throws_returns, run_returns|]. intros out.
  apply throws_returns, returns_ret.
Qed.

Lemma render_throws fs this tpl locals :
  throws_only payload_empty (render fs this tpl locals).
Proof.
  intros w e w' Hthrow. rewrite render_unfold in Hthrow.
  revert w e w' Hthrow.
  refine (throws_bind _ _ _ _).
  { apply throws_returns, render_path_returns. }
  intros [p|]; [|apply throws_throw; by left].
  destruct (truthy p) eqn:Hp; simpl.
  - apply throws_get; intros h.
    apply throws_bind; [apply throws_returns, render_partials_returns|].
    intros _. apply throws_bind; [apply render_load_throws|]. intros _.
    apply render_finish_throws.
  - apply throws_throw. right. f_equal.
    unfold truthy in Hp. apply negb_false_iff in Hp.
    by apply bool_decide_eq_true in Hp.
Qed.

(** Whatever the name and the data, a missing-template error thrown by
    [render] carries [undefined] or the empty string: the variable handed to
    the constructor is the one that was just tested to be falsy. *)
Lemma render_missing_payload fs this tpl locals w msg extra w' :
  render fs this tpl locals w = (Throw (MissingTemplateError msg extra), w') →
  extra = JUndefined ∨ extra = JStr "".
Proof. apply (render_throws fs this tpl locals w). Qed.


End Errors.
(** * Further properties of the code *)

(** ** [merge] *)

Section MergeLaws.
Context {V : Type} `{!IsNull V}.

(** X1: [merge] is the union of the two objects over their own keys, the
    second object winning: a key that the second object has is read from
    it, whatever the value (an own key holding [undefined] still wins), and
    any other key is read from the first.  The one exception is the key
    [__proto__]: the assignment that would copy it goes to the setter that
    the new object inherits, so the result has that key in one case only,
    when the second object holds [null] under it (which takes the setter
    away) and the first object has the key too. *)
Theorem merge_own_keys (obj1 obj2 : gmap string V) :
  (∀ k v, k ≠ "__proto__" → obj2 !! k = Some v →
          merge obj1 obj2 !! k = Some v)
  ∧ (∀ k, k ≠ "__proto__" → obj2 !! k = None →
          merge obj1 obj2 !! k = obj1 !! k)
  ∧ merge obj1 obj2 !! "__proto__"
    = (if null_at obj2 "__proto__" then obj1 !! "__proto__" else None)
  ∧ dom (merge obj1 obj2) ∖ {["__proto__"]}
    =@{gset string} (dom obj1 ∪ dom obj2) ∖ {["__proto__"]}
  ∧ (obj1 !! "__proto__" = None → obj2 !! "__proto__" = None →
     merge obj1 obj2 = obj2 ∪ obj1).
Proof.
  split_and!.
  - intros k v Hp Hk. by rewrite merge_lookup_ne, Hk.
  - intros k Hp Hk. by rewrite merge_lookup_ne, Hk.
  - by rewrite merge_lookup.
  - apply set_eq; intros k.
    rewrite !elem_of_difference, elem_of_union, !elem_of_dom.
    rewrite not_elem_of_singleton.
    split; intros [Hk Hp]; (split; [|done]); rewrite merge_lookup_ne in *
      by done.
    + destruct (obj2 !! k); [right; by eexists|by left].
    + destruct (obj2 !! k); [by eexists|]. by destruct Hk as [?|[? ?]].
  - apply merge_union.
Qed.

(** X2: merging is associative, so the overlay of several objects does not
    depend on how the calls of [merge] are nested.  Merging an object with
    the empty object, on either side, gives the object without the key
    [__proto__]: on objects that have no such own key, the empty object is
    the unit of [merge] on both sides, and merging an object with itself
    gives it back. *)
Theorem merge_assoc_unit (a b c : gmap string V) :
  merge a (merge b c) = merge (merge a b) c
  ∧ merge ∅ a = delete "__proto__" a
  ∧ merge a ∅ = delete "__proto__" a
  ∧ (a !! "__proto__" = None → merge ∅ a = a ∧ merge a ∅ = a ∧ merge a a = a).
Proof.
  assert (merge ∅ a = delete "__proto__" a) as Hleft.
  { apply map_eq; intros k. rewrite merge_lookup. case_bool_decide as Hk.
    - subst. rewrite lookup_empty, lookup_delete_eq.
      by destruct (null_at a "__proto__").
    - rewrite lookup_empty, lookup_delete_ne by done. by destruct (a !! k). }
  assert (merge a ∅ = delete "__proto__" a) as Hright.
  { apply map_eq; intros k. rewrite merge_lookup. case_bool_decide as Hk.
    - subst. unfold null_at. by rewrite lookup_empty, lookup_delete_eq.
    - by rewrite lookup_empty, lookup_delete_ne. }
  split_and!; [|done..|].
  - apply map_eq; intros k. rewrite !merge_lookup.
    case_bool_decide as Hk.
    + subst. rewrite null_at_merge.
      by destruct (null_at c "__proto__"), (null_at b "__proto__").
    + by destruct (c !! k).
  - intros Ha. rewrite Hleft, Hright, delete_id by done.
    split_and!; [done..|]. rewrite merge_union by done.
    apply (idemp_L _).
Qed.

End MergeLaws.

(** ** [rLayoutPattern] *)

Lemma append_nil_inv a b : a +:+ b = "" → b = "".
Proof. destruct a; [done|discriminate]. Qed.

(** X4: [exec] captures the name of the leftmost marker: the source splits
    into a prefix and a rest that starts with a marker of that name, and no
    marker starts inside the prefix. *)
Theorem rLayoutPattern_exec_leftmost src name :
  rLayoutPattern_exec src = Some name
  ↔ ∃ pre rest,
      src = pre +:+ rest ∧ is_marker rest name
      ∧ ∀ skipped tail other,
          pre = skipped +:+ tail → tail ≠ "" →
          ¬ is_marker (tail +:+ rest) other.
Proof.
  split.
  - induction src as [|c s IH]; rewrite rLayoutPattern_exec_unfold.
    + destruct (rLayoutPattern_at "") eqn:Hat; [|discriminate].
      intros [= ->]. exists "", "". split_and!; [done| |].
      * by apply rLayoutPattern_at_spec.
      * intros skipped tail other Heq Hne.
        symmetry in Heq. by apply append_nil_inv in Heq.
    + destruct (rLayoutPattern_at (String c s)) eqn:Hat.
      * intros [= ->]. exists "", (String c s). split_and!; [done| |].
        -- by apply rLayoutPattern_at_spec.
        -- intros skipped tail other Heq Hne.
           symmetry in Heq. by apply append_nil_inv in Heq.
      * intros (pre & rest & -> & Hm & Hleft)%IH.
        exists (String c pre), rest. split_and!; [done..|].
        intros skipped tail other Heq Hne Hother.
        destruct skipped as [|c' skipped].
        -- change ("" +:+ tail) with tail in Heq. rewrite <-Heq in Hother.
           apply rLayoutPattern_at_spec in Hother.
           change (String c pre +:+ rest) with (String c (pre +:+ rest))
             in Hother.
           congruence.
        -- change (String c' skipped +:+ tail)
             with (String c' (skipped +:+ tail)) in Heq.
           injection Heq as <- ->. by eapply Hleft.
  - intros (pre & rest & -> & Hm & Hleft).
    induction pre as [|c pre IH].
    + by apply rLayoutPattern_exec_at, rLayoutPattern_at_spec.
    + change (String c pre +:+ rest) with (String c (pre +:+ rest)).
      rewrite rLayoutPattern_exec_unfold.
      destruct (rLayoutPattern_at (String c (pre +:+ rest))) as [other|]
        eqn:Hat.
      * exfalso. apply (Hleft "" (String c pre) other); [done..|].
        by apply rLayoutPattern_at_spec.
      * apply IH. intros skipped tail other Heq Hne.
        apply (Hleft (String c skipped) tail other); [|done].
        simpl. by rewrite Heq.
Qed.

(** ** [configure] and [middleware] *)

Lemma or_default_nonempty s d : d ≠ "" → or_default s d ≠ "".
Proof.
  intros Hd. unfold or_default. destruct (truthy s) eqn:Hs; [|done].
  by apply truthy_true.
Qed.

Lemma truthy_path_given options roots :
  viewPath_given options roots
  ↔ ∃ vp, truthy_path (opt_viewPath (default no_options options)) = Some vp
          ∧ roots = match vp with PArray a => a | PString s => [s] end.
Proof.
  unfold viewPath_given. split.
  - intros (o & -> & Hvp). simpl.
    destruct (opt_viewPath o) as [[s|a]|]; [| |done].
    + destruct Hvp as [Hs ->]. exists (PString s). simpl.
      by rewrite (proj2 (truthy_true s)).
    + subst. by exists (PArray a).
  - intros (vp & Hvp & ->). destruct options as [o|]; [|done].
    exists o. split; [done|]. simpl in Hvp.
    destruct (opt_viewPath o) as [[s|a]|]; simpl in Hvp; [| |done].
    + destruct (truthy s) eqn:Hs; [|done]. injection Hvp as <-.
      split; [|done]. by apply truthy_true.
    + by injection Hvp as <-.
Qed.

Section Setup.
Context `{!Platform} `{!Engine}.

(** X5: [middleware] (and [configure], which it calls first) throws
    [BadOptionsError] exactly when the options give no view path (no options,
    no [viewPath], or the empty string), and then the instance is as it was
    and no handler is made.  Otherwise the instance is configured with the
    listed roots (an empty array is accepted), and in the handler returned
    [ctx.render] is the renderer with [this] the context. *)
Theorem middleware_requires_viewPath (A : Type) options w :
  (∀ roots, viewPath_given options roots →
     ∃ handler h,
       middleware (A := A) options w = (Ok handler, set_hbs h w)
       ∧ configure options (w_hbs w) = Ok h
       ∧ Hbs.viewPath h = roots
       ∧ ∀ ctx next, handler ctx next = next (λ fs, render fs ctx))
  ∧ ((∀ roots, ¬ viewPath_given options roots) →
     let e := BadOptionsError "The option `viewPath` must be specified."
                              JUndefined in
     middleware (A := A) options w = (Throw e, w)
     ∧ configure options (w_hbs w) = Throw e).
Proof.
  split.
  - intros roots (vp & Hvp & ->)%truthy_path_given.
    unfold middleware, bind, hbs_configure, configure. rewrite Hvp.
    eexists _, _. split_and!; reflexivity.
  - intros Hnone e.
    assert (truthy_path (opt_viewPath (default no_options options)) = None)
      as Hvp.
    { destruct (truthy_path _) as [vp|] eqn:Hvp; [|done].
      exfalso. eapply Hnone, truthy_path_given. by exists vp. }
    unfold middleware, bind, hbs_configure, configure. by rewrite Hvp.
Qed.

End Setup.

(** X6: after [configure] the extension and the two helper names are not
    empty and the partials path is not the empty string (an empty option
    falls back to its default), the view roots are a list, and the template
    cache, the block store and the mark of the registered partials are
    reset. *)
Theorem configure_defaults options h h' :
  configure options h = Ok h' →
  Hbs.extname h' ≠ "" ∧ Hbs.contentHelperName h' ≠ ""
  ∧ Hbs.blockHelperName h' ≠ ""
  ∧ Hbs.partialsPath h' ≠ PString ""
  ∧ (opt_extname (default no_options options) = Some ""
     ∨ opt_extname (default no_options options) = None →
     Hbs.extname h' = ".hbs")
  ∧ Hbs.partialsRegistered h' = false
  ∧ Hbs.cache h' = ∅ ∧ Hbs.blocks h' = ∅.
Proof.
  unfold configure. destruct (truthy_path (opt_viewPath _)) as [vp|]; [|done].
  intros [= <-]. simpl. split_and!; try done.
  - by apply or_default_nonempty.
  - by apply or_default_nonempty.
  - by apply or_default_nonempty.
  - destruct (opt_partialsPath _) as [[s|a]|]; simpl; [|done..].
    destruct (truthy s) eqn:Hs; [|done]. intros [= ->]. done.
  - intros [-> | ->]; reflexivity.
Qed.

(** ** [getTemplatePath] *)

Section Resolution.
Context `{!Platform} `{!Engine}.

Lemma getTemplatePath_loop_found fs tpl before root after w :
  (∀ r, r ∈ before → statSync fs (template_file (w_hbs w) tpl r) = false) →
  statSync fs (template_file (w_hbs w) tpl root) = true →
  getTemplatePath_loop fs tpl (before ++ root :: after) w
  = (Ok (Some (template_file (w_hbs w) tpl root)),
     {| w_hbs :=
          if Hbs.disableCache (w_hbs w) then w_hbs w
          else Hbs.set_pathCache
                 (Some (<[tpl := template_file (w_hbs w) tpl root]>
                          (default ∅ (Hbs.pathCache (w_hbs w))))) (w_hbs w);
        w_arrays := w_arrays w; w_next := w_next w;
        w_log := (w_log w ++ stats (w_hbs w) tpl (before ++ [root]))%list |}).
Proof.
  revert w. induction before as [|r before IH]; intros w Hbefore Hroot.
  - simpl. unfold bind, get_hbs, emit, template_file in *. rewrite Hroot.
    by destruct (Hbs.disableCache (w_hbs w)).
  - simpl. unfold bind at 1, get_hbs at 1. cbv beta iota.
    unfold bind at 1, emit at 1. cbv beta iota.
    pose proof (Hbefore r ltac:(left)) as Hr. unfold template_file in Hr.
    rewrite Hr. fold (template_file (w_hbs w) tpl r).
    rewrite IH; simpl; [|intros r' Hr'; apply Hbefore; by right|done].
    by rewrite <-app_assoc.
Qed.

Lemma getTemplatePath_loop_missing fs tpl roots w :
  (∀ r, r ∈ roots → statSync fs (template_file (w_hbs w) tpl r) = false) →
  getTemplatePath_loop fs tpl roots w
  = (Ok None, logged (stats (w_hbs w) tpl roots) w).
Proof.
  revert w. induction roots as [|r roots IH]; intros w Hroots.
  - simpl. unfold ret, logged. by rewrite app_nil_r.
  - simpl. unfold bind at 1, get_hbs at 1. cbv beta iota.
    unfold bind at 1, emit at 1. cbv beta iota.
    pose proof (Hroots r ltac:(left)) as Hr. unfold template_file in Hr.
    rewrite Hr. fold (template_file (w_hbs w) tpl r).
    rewrite IH; simpl; [|intros r' Hr'; apply Hroots; by right].
    unfold logged. simpl. by rewrite <-app_assoc.
Qed.

(** X9: a plain name that has no cached path is looked up under the view
    roots in their order: the path under the first root where [stat]
    succeeds is returned, the roots before it (and no other) were tried, and
    the path goes into the path cache exactly when caching is enabled. *)
Theorem getTemplatePath_first_root fs tpl w before root after :
  plain_name tpl →
  default ∅ (Hbs.pathCache (w_hbs w)) !! tpl = None →
  Hbs.viewPath (w_hbs w) = (before ++ root :: after)%list →
  (∀ r, r ∈ before → statSync fs (template_file (w_hbs w) tpl r) = false) →
  statSync fs (template_file (w_hbs w) tpl root) = true →
  let found := template_file (w_hbs w) tpl root in
  let r := getTemplatePath fs tpl w in
  r.1 = Ok (Some found)
  ∧ w_log r.2 = (w_log w ++ stats (w_hbs w) tpl (before ++ [root]))%list
  ∧ Hbs.pathCache (w_hbs r.2)
    = Some (if Hbs.disableCache (w_hbs w)
            then default ∅ (Hbs.pathCache (w_hbs w))
            else <[tpl := found]> (default ∅ (Hbs.pathCache (w_hbs w)))).
Proof.
  intros _ Hcache Hroots Hbefore Hroot found r.
  assert (r = getTemplatePath_loop fs tpl (before ++ root :: after)
                {| w_hbs := Hbs.set_pathCache
                              (Some (default ∅ (Hbs.pathCache (w_hbs w))))
                              (w_hbs w);
                   w_arrays := w_arrays w; w_next := w_next w;
                   w_log := w_log w |}) as ->.
  { unfold r, getTemplatePath, bind at 1, get_hbs at 1. cbv beta iota zeta.
    unfold bind at 1, update_hbs at 1. cbv beta iota.
    by rewrite Hcache, Hroots. }
  rewrite getTemplatePath_loop_found; [|exact Hbefore|exact Hroot]. simpl.
  split_and!; [done..|]. by destruct (Hbs.disableCache (w_hbs w)).
Qed.

(** X10: a plain name that is found under no view root yields [undefined]
    after one [stat] per root, and the miss is not remembered: the path
    cache has no entry for the name afterwards, so the next call looks
    again. *)
Theorem getTemplatePath_miss fs tpl w :
  plain_name tpl →
  default ∅ (Hbs.pathCache (w_hbs w)) !! tpl = None →
  (∀ r, r ∈ Hbs.viewPath (w_hbs w) →
        statSync fs (template_file (w_hbs w) tpl r) = false) →
  let r := getTemplatePath fs tpl w in
  r.1 = Ok None
  ∧ w_log r.2 = (w_log w ++ stats (w_hbs w) tpl (Hbs.viewPath (w_hbs w)))%list
  ∧ Hbs.pathCache (w_hbs r.2) = Some (default ∅ (Hbs.pathCache (w_hbs w)))
  ∧ default ∅ (Hbs.pathCache (w_hbs r.2)) !! tpl = None.
Proof.
  intros _ Hcache Hroots r.
  assert (r = getTemplatePath_loop fs tpl (Hbs.viewPath (w_hbs w))
                {| w_hbs := Hbs.set_pathCache
                              (Some (default ∅ (Hbs.pathCache (w_hbs w))))
                              (w_hbs w);
                   w_arrays := w_arrays w; w_next := w_next w;
                   w_log := w_log w |}) as ->.
  { unfold r, getTemplatePath, bind at 1, get_hbs at 1. cbv beta iota zeta.
    unfold bind at 1, update_hbs at 1. cbv beta iota.
    by rewrite Hcache. }
  rewrite getTemplatePath_loop_missing; [|exact Hroots]. simpl.
  split_and!; done.
Qed.

(** X11: with caching enabled, a path that was returned once is returned
    by every later call for the name without any [stat], whatever the file
    system has become: a file that is deleted or shadowed afterwards is not
    noticed. *)
Theorem getTemplatePath_memo fs tpl w p w1 :
  Hbs.disableCache (w_hbs w) = false →
  getTemplatePath fs tpl w = (Ok (Some p), w1) → truthy p = true →
  ∀ fs', getTemplatePath fs' tpl w1 = (Ok (Some p), w1).
Proof.
  intros Hcache Hfound Hp fs'.
  destruct (getTemplatePath_caches fs tpl w p w1 Hcache Hfound)
    as (pc & Hpc & Hlookup).
  by apply (getTemplatePath_hit fs' tpl w1 pc p).
Qed.

(** X7: [configure] does not touch the path cache: after a second
    [configure], whatever view path it gives, a name that was resolved
    before is still resolved to its old path, without any [stat]. *)
Theorem reconfigure_keeps_paths fs options tpl w w1 pc p :
  hbs_configure options w = (Ok tt, w1) →
  Hbs.pathCache (w_hbs w) = Some pc → pc !! tpl = Some p → truthy p = true →
  getTemplatePath fs tpl w1 = (Ok (Some p), w1).
Proof.
  unfold hbs_configure, configure.
  destruct (truthy_path _) as [vp|]; [|done]. intros [= <-] Hpc Hlookup Hp.
  by apply (getTemplatePath_hit fs tpl _ pc p).
Qed.

(** X8: [configure] does not touch the default layout template either:
    once one has been loaded, a second [configure] that names another
    default layout (with caching enabled) changes nothing, the old template
    is handed out without any read. *)
Theorem reconfigure_keeps_default_layout fs options w w1 t :
  hbs_configure options w = (Ok tt, w1) →
  Hbs.layoutTemplate (w_hbs w) = Some t →
  Hbs.disableCache (w_hbs w1) = false →
  getLayoutTemplate fs w1 = (Ok (Some t), w1).
Proof.
  unfold hbs_configure, configure.
  destruct (truthy_path _) as [vp|]; [|done]. intros [= <-] Ht Hcache.
  by apply getLayoutTemplate_hit.
Qed.

(** ** Layouts *)

(** X12: a layout is read from one place only, the layouts path when there
    is one and else the first view root: the other view roots are never
    searched.  The name is the value turned into a string, a failed read is
    the error of the file system, and the instance does not change. *)
Theorem loadLayoutFile_single_location fs layout w root others :
  Hbs.viewPath (w_hbs w) = root :: others →
  let dir := if truthy (Hbs.layoutsPath (w_hbs w))
             then Hbs.layoutsPath (w_hbs w) else root in
  let file := path_join dir (js_toString layout +:+ Hbs.extname (w_hbs w)) in
  loadLayoutFile fs layout w
  = (match readFile fs file with
     | Some rawLayout => Ok rawLayout
     | None => Throw (FsError file)
     end, logged [EReadFile file] w).
Proof.
  intros Hroots dir file. rewrite loadLayoutFile_eq.
  unfold layout_path. rewrite Hroots. unfold file, dir.
  destruct (truthy (Hbs.layoutsPath (w_hbs w)));
    by destruct (readFile fs _).
Qed.

Lemma cacheLayout_eq fs layout w :
  let name := or_default (default "" layout) (Hbs.defaultLayout (w_hbs w)) in
  cacheLayout fs layout w
  = if truthy name then
      match layout_path (w_hbs w) (JStr name) with
      | None =>
          (Ok None,
           logged [EConsoleError
                     (LError (TypeError "path.join: the path is undefined"))]
                  w)
      | Some file =>
          match readFile fs file with
          | Some raw =>
              (Ok (Some (compile raw)), logged [EReadFile file; ECompile raw] w)
          | None =>
              (Ok None,
               logged [EReadFile file; EConsoleError (LError (FsError file))]
                      w)
          end
      end
    else (Ok (Some (compile "{{{body}}}")), logged [ECompile "{{{body}}}"] w).
Proof.
  intros name. unfold cacheLayout, bind at 1, get_hbs at 1. cbv beta iota zeta.
  unfold name, or_default.
  destruct (truthy (default "" layout)) eqn:Hl; simpl.
  - rewrite Hl. unfold try_catch, bind at 1. rewrite loadLayoutFile_eq.
    destruct (layout_path _ _) as [file|]; [destruct (readFile fs file)|];
      unfold bind, console_error, handlebars_compile, emit, ret, logged;
      simpl; by rewrite <-?app_assoc.
  - destruct (truthy (Hbs.defaultLayout (w_hbs w))) eqn:Hd; simpl; [|done].
    unfold try_catch, bind at 1. rewrite loadLayoutFile_eq.
    destruct (layout_path _ _) as [file|]; [destruct (readFile fs file)|];
      unfold bind, console_error, handlebars_compile, emit, ret, logged;
      simpl; by rewrite <-?app_assoc.
Qed.

Lemma cacheLayout_logs fs layout w :
  ∃ r d, cacheLayout fs layout w = (Ok r, logged d w) ∧ d ≠ [].
Proof.
  rewrite cacheLayout_eq. cbv zeta.
  destruct (truthy _); [|by eexists _, _].
  destruct (layout_path _ _) as [file|]; [|by eexists _, _].
  destruct (readFile fs file); by eexists _, _.
Qed.

Ltac no_such_event H :=
  repeat (apply elem_of_cons in H as [H|H]; [discriminate H|]);
  apply elem_of_nil in H.

(** X13: [cacheLayout] never throws.  A layout that cannot be loaded is
    reported on the console and [undefined] is returned, and that is the
    only way to get [undefined]; without a layout name and a default layout
    the pass-through template is compiled and no file is touched.  The
    instance does not change. *)
Theorem cacheLayout_never_throws fs layout w :
  ∃ r d,
    cacheLayout fs layout w = (Ok r, logged d w)
    ∧ Forall is_load_event d
    ∧ (r = None ↔ ∃ err, EConsoleError (LError err) ∈ d)
    ∧ (default "" layout = "" → Hbs.defaultLayout (w_hbs w) = "" →
       r = Some (compile "{{{body}}}") ∧ d = [ECompile "{{{body}}}"]).
Proof.
  rewrite cacheLayout_eq. cbv zeta.
  destruct (truthy (or_default _ _)) eqn:Hname.
  - assert (default "" layout = "" → Hbs.defaultLayout (w_hbs w) = "" → False)
      as Hno.
    { intros Hl Hd. unfold or_default in Hname. rewrite Hl, Hd in Hname.
      done. }
    destruct (layout_path _ _) as [file|];
      [destruct (readFile fs file) as [raw|]|]; eexists _, _;
      (split; [reflexivity|]); (split; [by repeat constructor|]);
      (split; [|by intros ? ?; exfalso; auto]).
    + split; [done|]. intros (err & Herr). by no_such_event Herr.
    + split; [|done]. intros _. eexists. apply elem_of_cons. right.
      apply elem_of_cons. by left.
    + split; [|done]. intros _. eexists. apply elem_of_cons. by left.
  - eexists _, _. split; [reflexivity|]. split; [by repeat constructor|].
    split; [|done]. split; [done|]. intros (err & Herr).
    by no_such_event Herr.
Qed.

(** X14: with caching enabled [getLayoutTemplate] loads the default layout
    once: a template that was obtained is handed out again by every later
    call without any read, whatever the file system has become.  A load that
    failed is not remembered: the next call tries again. *)
Theorem getLayoutTemplate_memo fs w :
  Hbs.disableCache (w_hbs w) = false →
  ∃ r w1,
    getLayoutTemplate fs w = (Ok r, w1)
    ∧ match r with
      | Some t => ∀ fs', getLayoutTemplate fs' w1 = (Ok (Some t), w1)
      | None =>
          ∀ fs', ∃ d, d ≠ []
                      ∧ w_log (getLayoutTemplate fs' w1).2
                        = (w_log w1 ++ d)%list
      end.
Proof.
  intros Hcache.
  destruct (getLayoutTemplate_returns fs w) as [r Hr].
  destruct (getLayoutTemplate fs w) as [r' w1] eqn:Hget. simpl in Hr.
  subst r'. exists r, w1. split; [done|].
  pose proof (getLayoutTemplate_result fs w r w1 Hget) as Hfield.
  assert (Hbs.disableCache (w_hbs w1) = false) as Hcache1.
  { pose proof (getLayoutTemplate_shape fs w) as ((Hh & _) & _).
    rewrite Hget in Hh. simpl in Hh. unfold only_layoutTemplate in Hh.
    by rewrite Hh. }
  destruct r as [t|].
  - intros fs'. by apply getLayoutTemplate_hit.
  - intros fs'. unfold getLayoutTemplate, bind at 1, get_hbs at 1.
    cbv beta iota. rewrite Hcache1, Hfield. simpl.
    destruct (cacheLayout_logs fs' None w1) as (r & d & Heq & Hd).
    exists d. split; [done|]. unfold bind. rewrite Heq. done.
Qed.

End Resolution.

(** ** [registerPartials] *)

Lemma promise_all_world {X A} (f : X → M A) (ev : X → Event) xs w :
  (∀ x w', (f x w').2 = logged [ev x] w') →
  (promise_all (map f xs) w).2 = logged (map ev xs) w.
Proof.
  intros Hf. revert w. induction xs as [|x xs IH]; intros w; simpl.
  - by rewrite logged_nil.
  - pose proof (Hf x w) as Hx. pose proof (IH (f x w).2) as Hxs.
    destruct (f x w) as [[a|e] w1]; simpl in *; subst w1.
    + destruct (promise_all (map f xs) _) as [[l|e] w2]; simpl in *;
        subst w2; by rewrite logged_logged.
    + rewrite Hxs. by rewrite logged_logged.
Qed.

Lemma promise_all_error {X A} (f : X → M A) (P : Error → Prop) xs w e w' :
  (∀ x w1 e1 w2, f x w1 = (Throw e1, w2) → P e1) →
  promise_all (map f xs) w = (Throw e, w') → P e.
Proof.
  intros Hf. revert w w'.
  induction xs as [|x xs IH]; intros w w'; simpl; [done|].
  destruct (f x w) as [[a|e1] w1] eqn:Hx.
  - destruct (promise_all (map f xs) w1) as [[l|e2] w2] eqn:Hxs; [done|].
    intros [= <- <-]. by eapply IH.
  - intros [= <- _]. by eapply Hf.
Qed.

Lemma promise_all_fail {X A} (f : X → M A) xs x w :
  x ∈ xs → (∀ w1, ∃ e1, (f x w1).1 = Throw e1) →
  ∃ e, (promise_all (map f xs) w).1 = Throw e.
Proof.
  intros Hin Hx. revert w.
  induction xs as [|y xs IH]; intros w; [by apply elem_of_nil in Hin|].
  simpl. destruct (f y w) as [[a|e1] w1] eqn:Hy; [|by eexists].
  apply elem_of_cons in Hin as [->|Hin].
  - destruct (Hx w) as [e1 He1]. by rewrite Hy in He1.
  - destruct (IH Hin w1) as [e He].
    destruct (promise_all (map f xs) w1) as [[l|e2] w2]; [done|]. by eexists.
Qed.

Lemma promise_all_values {X A} (f : X → M A) xs w l w' :
  promise_all (map f xs) w = (Ok l, w') → length l = length xs.
Proof.
  revert w l w'. induction xs as [|x xs IH]; intros w l w'; simpl.
  - by intros [= <- _].
  - destruct (f x w) as [[a|e1] w1]; [|done].
    destruct (promise_all (map f xs) w1) as [[l1|e2] w2] eqn:Hxs; [|done].
    intros [= <- _]. simpl. f_equal. by eapply IH.
Qed.

(** A log made of mapped lists and listed events has no event of a kind. *)
Ltac quiet_log :=
  rewrite ?Forall_app; split_and?;
  first [ apply Forall_fmap, Forall_true; by intros ? []
        | repeat constructor; by intros [] ].

Section Registration.
Context `{!Platform} `{!Engine}.

Lemma js_glob_world fs pattern cwd w :
  (js_glob fs pattern cwd w).2 = logged [EGlob pattern cwd] w.
Proof. unfold js_glob, bind, emit. simpl. by destruct (glob fs pattern cwd). Qed.

Lemma read_world fs file w : (read fs file w).2 = logged [EReadFile file] w.
Proof. unfold read, bind, emit. simpl. by destruct (readFile fs file). Qed.

Lemma registerPartials_unfold fs w :
  registerPartials fs w
  = (let* h := get_hbs in
     let* _ :=
       match Hbs.partialsPath h with
       | PArray _ => ret tt
       | PString s => update_hbs (Hbs.set_partialsPath (PArray [s]))
       end in
     let* h := get_hbs in
     partials_pass fs h (partial_roots (Hbs.partialsPath h))) w.
Proof. reflexivity. Qed.

(** The outcomes of the pass: the files are registered and the mark is
    set, or nothing but the log changes. *)
Lemma partials_pass_outcome fs h roots w :
  ∃ w' d,
    partials_pass fs h roots w = (Ok tt, w')
    ∧ w_log w' = (w_log w ++ d)%list
    ∧ w_arrays w' = w_arrays w ∧ w_next w' = w_next w
    ∧ ((∃ t, w_hbs w'
             = Hbs.set_partialsRegistered true (Hbs.set_partials t (w_hbs w)))
       ∧ Forall (λ e, ¬ is_console_error e) d
       ∨ w_hbs w' = w_hbs w ∧ Forall (λ e, ¬ is_registration e) d).
Proof.
  unfold partials_pass, try_catch, bind at 1.
  set (pat := "**/*" +:+ Hbs.extname h).
  pose proof (promise_all_world (λ root, js_glob fs pat root) (EGlob pat)
                roots w (λ x w', js_glob_world fs pat x w')) as Hw1.
  destruct (promise_all _ w) as [[rl|e] w1]; simpl in Hw1; subst w1.
  - destruct (bool_decide (length rl = 0)).
    + eexists _, _. split_and!; [reflexivity..|]. right. split; [done|].
      by quiet_log.
    + unfold bind at 1.
      set (files := partial_files roots rl).
      pose proof (promise_all_world (read fs) EReadFile files
                    (logged (map (EGlob pat) roots) w) (read_world fs))
        as Hw2.
      destruct (promise_all _ (logged _ w)) as [[srcs|e] w2];
        simpl in Hw2; subst w2.
      * unfold bind at 1. rewrite for_each_registerPartial.
        eexists _, _. split_and!; [reflexivity|simpl..|].
        { by rewrite <-!app_assoc. }
        { done. }
        { done. }
        left. split; [by eexists|]. by quiet_log.
      * eexists _, _. split_and!; [reflexivity|simpl..|].
        { by rewrite <-!app_assoc. }
        { done. }
        { done. }
        right. split; [done|]. by quiet_log.
  - eexists _, _. split_and!; [reflexivity|simpl..|].
    { by rewrite <-!app_assoc. }
    { done. }
    { done. }
    right. split; [done|]. by quiet_log.
Qed.

(** X15: [registerPartials] never throws and registers all or nothing:
    either every discovered file was registered and [partialsRegistered] is
    set, with nothing written on the console, or no partial was registered
    at all and the table of partials and the mark are as they were.  In both
    cases [partialsPath] is afterwards the array of the roots. *)
Theorem registerPartials_all_or_nothing fs w :
  ∃ w' d,
    registerPartials fs w = (Ok tt, w')
    ∧ w_log w' = (w_log w ++ d)%list
    ∧ Hbs.partialsPath (w_hbs w')
      = PArray (partial_roots (Hbs.partialsPath (w_hbs w)))
    ∧ (Hbs.partialsRegistered (w_hbs w') = true
       ∧ Forall (λ e, ¬ is_console_error e) d
       ∨ Hbs.partials (w_hbs w') = Hbs.partials (w_hbs w)
         ∧ Hbs.partialsRegistered (w_hbs w')
           = Hbs.partialsRegistered (w_hbs w)
         ∧ Forall (λ e, ¬ is_registration e) d).
Proof.
  rewrite registerPartials_unfold. unfold bind at 1, get_hbs at 1.
  cbv beta iota. unfold bind at 1.
  destruct (Hbs.partialsPath (w_hbs w)) as [s|a] eqn:Hpp.
  - unfold update_hbs at 1, bind at 1, get_hbs at 1. cbv beta iota.
    destruct (partials_pass_outcome fs
                (Hbs.set_partialsPath (PArray [s]) (w_hbs w)) [s]
                {| w_hbs := Hbs.set_partialsPath (PArray [s]) (w_hbs w);
                   w_arrays := w_arrays w; w_next := w_next w;
                   w_log := w_log w |})
      as (w' & d & Hpass & Hlog & _ & _ & Hcases).
    simpl in *. rewrite Hpass. exists w', d. split_and!; [done..| |].
    + by destruct Hcases as [[[t ->] _]|[-> _]].
    + destruct Hcases as [[[t Ht] Hd]|[Ht Hd]]; [left|right]; by rewrite Ht.
  - unfold ret at 1, bind at 1, get_hbs at 1. cbv beta iota. rewrite Hpp.
    destruct (partials_pass_outcome fs (w_hbs w) a w)
      as (w' & d & Hpass & Hlog & _ & _ & Hcases).
    simpl. rewrite Hpass. exists w', d. split_and!; [done..| |].
    + by destruct Hcases as [[[t ->] _]|[-> _]].
    + destruct Hcases as [[[t Ht] Hd]|[Ht Hd]]; [left|right]; by rewrite Ht.
Qed.

Lemma registerPartials_pass fs w :
  ∃ w0,
    registerPartials fs w
    = partials_pass fs (w_hbs w0)
                    (partial_roots (Hbs.partialsPath (w_hbs w))) w0
    ∧ w_hbs w0
      = Hbs.set_partialsPath
          (PArray (partial_roots (Hbs.partialsPath (w_hbs w)))) (w_hbs w)
    ∧ w_log w0 = w_log w.
Proof.
  rewrite registerPartials_unfold. unfold bind at 1, get_hbs at 1.
  cbv beta iota. unfold bind at 1.
  destruct (Hbs.partialsPath (w_hbs w)) as [s|a] eqn:Hpp.
  - eexists. split_and!; reflexivity.
  - exists w. unfold ret at 1, bind at 1, get_hbs at 1. cbv beta iota.
    rewrite Hpp. split; [done|]. split; [|done]. simpl. by rewrite <-Hpp.
Qed.

Lemma partials_pass_listing_fails fs h roots w root :
  root ∈ roots → glob fs ("**/*" +:+ Hbs.extname h) root = None →
  ∃ x, partials_pass fs h roots w
       = (Ok tt,
          logged (map (EGlob ("**/*" +:+ Hbs.extname h)) roots
                  ++ partials_report (FsError x)) w).
Proof.
  intros Hin Hglob. unfold partials_pass, try_catch, bind at 1.
  set (pat := "**/*" +:+ Hbs.extname h) in *.
  pose proof (promise_all_world (λ root, js_glob fs pat root) (EGlob pat)
                roots w (λ x w', js_glob_world fs pat x w')) as Hw1.
  destruct (promise_all_fail (λ root, js_glob fs pat root) roots root w Hin)
    as [e He].
  { intros w1. unfold js_glob, bind, emit. simpl. rewrite Hglob. by eexists. }
  destruct (promise_all _ w) as [[rl|e'] w1] eqn:Hall; [done|].
  simpl in He, Hw1. injection He as ->. subst w1.
  assert (∃ x, e = FsError x) as [x ->].
  { eapply (promise_all_error (λ root, js_glob fs pat root)
              (λ e, ∃ x, e = FsError x) roots w e); [|exact Hall].
    intros r w1 e1 w2. unfold js_glob, bind, emit. simpl.
    destruct (glob fs pat r); [done|]. intros [= <- _]. by eexists. }
  exists x. unfold bind, console_error, emit, logged, partials_report. simpl.
  by rewrite <-!app_assoc.
Qed.

Lemma partials_pass_read_fails fs h roots resultList w file :
  Forall2 (λ root result,
             glob fs ("**/*" +:+ Hbs.extname h) root = Some result)
          roots resultList →
  file ∈ partial_files roots resultList → readFile fs file = None →
  ∃ x, partials_pass fs h roots w
       = (Ok tt,
          logged ((map (EGlob ("**/*" +:+ Hbs.extname h)) roots
                   ++ map EReadFile (partial_files roots resultList))
                  ++ partials_report (FsError x)) w).
Proof.
  intros Hglob Hin Hread. unfold partials_pass, try_catch, bind at 1.
  set (pat := "**/*" +:+ Hbs.extname h) in *.
  rewrite (promise_all_ok (λ root, js_glob fs pat root)
             (λ root, default [] (glob fs pat root)) (EGlob pat)).
  2:{ intros root w' Hroot. unfold js_glob, bind, emit. simpl.
      apply list_elem_of_lookup in Hroot as [i Hi].
      destruct (Forall2_lookup_l _ _ _ _ _ Hglob Hi) as (res & _ & Hres).
      by rewrite Hres. }
  assert (map (λ root, default [] (glob fs pat root)) roots = resultList)
    as ->.
  { clear -Hglob. induction Hglob as [|root res roots results Hr _ IH];
      simpl; [done|]. by rewrite Hr, IH. }
  rewrite bool_decide_eq_false_2.
  2:{ intros Hlen. destruct resultList; [|done].
      apply Forall2_nil_inv_r in Hglob as ->. by apply elem_of_nil in Hin. }
  unfold bind at 1.
  set (files := partial_files roots resultList) in *.
  pose proof (promise_all_world (read fs) EReadFile files
                (logged (map (EGlob pat) roots) w) (read_world fs)) as Hw2.
  destruct (promise_all_fail (read fs) files file
              (logged (map (EGlob pat) roots) w) Hin) as [e He].
  { intros w1. unfold read, bind, emit. simpl. rewrite Hread. by eexists. }
  destruct (promise_all _ (logged _ w)) as [[l|e'] w2] eqn:Hall; [done|].
  simpl in He, Hw2. injection He as ->. subst w2.
  assert (∃ x, e = FsError x) as [x ->].
  { eapply (promise_all_error (read fs) (λ e, ∃ x, e = FsError x) files
              _ e); [|exact Hall].
    intros f w1 e1 w2. unfold read, bind, emit. simpl.
    destruct (readFile fs f); [done|]. intros [= <- _]. by eexists. }
  exists x. unfold bind, console_error, emit, logged, partials_report. simpl.
  by rewrite <-!app_assoc.
Qed.

(** X16: when the listing of a partial root fails, or a discovered file
    cannot be read, [registerPartials] reports an error of the file system
    in two lines on the console, registers no partial (not even those whose
    files were read) and does not set [partialsRegistered], so that the next
    render tries again. *)
Theorem registerPartials_failure fs w :
  let pattern := "**/*" +:+ Hbs.extname (w_hbs w) in
  let roots := partial_roots (Hbs.partialsPath (w_hbs w)) in
  (∃ root, root ∈ roots ∧ glob fs pattern root = None)
  ∨ (∃ resultList file,
       Forall2 (λ root result, glob fs pattern root = Some result)
               roots resultList
       ∧ file ∈ partial_files roots resultList
       ∧ readFile fs file = None) →
  ∃ w' d x,
    registerPartials fs w = (Ok tt, w')
    ∧ w_log w' = (w_log w ++ d ++ partials_report (FsError x))%list
    ∧ Forall (λ e, ¬ is_registration e) d
    ∧ Hbs.partials (w_hbs w') = Hbs.partials (w_hbs w)
    ∧ Hbs.partialsRegistered (w_hbs w') = Hbs.partialsRegistered (w_hbs w).
Proof.
  intros pattern roots Hfail.
  destruct (registerPartials_pass fs w) as (w0 & -> & Hh & Hlog).
  fold roots.
  assert (Hbs.extname (w_hbs w0) = Hbs.extname (w_hbs w)) as Hext
    by (by rewrite Hh).
  destruct Hfail as [(root & Hin & Hglob)|(rl & file & Hglob & Hin & Hread)].
  - destruct (partials_pass_listing_fails fs (w_hbs w0) roots w0 root Hin)
      as [x ->]; [by rewrite Hext|].
    eexists _, _, x. split; [reflexivity|]. simpl. rewrite Hlog, Hh.
    split_and!; [done| |done..]. by quiet_log.
  - destruct (partials_pass_read_fails fs (w_hbs w0) roots rl w0 file)
      as [x ->]; [by rewrite Hext|done..|].
    eexists _, _, x. split; [reflexivity|]. simpl. rewrite Hlog, Hh.
    split_and!; [done| |done..]. by quiet_log.
Qed.

Lemma foldl_assign_other (l : list (string * string))
    (t : gmap string string) name :
  name ∉ l.*1 → foldl (λ t np, <[np.1 := np.2]> t) t l !! name = t !! name.
Proof.
  revert t. induction l as [|[n s] l IH]; intros t Hnot; simpl; [done|].
  apply not_elem_of_cons in Hnot as [Hne Hnot].
  rewrite IH by done. by rewrite lookup_insert_ne.
Qed.

Lemma foldl_assign_last (before after : list (string * string))
    (t : gmap string string) name source :
  name ∉ after.*1 →
  foldl (λ t np, <[np.1 := np.2]> t) t (before ++ (name, source) :: after)
  !! name = Some source.
Proof.
  intros Hnot. rewrite foldl_app. simpl.
  rewrite foldl_assign_other by done. by rewrite lookup_insert_eq.
Qed.

(** X17: in a pass in which the listings and the reads succeed, the
    partials are registered file by file in the order of the roots and of
    their listings: of two files that give the same name the later one is
    the partial under that name afterwards.  A name that no file gives keeps
    the partial it had: nothing is ever unregistered. *)
Theorem registerPartials_last_wins fs w roots resultList
    (src : string → string) :
  partial_roots (Hbs.partialsPath (w_hbs w)) = roots →
  Forall2 (λ root result,
             glob fs ("**/*" +:+ Hbs.extname (w_hbs w)) root = Some result)
          roots resultList →
  (∀ file, file ∈ partial_files roots resultList →
           readFile fs file = Some (src file)) →
  let calls := partial_calls src (Hbs.extname (w_hbs w)) roots resultList in
  let w' := (registerPartials fs w).2 in
  (∃ d, w_log w'
        = (w_log w ++ d ++ map (λ np, ERegisterPartial np.1 np.2) calls)%list
        ∧ Forall (λ e, ¬ is_registration e) d)
  ∧ (∀ before name source after,
       calls = (before ++ (name, source) :: after)%list →
       name ∉ after.*1 →
       Hbs.partials (w_hbs w') !! name = Some source)
  ∧ (∀ name, name ∉ calls.*1 →
             Hbs.partials (w_hbs w') !! name
             = Hbs.partials (w_hbs w) !! name).
Proof.
  intros Hroots Hglob Hread calls w'.
  destruct (decide (roots = [])) as [->|Hne].
  - assert (Hbs.partialsPath (w_hbs w) = PArray []) as Hpp.
    { by destruct (Hbs.partialsPath (w_hbs w)); simplify_eq/=. }
    apply Forall2_nil_inv_l in Hglob as ->.
    unfold w', calls. rewrite registerPartials_no_roots by done. simpl.
    split_and!.
    + exists []. by rewrite app_nil_r.
    + intros before name source after Heq. by destruct before.
    + done.
  - unfold w'. rewrite (registerPartials_ok fs w roots resultList src) by done.
    simpl. fold calls. split_and!.
    + eexists. split; [reflexivity|]. by quiet_log.
    + intros before name source after -> Hnot. by apply foldl_assign_last.
    + intros name Hnot. by apply foldl_assign_other.
Qed.

End Registration.

(** ** The block store *)

Section Alias.
Context `{!Platform} `{!Engine}.

(** X18: [content] takes the array of the name before it runs its body.
    When the body itself retrieves the block of that (plain) name, the block
    helper puts a new array under the name, and the fragment is pushed on
    the old one: the fragment that was produced is lost, and the name is
    empty afterwards. *)
Theorem content_after_own_block name (f : string → string) w :
  wf_store w → plain_name name →
  let body := CallInline name (λ val, Done (f val)) in
  let fragment := f (join newline (frags w name)) in
  ∃ w',
    content name (run body) w = (Ok tt, w')
    ∧ w_log w' = (w_log w ++ [EBlock name; EContent name fragment])%list
    ∧ frags w' name = []
    ∧ (block name w').1 = Ok "".
Proof.
  intros [Halloc Hshare] _ body fragment.
  assert (∀ w' : World, frags w' name = [] → (block name w').1 = Ok "")
    as Hempty.
  { intros w' Hw'. rewrite block_eq. simpl. by rewrite Hw'. }
  unfold content, bind at 1, get_hbs at 1. cbv beta iota.
  destruct (Hbs.blocks (w_hbs w) !! name) as [a|] eqn:Ha.
  - unfold bind at 1, ret at 1. cbv beta iota.
    unfold bind at 1, body. simpl run.
    unfold bind at 1, blockHelper, bind at 1. rewrite block_eq.
    cbv beta iota. unfold ret at 1. cbv beta iota. unfold ret at 1.
    cbv beta iota. unfold bind, emit, push. simpl.
    assert (frags w name = default [] (w_arrays w !! a)) as Hfrags.
    { unfold frags. by rewrite Ha. }
    eexists. split; [reflexivity|]. simpl.
    assert (a ≠ w_next w) as Hne.
    { specialize (Halloc name a Ha). lia. }
    assert (frags
              {| w_hbs := Hbs.set_blocks
                            (<[name := w_next w]> (Hbs.blocks (w_hbs w)))
                            (w_hbs w);
                 w_arrays :=
                   <[a := (default [] (<[w_next w := []]> (w_arrays w) !! a)
                           ++ [f (join newline (frags w name))])%list]>
                     (<[w_next w := []]> (w_arrays w));
                 w_next := S (w_next w);
                 w_log := ((w_log w ++ [EBlock name])
                           ++ [EContent name (f (join newline (frags w name)))])
                          %list |} name = []) as Hnow.
    { unfold frags. simpl. rewrite lookup_insert_eq.
      rewrite lookup_insert_ne by done. by rewrite lookup_insert_eq. }
    split_and!; [by rewrite <-app_assoc|exact Hnow|by apply Hempty].
  - unfold bind at 1, bind at 1, new_array at 1. cbv beta iota.
    unfold bind at 1, update_hbs at 1. cbv beta iota. unfold ret at 1.
    cbv beta iota.
    unfold bind at 1, body. simpl run.
    unfold bind at 1, blockHelper, bind at 1. rewrite block_eq.
    cbv beta iota. unfold ret at 1. cbv beta iota. unfold ret at 1.
    cbv beta iota. unfold bind, emit, push. simpl.
    assert (frags w name = []) as Hfrags.
    { unfold frags. by rewrite Ha. }
    eexists. split; [reflexivity|]. simpl.
    match goal with
    | |- _ ∧ frags ?w' name = [] ∧ _ =>
        assert (frags w' name = []) as Hnow
    end.
    { unfold frags. simpl. rewrite lookup_insert_eq.
      rewrite lookup_insert_ne by lia. by rewrite lookup_insert_eq. }
    split_and!; [|exact Hnow|by apply Hempty].
    unfold fragment. rewrite Hfrags. unfold frags at 1. simpl.
    rewrite lookup_insert_eq, lookup_insert_eq. by rewrite <-app_assoc.
Qed.

End Alias.

(** ** [render] *)

Section RenderMore.
Context `{!Platform} `{!Engine}.

Lemma same_config_step (F1 : Hbs.t → Hbs.t → Prop) h0 h h' :
  (∀ h h', F1 h h' → same_config h h') →
  same_config h0 h → F1 h h' → same_config h0 h'.
Proof.
  intros HF (H1 & H2 & H3 & H4 & H5 & H6 & H7 & H8) Hstep.
  destruct (HF h h' Hstep) as (G1 & G2 & G3 & G4 & G5 & G6 & G7 & G8).
  unfold same_config.
  by rewrite G1, G2, G3, G4, G5, G6, G7, G8.
Qed.

Lemma render_config fs this tpl locals w0 :
  pres (evolves same_config (λ _, True) w0) (render fs this tpl locals).
Proof.
  apply render_pres.
  - apply (pres_evolves _ only_pathCache _ is_stat); [|done|].
    + intros h h'. apply same_config_step. intros h1 h2 Hh. by rewrite Hh.
    + apply render_path_frame.
  - apply (pres_evolves _ only_partials _ is_partials_event); [|done|].
    + intros h h'. apply same_config_step. intros h1 h2 Hh. by rewrite Hh.
    + apply render_partials_frame.
  - intros p w1 _. apply (pres_evolves _ only_cache _ is_load_event); [|done|].
    + intros h h'. apply same_config_step. intros h1 h2 Hh. by rewrite Hh.
    + apply render_load_shape.
  - intros w1 _. apply finish_evolves; [| | |done..].
    + intros h h'. apply same_config_step. intros h1 h2 Hh. by rewrite Hh.
    + intros h v Hh. exact Hh.
    + intros h h'. apply same_config_step. intros h1 h2 Hh. by rewrite Hh.
Qed.

Lemma same_config_refl h : same_config h h.
Proof. by repeat split. Qed.

Lemma same_config_trans h0 h h' :
  same_config h0 h → same_config h h' → same_config h0 h'.
Proof. intros Hfirst Hnext. by apply (same_config_step same_config h0 h h'). Qed.

Lemma render_same_config fs this tpl locals w :
  same_config (w_hbs w) (w_hbs (render fs this tpl locals w).2).
Proof.
  apply (render_config fs this tpl locals w w).
  apply evolves_refl, same_config_refl.
Qed.

(** X24: no render changes the configuration of the instance: the view
    roots, the extension, the helper names, the default layout, the layouts
    path, the global locals and the caching switch are after any sequence of
    renders what [configure] made them. *)
Theorem render_keeps_configuration calls w :
  same_config (w_hbs w) (w_hbs (renders calls w)).
Proof.
  revert w. induction calls as [|c calls IH]; intros w; simpl.
  - apply same_config_refl.
  - eapply same_config_trans; [apply render_same_config|apply IH].
Qed.

Lemma renders_disableCache calls w :
  Hbs.disableCache (w_hbs (renders calls w)) = Hbs.disableCache (w_hbs w).
Proof.
  revert w. induction calls as [|c calls IH]; intros w; simpl; [done|].
  rewrite IH.
  by destruct (render_same_config (call_fs c) (call_this c) (call_tpl c)
                 (call_locals c) w) as (_ & _ & _ & _ & _ & _ & _ & ?).
Qed.


Lemma render_load_fresh fs tpl p locals w :
  Hbs.disableCache (w_hbs w) = true ∨ Hbs.cache (w_hbs w) !! tpl = None →
  let r := render_load fs tpl p locals w in
  ∃ d, w_log r.2 = (w_log w ++ EReadFile p :: d)%list
       ∧ match readFile fs p with
         | None => r.1 = Throw (FsError p)
         | Some raw =>
             (∃ d', d = ECompile raw :: d')
             ∧ Entry.template <$> Hbs.cache (w_hbs r.2) !! tpl
               = Some (compile raw)
         end.
Proof.
  intros Hmiss r. destruct (readFile fs p) as [raw|] eqn:Hread.
  - unfold r. rewrite (render_load_miss fs tpl p locals w raw) by done.
    destruct (chosen_layout locals raw) as [layout|].
    + destruct (bool_decide (layout = JBool false)).
      { eexists. simpl. rewrite <-!app_assoc. split; [reflexivity|].
        split; [by eexists|]. by rewrite lookup_insert_eq. }
      destruct (layout_path (w_hbs w) layout) as [file|].
      * destruct (readFile fs file) as [rawLayout|];
          eexists; simpl; rewrite <-!app_assoc;
          (split; [reflexivity|]); (split; [by eexists|]);
          by rewrite lookup_insert_eq.
      * exists [ECompile raw]. simpl. rewrite <-!app_assoc.
        split; [reflexivity|]. split; [by eexists|].
        by rewrite lookup_insert_eq.
    + exists [ECompile raw]. simpl. rewrite <-!app_assoc.
      split; [reflexivity|]. split; [by eexists|].
      by rewrite lookup_insert_eq.
  - assert (r = (Throw (FsError p), logged [EReadFile p] w)) as ->.
    { unfold r, render_load, bind at 1, get_hbs at 1. cbv beta iota.
      assert (Hbs.disableCache (w_hbs w)
              || negb (bool_decide (is_Some (Hbs.cache (w_hbs w) !! tpl)))
              = true) as ->.
      { destruct Hmiss as [->| ->]; [done|].
        rewrite bool_decide_eq_false_2 by (by intros [? ?]).
        by rewrite orb_true_r. }
      unfold bind at 1, read, bind at 1, emit at 1. cbv beta iota.
      by rewrite Hread. }
    exists []. by split.
Qed.

(** X20: with caching disabled nothing is reused: after any renders, a
    render whose template path is [p] reads [p] again; when the read fails
    the render fails with the error of the file system, and otherwise the
    source just read is compiled and is the template of the name in the
    cache. *)
Theorem render_uncached_reads calls fs this tpl locals w p w1 :
  Hbs.disableCache (w_hbs w) = true →
  let w0 := renders calls w in
  render_path fs tpl w0 = (Ok (Some p), w1) → truthy p = true →
  let r := render fs this tpl locals w0 in
  ∃ d, w_log r.2 = (w_log w0 ++ d)%list
       ∧ EReadFile p ∈ d
       ∧ match readFile fs p with
         | None => r.1 = Throw (FsError p)
         | Some raw =>
             ECompile raw ∈ d
             ∧ Entry.template <$> Hbs.cache (w_hbs r.2) !! tpl
               = Some (compile raw)
         end.
Proof.
  intros Hoff w0 Hpath Hp r.
  assert (Hbs.disableCache (w_hbs w0) = true) as Hoff0.
  { unfold w0. by rewrite renders_disableCache. }
  pose proof (prepared_intro fs tpl w0 _ w1 Hpath) as Hprep.
  set (w2 := (render_partials fs w1).2) in *.
  set (merged := merged_locals (w_hbs w0) this locals).
  assert (Hbs.disableCache (w_hbs w2) = true
          ∨ Hbs.cache (w_hbs w2) !! tpl = None) as Hmiss.
  { eapply prepared_miss; [exact Hprep|by left]. }
  destruct Hprep as (_ & _ & _ & d0 & Hlog2 & _).
  destruct (render_load_fresh fs tpl p merged w2 Hmiss) as (d1 & Hlog3 & Hcase).
  unfold r. rewrite (render_eval fs this tpl locals w0 p w1) by done.
  fold w2 merged.
  destruct (render_load fs tpl p merged w2) as [[[]|e] w3] eqn:Hload;
    simpl in Hlog3, Hcase.
  - pose proof (finish_shape fs this tpl merged w3) as Hfin.
    apply evolves_log in Hfin as [d2 Hlog4].
    exists (d0 ++ EReadFile p :: d1 ++ d2)%list.
    split; [by rewrite Hlog4, Hlog3, Hlog2, <-!app_assoc|].
    split; [apply elem_of_app; right; by left|].
    destruct (readFile fs p) as [raw|]; [|done].
    destruct Hcase as [[d' ->] Hentry]. split.
    + apply elem_of_app. right. right. by left.
    + by rewrite finish_cache.
  - exists (d0 ++ EReadFile p :: d1)%list. simpl.
    split; [by rewrite Hlog3, Hlog2, <-!app_assoc|].
    split; [apply elem_of_app; right; by left|].
    destruct (readFile fs p) as [raw|]; [|by injection Hcase as ->].
    destruct Hcase as [[d' ->] Hentry]. split; [|done].
    apply elem_of_app. right. right. by left.
Qed.

(** X21: with caching enabled, when the layout that the data or the
    directive names cannot be read, the render fails with the error of the
    file system, and the template stays in the cache without a layout.  Every
    later render of the name then skips the choice of a layout altogether
    (the data and the directive are not looked at, the missing file is not
    tried again) and renders with the default layout. *)
Theorem failed_layout_poisons_cache fs this tpl locals w p w1 raw layout file :
  render_path fs tpl w = (Ok (Some p), w1) → truthy p = true →
  Hbs.disableCache (w_hbs w) = false → Hbs.cache (w_hbs w) !! tpl = None →
  readFile fs p = Some raw →
  chosen_layout (merged_locals (w_hbs w) this locals) raw = Some layout →
  layout ≠ JBool false →
  layout_path (w_hbs w) layout = Some file → readFile fs file = None →
  ∃ w',
    render fs this tpl locals w = (Throw (FsError file), w')
    ∧ Hbs.cache (w_hbs w') !! tpl = Some (entry_of raw None)
    ∧ ∀ fs' this' locals' p' w1',
        render_path fs' tpl w' = (Ok (Some p'), w1') → truthy p' = true →
        render fs' this' tpl locals' w'
        = render_finish fs' this' tpl (merged_locals (w_hbs w') this' locals')
                        (render_partials fs' w1').2.
Proof.
  intros Hpath Hp Hon Hnone Hread Hlayout Hfalse Hfile Hmissing.
  pose proof (prepared_intro fs tpl w _ w1 Hpath) as Hprep.
  set (w2 := (render_partials fs w1).2) in *.
  assert (layout_path (w_hbs w2) = layout_path (w_hbs w)) as Hlp.
  { destruct Hprep as (Hh & _). by rewrite Hh. }
  assert (Hbs.disableCache (w_hbs w2) = false) as Hon2.
  { destruct Hprep as (Hh & _). by rewrite Hh. }
  rewrite (render_eval fs this tpl locals w p w1) by done. fold w2.
  rewrite (render_load_miss fs tpl p _ _ raw)
    by (by eauto using prepared_miss).
  rewrite Hlayout, bool_decide_eq_false_2, Hlp, Hfile, Hmissing by done.
  eexists. split; [reflexivity|].
  split; [simpl; by rewrite lookup_insert_eq|].
  intros fs' this' locals' p' w1' Hpath' Hp'.
  rewrite (render_eval fs' this' tpl locals' _ p' w1') by done.
  pose proof (prepared_intro fs' tpl _ _ w1' Hpath') as (Hh & _).
  rewrite render_load_hit; [done| |].
  - rewrite Hh. simpl. exact Hon2.
  - rewrite Hh. simpl. rewrite lookup_insert_eq. by eexists.
Qed.

End RenderMore.

(** ** The caches across renders *)

Section Stable.
Context `{!Platform} `{!Engine}.

Lemma entry_kept_frame (F : Hbs.t → Hbs.t → Prop) (P : Event → Prop)
    tpl entry w w' :
  (∀ h h', F h h' → Hbs.disableCache h' = Hbs.disableCache h
                    ∧ Hbs.cache h' = Hbs.cache h) →
  evolves F P w w' → entry_kept tpl entry w → entry_kept tpl entry w'.
Proof.
  intros HF [Hh _] [Hd He]. destruct (HF _ _ Hh) as [Hd' Hc'].
  unfold entry_kept. by rewrite Hd', Hc'.
Qed.

Lemma entry_kept_quiet {A} (m : M A) tpl entry :
  (∀ w, frame eq is_load_event w (m w).2) → pres (entry_kept tpl entry) m.
Proof.
  intros Hm w Hw. eapply (entry_kept_frame eq); [|apply Hm|done].
  by intros h h' <-.
Qed.

Lemma entry_kept_store_other tpl tpl' entry entry' :
  tpl' ≠ tpl →
  pres (entry_kept tpl entry)
       (update_hbs (λ h, Hbs.set_cache (<[tpl' := entry']> (Hbs.cache h)) h)).
Proof.
  intros Hne w [Hd He]. split; [done|]. simpl. by rewrite lookup_insert_ne.
Qed.

Lemma entry_kept_render_load fs tpl tpl' entry p locals :
  pres (entry_kept tpl entry) (render_load fs tpl' p locals).
Proof.
  intros w Hkept. destruct (decide (tpl' = tpl)) as [->|Hne].
  { rewrite render_load_hit; [done|apply Hkept|].
    destruct Hkept as [_ ->]. by eexists. }
  revert Hkept. unfold render_load. apply pres_get.
  destruct (_ || _); [|apply pres_ret].
  apply pres_bind; [apply entry_kept_quiet, read_shape|].
  intros raw w1 _.
  apply pres_bind; [apply entry_kept_quiet, compile_shape|].
  intros template w2 _. apply pres_bind; [by apply entry_kept_store_other|].
  intros _ w3 _. destruct (_ || _); [|apply pres_ret].
  apply pres_bind; [|intros; by apply entry_kept_store_other].
  destruct (negb _); [|apply entry_kept_quiet, compile_shape].
  apply pres_bind; [apply entry_kept_quiet, loadLayoutFile_shape|].
  intros rawLayout w4 _. apply entry_kept_quiet, compile_shape.
Qed.

Lemma entry_kept_render fs this tpl tpl' entry locals :
  pres (entry_kept tpl entry) (render fs this tpl' locals).
Proof.
  apply render_pres.
  - intros w Hw. eapply (entry_kept_frame only_pathCache);
      [|apply render_path_frame|done].
    intros h h' Hh. by rewrite Hh.
  - intros w Hw. eapply (entry_kept_frame only_partials);
      [|apply render_partials_frame|done].
    intros h h' Hh. by rewrite Hh.
  - intros p w1 _. apply entry_kept_render_load.
  - intros w1 _ w Hw. eapply (entry_kept_frame finish_keeps);
      [|apply finish_shape|done].
    by intros h h' (-> & _ & -> & _).
Qed.

Lemma path_kept_loop fs tpl tpl' p roots :
  tpl' ≠ tpl → pres (path_kept tpl p) (getTemplatePath_loop fs tpl' roots).
Proof.
  intros Hne. induction roots as [|root roots IH]; intros w; simpl.
  - apply pres_ret.
  - apply pres_get. apply pres_bind; [by intros ?|]. intros _ w1 _.
    destruct (statSync fs _); [|apply IH].
    apply pres_bind; [|intros; apply pres_ret].
    destruct (Hbs.disableCache _); [apply pres_ret|].
    intros [Hp Htruthy]. split; [|done]. simpl. by rewrite lookup_insert_ne.
Qed.

Lemma path_kept_getTemplatePath fs tpl tpl' p :
  pres (path_kept tpl p) (getTemplatePath fs tpl').
Proof.
  intros w Hkept. pose proof Hkept as [Hp Htruthy].
  destruct (Hbs.pathCache (w_hbs w)) as [pc|] eqn:Hpc; [|done].
  simpl in Hp.
  destruct (decide (tpl' = tpl)) as [->|Hne].
  { by rewrite (getTemplatePath_hit fs tpl w pc p). }
  revert Hkept. unfold getTemplatePath. apply pres_get. apply pres_bind.
  { intros _. split; [|done]. simpl. by rewrite Hpc. }
  intros _ w1 _. destruct (_ !! tpl') as [p'|]; [destruct (truthy p')|].
  - apply pres_ret.
  - by apply path_kept_loop.
  - by apply path_kept_loop.
Qed.

Lemma path_kept_frame (F : Hbs.t → Hbs.t → Prop) (P : Event → Prop)
    tpl p w w' :
  (∀ h h', F h h' → Hbs.pathCache h' = Hbs.pathCache h) →
  evolves F P w w' → path_kept tpl p w → path_kept tpl p w'.
Proof.
  intros HF [Hh _] Hkept. unfold path_kept. by rewrite (HF _ _ Hh).
Qed.

Lemma path_kept_render fs this tpl tpl' p locals :
  pres (path_kept tpl p) (render fs this tpl' locals).
Proof.
  apply render_pres.
  - intros w. unfold render_path.
    apply pres_bind; [apply path_kept_getTemplatePath|].
    intros tp w1 _. apply pres_get. apply pres_ret.
  - intros w Hw. eapply (path_kept_frame only_partials);
      [|apply render_partials_frame|done].
    intros h h' Hh. by rewrite Hh.
  - intros q w1 _ w Hw. eapply (path_kept_frame only_cache);
      [|apply render_load_shape|done].
    intros h h' Hh. by rewrite Hh.
  - intros w1 _ w Hw. eapply (path_kept_frame finish_keeps);
      [|apply finish_shape|done].
    by intros h h' (_ & -> & _).
Qed.

(** X25: nothing is ever evicted.  With caching enabled, the entry of a
    name in the template cache is after any renders, of any names and on any
    file system, the entry it was: a template or a layout that changes on
    disk is not loaded again.  Likewise the path of a name in the path cache
    stays what it was. *)
Theorem caches_never_invalidated calls w tpl :
  let w' := renders calls w in
  (∀ entry,
     Hbs.disableCache (w_hbs w) = false →
     Hbs.cache (w_hbs w) !! tpl = Some entry →
     Hbs.cache (w_hbs w') !! tpl = Some entry)
  ∧ (∀ p,
       default ∅ (Hbs.pathCache (w_hbs w)) !! tpl = Some p →
       truthy p = true →
       default ∅ (Hbs.pathCache (w_hbs w')) !! tpl = Some p).
Proof.
  intros w'. split.
  - intros entry Hon Hentry.
    assert (entry_kept tpl entry w') as [_ Hkept]; [|done].
    unfold w'. assert (entry_kept tpl entry w) as Hw by done.
    clear Hon Hentry w'. revert w Hw.
    induction calls as [|c calls IH]; intros w Hw; simpl; [done|].
    by apply IH, entry_kept_render.
  - intros p Hp Htruthy.
    assert (path_kept tpl p w') as [Hkept _]; [|done].
    unfold w'. assert (path_kept tpl p w) as Hw by done.
    clear Hp w'. revert w Hw.
    induction calls as [|c calls IH]; intros w Hw; simpl; [done|].
    by apply IH, path_kept_render.
Qed.

Lemma settled_step (F1 : Hbs.t → Hbs.t → Prop) h0 h h' :
  (∀ h h', F1 h h' → Hbs.disableCache h' = Hbs.disableCache h
                     ∧ Hbs.partialsRegistered h' = Hbs.partialsRegistered h
                     ∧ Hbs.partials h' = Hbs.partials h) →
  partials_settled h0 h → F1 h h' → partials_settled h0 h'.
Proof.
  intros HF (Hd & Hr & Hp) Hstep.
  destruct (HF h h' Hstep) as (Hd' & Hr' & Hp').
  unfold partials_settled. by rewrite Hd', Hr', Hp'.
Qed.

Lemma settled_render fs this tpl locals w0 :
  pres (evolves partials_settled (λ e, ¬ is_listing e) w0)
       (render fs this tpl locals).
Proof.
  apply render_pres.
  - apply (pres_evolves _ only_pathCache _ is_stat).
    + intros h h'. apply settled_step. intros h1 h2 Hh. by rewrite Hh.
    + intros []; simpl; tauto.
    + apply render_path_frame.
  - intros w Hw. pose proof Hw as [(Hd & Hr & _) _].
    by rewrite render_partials_registered.
  - intros p w1 _. apply (pres_evolves _ only_cache _ is_load_event).
    + intros h h'. apply settled_step. intros h1 h2 Hh. by rewrite Hh.
    + intros []; simpl; tauto.
    + apply render_load_shape.
  - intros w1 _. apply finish_evolves.
    + intros h h'. apply settled_step. intros h1 h2 Hh. by rewrite Hh.
    + intros h v Hh. exact Hh.
    + intros h h'. apply settled_step. intros h1 h2 Hh. by rewrite Hh.
    + intros []; simpl; tauto.
    + intros []; simpl; tauto.
Qed.

(** X26: with caching enabled the partials are registered once: after a
    pass that set [partialsRegistered], no render lists a directory of
    partials or registers a partial again, and the table of partials stays
    what it was; a partial file that is added or changed later is not
    seen. *)
Theorem partials_registered_once calls w :
  Hbs.disableCache (w_hbs w) = false →
  Hbs.partialsRegistered (w_hbs w) = true →
  let w' := renders calls w in
  Hbs.partials (w_hbs w') = Hbs.partials (w_hbs w)
  ∧ ∃ d, w_log w' = (w_log w ++ d)%list ∧ Forall (λ e, ¬ is_listing e) d.
Proof.
  intros Hon Hreg w'.
  assert (∀ w1, evolves partials_settled (λ e, ¬ is_listing e) w w1 →
                evolves partials_settled (λ e, ¬ is_listing e) w
                        (renders calls w1)) as Hall.
  { induction calls as [|c calls IH]; intros w1 Hw1; simpl; [done|].
    by apply IH, settled_render. }
  destruct (Hall w) as [(_ & _ & Hp) Hlog]; [by apply evolves_refl|done].
Qed.

End Stable.

Section Uncached.
Context `{!Platform} `{!Engine}.

Lemma partials_pass_lists fs h roots w :
  ∃ d, w_log (partials_pass fs h roots w).2
       = (w_log w ++ map (EGlob ("**/*" +:+ Hbs.extname h)) roots ++ d)%list.
Proof.
  unfold partials_pass, try_catch, bind at 1.
  set (pat := "**/*" +:+ Hbs.extname h).
  pose proof (promise_all_world (λ root, js_glob fs pat root) (EGlob pat)
                roots w (λ x w', js_glob_world fs pat x w')) as Hw1.
  destruct (promise_all _ w) as [[rl|e] w1]; simpl in Hw1; subst w1.
  - destruct (bool_decide (length rl = 0)).
    + exists []. simpl. by rewrite app_nil_r.
    + unfold bind at 1.
      pose proof (promise_all_world (read fs) EReadFile
                    (partial_files roots rl)
                    (logged (map (EGlob pat) roots) w) (read_world fs))
        as Hw2.
      destruct (promise_all _ (logged _ w)) as [[srcs|e] w2];
        simpl in Hw2; subst w2.
      * unfold bind at 1. rewrite for_each_registerPartial.
        eexists. simpl. by rewrite <-!app_assoc.
      * eexists. simpl. by rewrite <-!app_assoc.
  - eexists. simpl. by rewrite <-!app_assoc.
Qed.

Lemma registerPartials_lists fs w :
  ∃ d, w_log (registerPartials fs w).2
       = (w_log w
          ++ map (EGlob ("**/*" +:+ Hbs.extname (w_hbs w)))
                 (partial_roots (Hbs.partialsPath (w_hbs w)))
          ++ d)%list.
Proof.
  destruct (registerPartials_pass fs w) as (w0 & -> & Hh & Hlog).
  destruct (partials_pass_lists fs (w_hbs w0)
              (partial_roots (Hbs.partialsPath (w_hbs w))) w0) as [d Hd].
  exists d. rewrite Hd, Hlog. by rewrite Hh.
Qed.

(** X27: with caching disabled, every render that has found its template
    lists every root of the partials again before it loads the template:
    the partials are registered anew at each render. *)
Theorem render_uncached_lists fs this tpl locals w p w1 :
  Hbs.disableCache (w_hbs w) = true →
  render_path fs tpl w = (Ok (Some p), w1) → truthy p = true →
  ∃ d, w_log (render fs this tpl locals w).2 = (w_log w ++ d)%list
       ∧ ∀ root, root ∈ partial_roots (Hbs.partialsPath (w_hbs w)) →
                 EGlob ("**/*" +:+ Hbs.extname (w_hbs w)) root ∈ d.
Proof.
  intros Hoff Hpath Hp.
  pose proof (render_path_frame fs tpl w) as ((Hh1 & d0 & Hlog1 & _) & _).
  rewrite Hpath in Hh1, Hlog1. simpl in Hh1, Hlog1.
  unfold only_pathCache in Hh1.
  assert (render_partials fs w1 = registerPartials fs w1) as Hpartials.
  { assert (Hbs.disableCache (w_hbs w1) = true) as Hoff1
      by (rewrite Hh1; exact Hoff).
    unfold render_partials, bind, get_hbs. by rewrite Hoff1. }
  destruct (registerPartials_lists fs w1) as [d1 Hlog2].
  rewrite <-Hpartials in Hlog2.
  assert (Hbs.extname (w_hbs w1) = Hbs.extname (w_hbs w)) as Hext
    by (by rewrite Hh1).
  assert (Hbs.partialsPath (w_hbs w1) = Hbs.partialsPath (w_hbs w)) as Hroots
    by (by rewrite Hh1).
  rewrite Hext, Hroots, Hlog1 in Hlog2.
  set (globs := map (EGlob ("**/*" +:+ Hbs.extname (w_hbs w)))
                    (partial_roots (Hbs.partialsPath (w_hbs w)))) in *.
  rewrite (render_eval fs this tpl locals w p w1) by done.
  set (w2 := (render_partials fs w1).2) in *.
  set (merged := merged_locals (w_hbs w) this locals).
  pose proof (render_load_shape fs tpl p merged w2) as ((_ & d2 & Hlog3 & _) & _).
  assert (∀ d3 root,
            root ∈ partial_roots (Hbs.partialsPath (w_hbs w)) →
            EGlob ("**/*" +:+ Hbs.extname (w_hbs w)) root
            ∈ (d0 ++ globs ++ d1 ++ d3)%list) as Hin.
  { intros d3 root Hroot. apply elem_of_app. right. apply elem_of_app. left.
    apply list_elem_of_fmap. by exists root. }
  destruct (render_load fs tpl p merged w2) as [[[]|e] w3]; simpl in Hlog3.
  - pose proof (finish_shape fs this tpl merged w3) as Hfin.
    apply evolves_log in Hfin as [d4 Hlog4].
    exists (d0 ++ globs ++ d1 ++ d2 ++ d4)%list. split; [|apply Hin].
    by rewrite Hlog4, Hlog3, Hlog2, <-!app_assoc.
  - exists (d0 ++ globs ++ d1 ++ d2)%list. split; [|apply Hin].
    simpl. by rewrite Hlog3, Hlog2, <-!app_assoc.
Qed.

End Uncached.

(** ** The errors of a render, by kind *)

Section Kinds.
Context `{!Platform} `{!Engine}.
Context (Q : Error → Prop).
Hypothesis Q_fs : ∀ file, Q (FsError file).
Hypothesis Q_type : ∀ message, Q (TypeError message).

Lemma read_kinds fs file : throws_only Q (read fs file).
Proof.
  apply throws_bind; [apply throws_returns, returns_emit|]. intros _.
  destruct (readFile fs file); [apply throws_returns, returns_ret|].
  by apply throws_throw.
Qed.

Lemma loadLayoutFile_kinds fs layout : throws_only Q (loadLayoutFile fs layout).
Proof.
  apply throws_bind; [|intros file; apply read_kinds].
  apply throws_get; intros h. destruct (truthy _).
  - apply throws_returns, returns_ret.
  - destruct (Hbs.viewPath h); [by apply throws_throw|].
    apply throws_returns, returns_ret.
Qed.

Lemma compile_kinds src : throws_only Q (handlebars_compile src).
Proof.
  apply throws_bind; [apply throws_returns, returns_emit|]. intros _.
  apply throws_returns, returns_ret.
Qed.

Lemma render_load_kinds fs tpl p locals :
  throws_only Q (render_load fs tpl p locals).
Proof.
  apply throws_get; intros h.
  destruct (_ || _); [|apply throws_returns, returns_ret].
  apply throws_bind; [apply read_kinds|]. intros raw.
  apply throws_bind; [apply compile_kinds|]. intros template.
  apply throws_bind; [apply throws_returns, returns_update|]. intros _.
  destruct (_ || _); [|apply throws_returns, returns_ret].
  apply throws_bind; [|intros t; apply throws_returns, returns_update].
  destruct (negb _); [|apply compile_kinds].
  apply throws_bind; [apply loadLayoutFile_kinds|]. intros rawLayout.
  apply compile_kinds.
Qed.

Lemma render_finish_kinds fs this tpl locals :
  throws_only Q (render_finish fs this tpl locals).
Proof.
  apply throws_get; intros h.
  destruct (Hbs.cache h !! tpl) as [entry|]; [|by apply throws_throw].
  apply throws_bind.
  { destruct (Entry.layoutTemplate entry).
    - apply throws_returns, returns_ret.
    - apply throws_returns, getLayoutTemplate_returns. }
  intros layoutTemplate.
  apply throws_bind; [apply throws_returns, returns_update|]. intros _.
  apply throws_get; intros h'.
  apply throws_bind; [apply throws_returns, returns_emit|]. intros _.
  apply throws_bind; [apply throws_returns, run_returns|]. intros body.
  destruct layoutTemplate as [t|]; [|by apply throws_throw].
  apply throws_bind; [apply throws_returns, returns_emit|]. intros _.
  apply throws_bind; [apply throws_returns, run_returns|]. intros out.
  apply throws_returns, returns_ret.
Qed.

End Kinds.

Section ErrorKinds.
Context `{!Platform} `{!Engine}.

(** X22: a missing-template error that leaves a render is the one of line
    120, whatever the name, the data and the state of the instance: its
    message is the fixed one and its payload is [undefined] or the empty
    string, the variable handed to the constructor having just been tested
    falsy.  No render reports the name or the path that it missed. *)
Theorem missing_template_error_payload fs this tpl locals w message extra w' :
  render fs this tpl locals w
  = (Throw (MissingTemplateError message extra), w') →
  message = "The template specified does not exist."
  ∧ (extra = JUndefined ∨ extra = JStr "").
Proof.
  intros Hthrow.
  assert (throws_only missing_as_thrown (render fs this tpl locals)) as Hall.
  { intros w0 e w0' Hrender. rewrite render_unfold in Hrender.
    revert w0 e w0' Hrender.
    refine (throws_bind _ _ _ _).
    { apply throws_returns, render_path_returns. }
    intros [p|]; [|apply throws_throw; split; [done|by left]].
    destruct (truthy p) eqn:Hp; simpl.
    - apply throws_get; intros h.
      apply throws_bind; [apply throws_returns, render_partials_returns|].
      intros _. apply throws_bind; [by apply render_load_kinds|]. intros _.
      by apply render_finish_kinds.
    - apply throws_throw. split; [done|]. right. f_equal.
      by apply truthy_false. }
  exact (Hall _ _ _ Hthrow).
Qed.

End ErrorKinds.

(** ** The default layout *)

Section Default.
Context `{!Platform} `{!Engine}.

Lemma getLayoutTemplate_loads fs w source :
  Hbs.disableCache (w_hbs w) = true ∨ Hbs.layoutTemplate (w_hbs w) = None →
  default_layout_source fs (w_hbs w) = Some source →
  ∃ d, getLayoutTemplate fs w
       = (Ok (Some (compile source)),
          {| w_hbs := Hbs.set_layoutTemplate (Some (compile source)) (w_hbs w);
             w_arrays := w_arrays w; w_next := w_next w;
             w_log := (w_log w ++ d)%list |}).
Proof.
  intros Hslot Hsource.
  unfold getLayoutTemplate, bind at 1, get_hbs at 1. cbv beta iota.
  assert (Hbs.disableCache (w_hbs w)
          || negb (bool_decide (is_Some (Hbs.layoutTemplate (w_hbs w)))) = true)
    as ->.
  { destruct Hslot as [->| ->]; [done|].
    rewrite bool_decide_eq_false_2 by (by intros [? ?]).
    by rewrite orb_true_r. }
  unfold bind at 1, bind at 1. rewrite cacheLayout_eq. cbv zeta.
  unfold default_layout_source in Hsource. unfold or_default. simpl.
  destruct (truthy (Hbs.defaultLayout (w_hbs w))).
  - destruct (layout_path _ _) as [file|]; [|done].
    rewrite Hsource. by eexists.
  - injection Hsource as <-. by eexists.
Qed.

(** X28: a render that loads a template which names no layout (nothing in
    the data, no directive) and finds no default layout template on the
    instance (or caching disabled) wraps the body in the default layout: the
    layout is compiled from the file of [defaultLayout], or, when none is
    configured, from the pass-through [{{{body}}}], in which case what is
    delivered is the body itself.  The layout template is kept on the
    instance and the entry of the name in the cache has no layout of its
    own. *)
Theorem default_layout_wraps fs this tpl locals w p w1 raw source :
  render_path fs tpl w = (Ok (Some p), w1) → truthy p = true →
  Hbs.disableCache (w_hbs w) = true ∨ Hbs.cache (w_hbs w) !! tpl = None →
  readFile fs p = Some raw →
  chosen_layout (merged_locals (w_hbs w) this locals) raw = None →
  Hbs.disableCache (w_hbs w) = true ∨ Hbs.layoutTemplate (w_hbs w) = None →
  default_layout_source fs (w_hbs w) = Some source →
  let merged := merged_locals (w_hbs w) this locals in
  ∃ wb body wc out w',
    run (compile raw (Hbs.partials (w_hbs wb)) merged
                     (Hbs.templateOptions (w_hbs wb))) wb
    = (Ok body, wc)
    ∧ run (compile source (Hbs.partials (w_hbs wb))
                   (<["body" := JStr body]> merged)
                   (Hbs.templateOptions (w_hbs wb)))
          (logged [ELayout (<["body" := JStr body]> merged)] wc)
      = (Ok out, w')
    ∧ render fs this tpl locals w
      = (Ok {| ctx_state := ctx_state this; ctx_body := Some out |}, w')
    ∧ Hbs.layoutTemplate (w_hbs w') = Some (compile source)
    ∧ Hbs.cache (w_hbs w') !! tpl = Some (entry_of raw None)
    ∧ (source = "{{{body}}}" → out = body).
Proof.
  intros Hpath Hp Hmiss Hread Hnone Hslot Hsource merged.
  pose proof (prepared_intro fs tpl w _ w1 Hpath) as Hprep.
  set (w2 := (render_partials fs w1).2) in *.
  pose proof (render_eval fs this tpl locals w p w1 Hpath Hp) as Hrender.
  fold merged w2 in Hrender.
  rewrite (render_load_miss fs tpl p merged _ raw) in Hrender
    by (by eauto using prepared_miss).
  fold merged in Hnone. rewrite Hnone in Hrender.
  set (w3 := loaded tpl p raw w2) in *.
  destruct Hprep as (Hh & _).
  destruct (getLayoutTemplate_loads fs w3 source) as (d & Hlt).
  { unfold w3. simpl. by rewrite Hh. }
  { unfold w3, default_layout_source. simpl.
    change (layout_path (Hbs.set_cache ?c ?h) ?l) with (layout_path h l).
    rewrite Hh. exact Hsource. }
  pose proof (finish_cache fs this tpl merged w3) as Hcache.
  rewrite (render_finish_eval fs this tpl merged w3 (entry_of raw None))
    in Hrender, Hcache by (simpl; by rewrite lookup_insert_eq).
  simpl Entry.layoutTemplate in Hrender, Hcache.
  rewrite Hlt in Hrender, Hcache. cbv beta iota zeta in Hrender, Hcache.
  simpl Entry.template in Hrender, Hcache.
  match type of Hrender with
  | context [logged [ETemplate merged] (with_koa this ?wa)] =>
      set (wb := logged [ETemplate merged] (with_koa this wa)) in *
  end.
  pose proof (run_evolves
                (compile raw (Hbs.partials (w_hbs wb)) merged
                   (Hbs.templateOptions (w_hbs wb))) wb) as [Hblocks1 _].
  destruct (run_returns
              (compile raw (Hbs.partials (w_hbs wb)) merged
                 (Hbs.templateOptions (w_hbs wb))) wb) as [body Hbody].
  destruct (run _ wb) as [r wc] eqn:Hrun1. simpl in Hbody, Hblocks1. subst r.
  set (bodied := <["body" := JStr body]> merged) in *.
  pose proof (run_evolves
                (compile source (Hbs.partials (w_hbs wb)) bodied
                   (Hbs.templateOptions (w_hbs wb)))
                (logged [ELayout bodied] wc)) as [Hblocks2 _].
  destruct (run_returns
              (compile source (Hbs.partials (w_hbs wb)) bodied
                 (Hbs.templateOptions (w_hbs wb)))
              (logged [ELayout bodied] wc)) as [out Hout].
  destruct (run _ (logged [ELayout bodied] wc)) as [r wd] eqn:Hrun2.
  simpl in Hout, Hblocks2, Hcache. subst r.
  exists wb, body, wc, out, wd.
  split_and!; [done|exact Hrun2|exact Hrender| | |].
  - unfold only_blocks in *. rewrite Hblocks2. simpl. rewrite Hblocks1.
    reflexivity.
  - simpl in Hcache. rewrite Hcache. by rewrite lookup_insert_eq.
  - intros ->. unfold bodied in Hrun2.
    rewrite (compile_body _ _ _ body) in Hrun2
      by (by rewrite lookup_insert_eq).
    by injection Hrun2 as <- _.
Qed.

End Default.

(** * The sample installation *)

Section Sample.
#[local] Existing Instances sample_platform sample_engine.

Lemma layout_false_passthrough_witness :
  delivered (render sample_fs empty_ctx "home" (Some layout_false)
                    (start sample_options))
  = Some "<p>hi</p>".
Proof.
  destruct (layout_false_passthrough sample_fs empty_ctx "home"
              (Some layout_false) (start sample_options) "/views/home.hbs"
              (render_path sample_fs "home" (start sample_options)).2 src_home)
    as (body & wc & Hbody & Hrender);
    [vm_compute; reflexivity|reflexivity|right; vm_compute; reflexivity
    |reflexivity|vm_compute; reflexivity|].
  rewrite Hrender. vm_compute in Hbody. injection Hbody as <- _.
  reflexivity.
Defined.

(** C1, the counterexample: with caching enabled, after a render of [home]
    has put the layout of its directive in the cache, a render of [home] with
    [layout: false] delivers the body wrapped in that layout, not the body
    that the template returns. *)
Lemma layout_false_after_cached_layout :
  (∀ partials data options w,
     (run (compile src_home partials data options) w).1 = Ok "<p>hi</p>")
  ∧ layout_false !! "layout" = Some (JBool false)
  ∧ delivered (render sample_fs empty_ctx "home" (Some layout_false) after_home)
    = Some "<html><p>hi</p></html>".
Proof. split; [done|]. split; vm_compute; reflexivity. Qed.

Lemma cache_reuse_witness :
  ∃ ctx w3 dt,
    render sample_fs empty_ctx "home" (Some layout_false)
           (renders [call_of "plain" None] after_home)
    = (Ok ctx, w3)
    ∧ w_log w3 = (w_log (renders [call_of "plain" None] after_home) ++ dt)%list
    ∧ Forall is_template_event dt.
Proof.
  destruct (cache_reuse sample_fs empty_ctx None "home" (start sample_options)
              "/views/home.hbs"
              {| ctx_state := None;
                 ctx_body := Some "<html><p>hi</p></html>" |}
              after_home [call_of "plain" None]
              sample_fs empty_ctx (Some layout_false))
    as (ctx & w3 & dt & Hrender & Hlog & Hdt & _ & _ & Hpartials);
    [reflexivity|vm_compute; reflexivity|reflexivity
    |vm_compute; reflexivity|].
  rewrite Hpartials in Hlog by (right; vm_compute; reflexivity).
  exists ctx, w3, dt. split_and!; assumption.
Defined.

Lemma default_layout_failure_witness :
  (render sample_fs empty_ctx "plain" None (start options_absent_default)).1
  = Throw (TypeError "layoutTemplate is not a function").
Proof.
  destruct (default_layout_failure sample_fs empty_ctx "plain" None
              (start options_absent_default) "/views/plain.hbs"
              (render_path sample_fs "plain" (start options_absent_default)).2
              src_plain "/views/absent.hbs")
    as (w' & d & Hrender & _);
    [vm_compute; reflexivity|reflexivity|right; vm_compute; reflexivity
    |reflexivity|vm_compute; reflexivity|right; vm_compute; reflexivity
    |reflexivity|vm_compute; reflexivity|reflexivity|].
  rewrite Hrender. reflexivity.
Defined.

Lemma missing_template_witness :
  (render sample_fs empty_ctx "nope" None (start sample_options)).1
  = Throw (MissingTemplateError "The template specified does not exist."
                                JUndefined).
Proof.
  apply missing_template;
    [vm_compute; reflexivity|reflexivity|vm_compute; reflexivity|].
  intros root Hroot. apply list_elem_of_singleton in Hroot as ->.
  vm_compute. reflexivity.
Defined.

Lemma wf_store_start options : wf_store (start options).
Proof.
  unfold wf_store, start. simpl.
  destruct (configure (Some options) new_Hbs) as [h|e] eqn:Hconf.
  - unfold configure in Hconf.
    destruct (truthy_path _); [|done]. injection Hconf as <-. simpl.
    split; intros *; by rewrite lookup_empty.
  - simpl. split; intros *; by rewrite lookup_empty.
Qed.

(** C4, the counterexample: the call's data holds the key [body], and the
    data that the layout template is called with holds the rendered body
    under that key, not the call's value. *)
Lemma layout_data_body_key :
  let data : Obj := {[ "body" := JStr "mine" ]} in
  let w' := (render sample_fs empty_ctx "plain" (Some data)
                    (start sample_options)).2 in
  data !! "body" = Some (JStr "mine")
  ∧ ∃ x, last (w_log w') = Some (ELayout x)
         ∧ x !! "body" = Some (JStr "<p>plain</p>").
Proof.
  intros data w'. split; [vm_compute; reflexivity|].
  exists (<["body" := JStr "<p>plain</p>"]> data).
  split; vm_compute; reflexivity.
Qed.


Lemma block_retrieval_witness :
  ∃ out w1,
    run two_fragments (start sample_options) = (Ok out, w1)
    ∧ (block "sidebar" w1).1 = Ok ("a" +:+ newline +:+ "b")
    ∧ (block "sidebar" (block "sidebar" w1).2).1 = Ok "".
Proof.
  destruct (block_retrieval two_fragments (start sample_options) "sidebar")
    as (out & w1 & d & Hrun & Hlog & Hspec);
    [apply wf_store_start
    |repeat first [apply plain_Done|apply plain_CallContent
                  |vm_compute; reflexivity]
    |vm_compute; reflexivity|].
  vm_compute in Hrun. injection Hrun as <- <-.
  vm_compute in Hlog. subst d.
  destruct Hspec as (Hval & _ & Hagain & _).
  { intros Hin. repeat (apply elem_of_cons in Hin as [?|Hin]; [done|]).
    by apply elem_of_nil in Hin. }
  eexists _, _. split; [reflexivity|]. split; [exact Hval|exact Hagain].
Defined.

Lemma layout_choice_witness :
  Hbs.cache (w_hbs after_home) !! "home"
  = Some (entry_of src_home (Some src_main)).
Proof.
  pose proof (layout_choice sample_fs empty_ctx "home" None
                (start sample_options) "/views/home.hbs"
                (render_path sample_fs "home" (start sample_options)).2
                src_home) as Hthm.
  cbv zeta in Hthm.
  destruct Hthm as (_ & _ & Huse);
    [vm_compute; reflexivity|reflexivity|right; vm_compute; reflexivity
    |reflexivity|].
  assert (chosen_layout
            (merged_locals (w_hbs (start sample_options)) empty_ctx None)
            src_home = Some (JStr "main")) as Hchosen
    by (vm_compute; reflexivity).
  rewrite Hchosen in Huse.
  assert (layout_source sample_fs (w_hbs (start sample_options)) (JStr "main")
          = Ok src_main) as Hsource by (vm_compute; reflexivity).
  rewrite Hsource in Huse. exact (proj1 Huse).
Defined.

(** C6, the counterexample: with caching enabled, after a render of [home]
    has put the layout of its directive in the cache, a render of [home]
    whose data names the layout [frame] is still wrapped in the layout of the
    directive; on an instance that has not rendered [home] the same call is
    wrapped in [frame]. *)
Lemma explicit_layout_after_cached_directive :
  let data : Obj := {[ "layout" := JStr "frame" ]} in
  rLayoutPattern_exec src_home = Some "main"
  ∧ delivered (render sample_fs empty_ctx "home" (Some data) after_home)
    = Some "<html><p>hi</p></html>"
  ∧ delivered (render sample_fs empty_ctx "home" (Some data)
                      (start sample_options))
    = Some "<aside>default</aside><p>hi</p>".
Proof. intros data. split_and!; vm_compute; reflexivity. Qed.

(** C7, the counterexample: the first line of [late] is [<p>hi</p>] and
    its marker stands on the second line; the marker is found all the same,
    and the render is wrapped in the layout it names. *)
Lemma directive_on_a_later_line :
  src_late = "<p>hi</p>" +:+ newline +:+ "{{!< main}}"
  ∧ rLayoutPattern_test src_late = true
  ∧ rLayoutPattern_exec src_late = Some "main"
  ∧ delivered (render sample_fs empty_ctx "late" None (start sample_options))
    = Some ("<html><p>hi</p>" +:+ newline +:+ "</html>").
Proof. split_and!; vm_compute; reflexivity. Qed.

Lemma registerPartials_names_witness :
  Hbs.partials (w_hbs (registerPartials sample_fs (start options_partials)).2)
  !! "nav/item"
  = Some "<li>item</li>".
Proof.
  destruct (registerPartials_names sample_fs (start options_partials)
              ["/partials"] [["nav/item.hbs"]]
              (λ file, default "" (readFile sample_fs file))
              0 "/partials" ["nav/item.hbs"] "nav/item")
    as (_ & _ & _ & Htable).
  - vm_compute. discriminate.
  - reflexivity.
  - repeat constructor.
  - intros file Hfile. apply list_elem_of_singleton in Hfile as ->.
    reflexivity.
  - reflexivity.
  - reflexivity.
  - apply list_elem_of_here.
  - apply Htable, NoDup_singleton.
Defined.


(** C5, the counterexample: the body of [page] calls no helper, and the
    layout [frame] retrieves the block [sidebar] with the fallback
    [default].  On a new instance the render of [page] shows the fallback;
    after a render of [side], which contributed to [sidebar] under a layout
    that does not retrieve it, the same render of [page] shows the fragment
    left by [side], which its own body never contributed, and no fallback. *)
Lemma stale_fragment_instead_of_fallback :
  (∀ partials data options,
     compile src_page partials data options = Done "<p>b</p>")
  ∧ delivered (render sample_fs empty_ctx "page" None (start sample_options))
    = Some "<aside>default</aside><p>b</p>"
  ∧ delivered (render sample_fs empty_ctx "page" None
                      (renders [call_of "side" None] (start sample_options)))
    = Some "<aside>stale</aside><p>b</p>".
Proof. split; [done|]. split; vm_compute; reflexivity. Qed.

End Sample.

(** * The further properties on the sample installation *)

Section MoreSample.
#[local] Existing Instances sample_platform sample_engine.

Lemma configure_defaults_witness :
  Hbs.extname (w_hbs (start sample_options)) = ".hbs"
  ∧ Hbs.cache (w_hbs (start sample_options)) = ∅.
Proof.
  destruct (configure_defaults (Some sample_options) new_Hbs
              (w_hbs (start sample_options)) eq_refl)
    as (_ & _ & _ & _ & Hext & _ & Hcache & _).
  split; [apply Hext; by right|exact Hcache].
Defined.

Lemma reconfigure_keeps_paths_witness :
  Hbs.viewPath (w_hbs reconfigured) = ["/elsewhere"]
  ∧ getTemplatePath fs_empty "home" reconfigured
    = (Ok (Some "/views/home.hbs"), reconfigured).
Proof.
  split; [reflexivity|].
  apply (reconfigure_keeps_paths fs_empty (Some options_elsewhere) "home"
           after_home reconfigured
           (default ∅ (Hbs.pathCache (w_hbs after_home))) "/views/home.hbs");
    vm_compute; reflexivity.
Defined.

Lemma reconfigure_keeps_default_layout_witness :
  Hbs.defaultLayout (w_hbs relaid) = "main"
  ∧ (getLayoutTemplate sample_fs relaid).2 = relaid
  ∧ delivered (render sample_fs empty_ctx "plain" None relaid)
    = Some "<p>plain</p>".
Proof.
  split; [reflexivity|]. split; [|vm_compute; reflexivity].
  rewrite (reconfigure_keeps_default_layout sample_fs
             (Some options_main_default) after_plain relaid
             (compile "{{{body}}}")); [reflexivity|..];
    vm_compute; reflexivity.
Defined.

Lemma getTemplatePath_first_root_witness :
  let r := getTemplatePath sample_fs "home" (start options_two_roots) in
  r.1 = Ok (Some "/views/home.hbs")
  ∧ w_log r.2 = [EStat "/other/home.hbs"; EStat "/views/home.hbs"].
Proof.
  destruct (getTemplatePath_first_root sample_fs "home"
              (start options_two_roots) ["/other"] "/views" [])
    as (Hpath & Hlog & _).
  - vm_compute. reflexivity.
  - reflexivity.
  - reflexivity.
  - intros r Hr. apply list_elem_of_singleton in Hr as ->. reflexivity.
  - reflexivity.
  - split; [exact Hpath|exact Hlog].
Defined.

Lemma getTemplatePath_miss_witness :
  let r := getTemplatePath sample_fs "nope" (start sample_options) in
  r.1 = Ok None ∧ w_log r.2 = [EStat "/views/nope.hbs"].
Proof.
  destruct (getTemplatePath_miss sample_fs "nope" (start sample_options))
    as (Hnone & Hlog & _).
  - vm_compute. reflexivity.
  - reflexivity.
  - intros r Hr. apply list_elem_of_singleton in Hr as ->. reflexivity.
  - split; [exact Hnone|exact Hlog].
Defined.

Lemma getTemplatePath_memo_witness :
  let w1 := (getTemplatePath sample_fs "home" (start sample_options)).2 in
  getTemplatePath fs_empty "home" w1 = (Ok (Some "/views/home.hbs"), w1).
Proof.
  apply (getTemplatePath_memo sample_fs "home" (start sample_options)
           "/views/home.hbs"); vm_compute; reflexivity.
Defined.

Lemma loadLayoutFile_single_location_witness :
  loadLayoutFile sample_fs (JStr "home") (start options_two_roots)
  = (Throw (FsError "/other/home.hbs"),
     logged [EReadFile "/other/home.hbs"] (start options_two_roots)).
Proof.
  rewrite (loadLayoutFile_single_location sample_fs (JStr "home")
             (start options_two_roots) "/other" ["/views"]) by reflexivity.
  reflexivity.
Defined.

Lemma getLayoutTemplate_memo_witness :
  ∃ r w1,
    getLayoutTemplate sample_fs (start sample_options) = (Ok r, w1)
    ∧ match r with
      | Some t => ∀ fs', getLayoutTemplate fs' w1 = (Ok (Some t), w1)
      | None =>
          ∀ fs', ∃ d, d ≠ []
                      ∧ w_log (getLayoutTemplate fs' w1).2
                        = (w_log w1 ++ d)%list
      end.
Proof.
  apply (getLayoutTemplate_memo sample_fs (start sample_options)).
  reflexivity.
Defined.

Lemma registerPartials_failure_witness :
  ∃ w' d x,
    registerPartials fs_empty (start options_partials) = (Ok tt, w')
    ∧ w_log w' = (w_log (start options_partials) ++ d
                  ++ partials_report (FsError x))%list
    ∧ Forall (λ e, ¬ is_registration e) d
    ∧ Hbs.partials (w_hbs w') = Hbs.partials (w_hbs (start options_partials))
    ∧ Hbs.partialsRegistered (w_hbs w')
      = Hbs.partialsRegistered (w_hbs (start options_partials)).
Proof.
  apply (registerPartials_failure fs_empty (start options_partials)).
  left. exists "/partials". split; [apply list_elem_of_here|reflexivity].
Defined.

Lemma registerPartials_last_wins_witness :
  Hbs.partials
    (w_hbs (registerPartials fs_shadow (start options_two_partials)).2)
  !! "nav/item"
  = Some "<li>new</li>".
Proof.
  destruct (registerPartials_last_wins fs_shadow (start options_two_partials)
              ["/partials"; "/partials2"]
              [["nav/item.hbs"]; ["nav/item.hbs"]]
              (λ file, default "" (readFile fs_shadow file)))
    as (_ & Hlast & _).
  - reflexivity.
  - repeat constructor.
  - intros file Hfile. apply elem_of_cons in Hfile as [->|Hfile];
      [reflexivity|].
    apply list_elem_of_singleton in Hfile as ->. reflexivity.
  - apply (Hlast [("nav/item", "<li>item</li>")] "nav/item" "<li>new</li>" []).
    + vm_compute. reflexivity.
    + intros Hin. by apply elem_of_nil in Hin.
Defined.

Lemma wf_store_one_fragment : wf_store one_fragment.
Proof.
  destruct (run_spec (CallContent "sidebar" (Done "a") (Done ""))
              (start sample_options) (wf_store_start sample_options))
    as (out & w' & d & Hrun & (Hstep & _)).
  unfold one_fragment. rewrite Hrun. by eapply store_step_wf.
Qed.

Lemma content_after_own_block_witness :
  frags one_fragment "sidebar" = ["a"]
  ∧ ∃ w',
      content "sidebar" (run (CallInline "sidebar" (λ val, Done (wrap val))))
              one_fragment
      = (Ok tt, w')
      ∧ w_log w'
        = (w_log one_fragment
           ++ [EBlock "sidebar"; EContent "sidebar" "<b>a</b>"])%list
      ∧ frags w' "sidebar" = []
      ∧ (block "sidebar" w').1 = Ok "".
Proof.
  split; [vm_compute; reflexivity|].
  apply (content_after_own_block "sidebar" wrap one_fragment).
  - apply wf_store_one_fragment.
  - vm_compute. reflexivity.
Defined.


Lemma render_uncached_reads_witness :
  let w0 := renders [call_of "plain" None] (start options_uncached) in
  let r := render sample_fs empty_ctx "plain" None w0 in
  ∃ d, w_log r.2 = (w_log w0 ++ d)%list
       ∧ EReadFile "/views/plain.hbs" ∈ d
       ∧ ECompile src_plain ∈ d.
Proof.
  intros w0 r.
  destruct (render_uncached_reads [call_of "plain" None] sample_fs empty_ctx
              "plain" None (start options_uncached) "/views/plain.hbs"
              (render_path sample_fs "plain" w0).2)
    as (d & Hlog & Hread & Hcase);
    [reflexivity|vm_compute; reflexivity|reflexivity|].
  exists d. split_and!; [exact Hlog|exact Hread|].
  change (ECompile src_plain ∈ d
          ∧ Entry.template <$> Hbs.cache (w_hbs r.2) !! "plain"
            = Some (compile src_plain)) in Hcase.
  exact (proj1 Hcase).
Defined.

Lemma failed_layout_poisons_cache_witness :
  let r := render sample_fs empty_ctx "plain" (Some layout_missing)
                  (start sample_options) in
  r.1 = Throw (FsError "/views/missing.hbs")
  ∧ delivered (render sample_fs empty_ctx "plain" (Some layout_missing) r.2)
    = Some "<p>plain</p>".
Proof.
  intros r.
  destruct (failed_layout_poisons_cache sample_fs empty_ctx "plain"
              (Some layout_missing) (start sample_options) "/views/plain.hbs"
              (render_path sample_fs "plain" (start sample_options)).2
              src_plain (JStr "missing") "/views/missing.hbs")
    as (w' & Hrender & _);
    [vm_compute; reflexivity|reflexivity|reflexivity|reflexivity|reflexivity
    |vm_compute; reflexivity|discriminate|reflexivity|reflexivity|].
  split; [unfold r; by rewrite Hrender|vm_compute; reflexivity].
Defined.

Lemma missing_template_error_payload_witness :
  ∃ message extra,
    (render sample_fs empty_ctx "nope" None (start sample_options)).1
    = Throw (MissingTemplateError message extra)
    ∧ message = "The template specified does not exist."
    ∧ (extra = JUndefined ∨ extra = JStr "").
Proof.
  exists "The template specified does not exist.", JUndefined.
  split; [vm_compute; reflexivity|].
  apply (missing_template_error_payload sample_fs empty_ctx "nope" None
           (start sample_options) _ _
           (render sample_fs empty_ctx "nope" None (start sample_options)).2).
  vm_compute. reflexivity.
Defined.


Lemma partials_registered_once_witness :
  let w' := renders [call_of "plain" None; call_of "home" None] registered in
  Hbs.partials (w_hbs w') = Hbs.partials (w_hbs registered)
  ∧ ∃ d, w_log w' = (w_log registered ++ d)%list
         ∧ Forall (λ e, ¬ is_listing e) d.
Proof.
  apply (partials_registered_once
           [call_of "plain" None; call_of "home" None] registered);
    reflexivity.
Defined.

Lemma render_uncached_lists_witness :
  let w := renders [call_of "plain" None] (start options_uncached_partials) in
  ∃ d, w_log (render sample_fs empty_ctx "plain" None w).2
       = (w_log w ++ d)%list
       ∧ EGlob "**/*.hbs" "/partials" ∈ d.
Proof.
  intros w.
  destruct (render_uncached_lists sample_fs empty_ctx "plain" None w
              "/views/plain.hbs" (render_path sample_fs "plain" w).2)
    as (d & Hlog & Hin);
    [reflexivity|vm_compute; reflexivity|reflexivity|].
  exists d. split; [exact Hlog|]. apply Hin. vm_compute.
  apply list_elem_of_here.
Defined.

Lemma middleware_requires_viewPath_witness :
  middleware (A := unit) None (start sample_options)
  = (Throw (BadOptionsError "The option `viewPath` must be specified."
                            JUndefined), start sample_options)
  ∧ ∃ handler, (middleware (A := unit) (Some options_elsewhere)
                           (start sample_options)).1 = Ok handler.
Proof.
  destruct (middleware_requires_viewPath unit None (start sample_options))
    as [_ Hthrow].
  destruct (middleware_requires_viewPath unit (Some options_elsewhere)
              (start sample_options)) as [Hok _].
  split.
  - apply Hthrow. intros roots (o & Ho & _). discriminate Ho.
  - destruct (Hok ["/elsewhere"]) as (handler & h & Hm & _).
    + exists options_elsewhere. split; [done|]. split; [discriminate|done].
    + exists handler. by rewrite Hm.
Defined.

Lemma caches_never_invalidated_witness :
  Hbs.cache
    (w_hbs (renders [call_of "plain" None; call_of "home" (Some layout_false)]
                    after_home))
  !! "home"
  = Some (entry_of src_home (Some src_main)).
Proof.
  destruct (caches_never_invalidated
              [call_of "plain" None; call_of "home" (Some layout_false)]
              after_home "home") as [Hentry _].
  apply Hentry; [reflexivity|vm_compute; reflexivity].
Defined.

Lemma default_layout_wraps_witness :
  delivered (render sample_fs empty_ctx "plain" None
                    (start options_main_default))
  = Some "<html><p>plain</p></html>"
  ∧ delivered (render sample_fs empty_ctx "plain" None (start sample_options))
    = Some "<p>plain</p>".
Proof.
  destruct (default_layout_wraps sample_fs empty_ctx "plain" None
              (start options_main_default) "/views/plain.hbs"
              (render_path sample_fs "plain" (start options_main_default)).2
              src_plain src_main)
    as (wb & body & wc & out & w' & _ & _ & Hwrapped & _);
    [vm_compute; reflexivity|reflexivity|by right|reflexivity
    |vm_compute; reflexivity|by right|reflexivity|].
  destruct (default_layout_wraps sample_fs empty_ctx "plain" None
              (start sample_options) "/views/plain.hbs"
              (render_path sample_fs "plain" (start sample_options)).2
              src_plain "{{{body}}}")
    as (wb0 & body0 & wc0 & out0 & w0 & _ & _ & Hbare & _);
    [vm_compute; reflexivity|reflexivity|by right|reflexivity
    |vm_compute; reflexivity|by right|reflexivity|].
  split.
  - pose proof Hwrapped as Hout. vm_compute in Hout.
    injection Hout as <- _. by rewrite Hwrapped.
  - pose proof Hbare as Hout. vm_compute in Hout.
    injection Hout as <- _. by rewrite Hbare.
Defined.

End MoreSample.
